(** * ZakatWallet ledger core: a shallow embedding of the Go backend

    The development follows the package layout of
    [wallet_backend_go/internal/blockchain] (transaction.go, block.go,
    pow.go, blockchain.go, utxo.go, wallet.go) and of the request layer
    ([internal/api/handlers.go], [internal/db]).

    Conventions.
    - Go's [int] and [int64] are 64-bit two's complement integers: they are
      modelled as [Z], with the wrap-around of every addition written out
      ([wrap64]).
    - [[]byte] is [list byte]; a nil slice and an empty slice are both [[]]
      (the code only observes them through [len], [string(..)] and
      [bytes.Equal], which do not tell them apart), except for the owner
      filter of [FindUTXO], which is compared with [nil] and is an [option].
    - Go maps are [gmap]s; the order in which [range] visits a map is chosen
      by the runtime, so every loop over a map takes the visiting order as
      a parameter.
    - Library code (SHA-256, gob, crypto/ecdsa, the clock) is a parameter of
      the model; module [P256] gives an executable instance of crypto/ecdsa
      for evaluating the model on concrete keys. *)

From Stdlib Require Import ZArith List String Ascii Strings.Byte Lia Permutation.
From stdpp Require Import gmap strings list fin_maps pretty.
From Bignums Require BigZ.
Import ListNotations.
Local Open Scope Z_scope.

(** ** Machine integers *)

(** A Go [int] after an arithmetic operation: the result modulo 2^64, read
    as a signed number. *)
Definition wrap64 (z : Z) : Z := (z + 2 ^ 63) mod 2 ^ 64 - 2 ^ 63.

Definition int_max : Z := 2 ^ 63 - 1.

Definition byte_of_Z (z : Z) : byte :=
  match Byte.of_N (Z.to_N (z mod 256)) with
  | Some b => b
  | None => x00
  end.

Definition Z_of_byte (b : byte) : Z := Z.of_N (Byte.to_N b).

#[global] Instance byte_eq_dec : EqDecision byte := Byte.byte_eq_dec.

(** [bytes.Equal(a, b)] and [string(a) == string(b)] *)
Definition bytes_eqb (a b : list byte) : bool := bool_decide (a = b).

(** ** encoding/hex *)

Module Hex.

Definition digit (n : Z) : ascii :=
  if n <? 10 then ascii_of_N (Z.to_N (48 + n)) else ascii_of_N (Z.to_N (87 + n)).

(** [hex.EncodeToString] and [fmt.Sprintf("%x", b)] for a byte slice:
    two lower-case digits per byte. *)
Fixpoint EncodeToString (bs : list byte) : string :=
  match bs with
  | [] => EmptyString
  | b :: rest =>
      String (digit (Z_of_byte b / 16))
        (String (digit (Z_of_byte b mod 16)) (EncodeToString rest))
  end.

(** [reverseHexTable]: both cases of a-f are accepted. *)
Definition fromHexChar (c : ascii) : option Z :=
  let n := Z.of_N (N_of_ascii c) in
  if (48 <=? n) && (n <=? 57) then Some (n - 48)
  else if (97 <=? n) && (n <=? 102) then Some (n - 87)
  else if (65 <=? n) && (n <=? 70) then Some (n - 55)
  else None.

(** [hex.DecodeString]: the bytes decoded before the first error, and
    whether the whole string was decoded ([err == nil]). *)
Fixpoint DecodeString (s : string) : list byte * bool :=
  match s with
  | EmptyString => ([], true)
  | String _ EmptyString => ([], false)
  | String p (String q rest) =>
      match fromHexChar p, fromHexChar q with
      | Some a, Some b =>
          let '(bs, ok) := DecodeString rest in
          (byte_of_Z (a * 16 + b) :: bs, ok)
      | _, _ => ([], false)
      end
  end.

End Hex.

(** ** math/big: the two conversions the code uses *)

Module BigInt.

(** [big.Int.SetBytes]: big-endian unsigned. *)
Definition SetBytes (bs : list byte) : Z :=
  fold_left (fun acc b => acc * 256 + Z_of_byte b) bs 0.

Definition byte_len (z : Z) : nat :=
  if Z.abs z =? 0 then 0%nat else Z.to_nat (Z.log2 (Z.abs z) / 8 + 1).

(** [big.Int.Bytes]: the absolute value, big-endian, without leading
    zero bytes (so zero gives the empty slice). *)
Definition Bytes (z : Z) : list byte :=
  map (fun i => byte_of_Z (Z.abs z / 256 ^ Z.of_nat i)) (rev (seq 0 (byte_len z))).

End BigInt.

(** ** transaction.go: the data model *)

(** [TxInput]. The Go field [Vout] of an input is [InVout] here, because
    [Vout] is also the output list of a transaction. *)
Record TxInput := mkTxInput {
  Txid : list byte;
  InVout : Z;
  Signature : list byte;
  PubKey : list byte
}.

Record TxOutput := mkTxOutput {
  Value : Z;
  PubKeyHash : list byte
}.

Record Transaction := mkTransaction {
  ID : list byte;
  Vin : list TxInput;
  Vout : list TxOutput
}.

(** block.go *)
Record Block := mkBlock {
  Timestamp : Z;
  Transactions : list Transaction;
  PrevHash : list byte;
  Hash : list byte;
  Nonce : Z
}.

(** blockchain.go: [Blockchain{Blocks}] *)
Definition Blockchain := list Block.

#[global] Instance TxOutput_eq_dec : EqDecision TxOutput.
Proof. solve_decision. Defined.
#[global] Instance TxInput_eq_dec : EqDecision TxInput.
Proof. solve_decision. Defined.
#[global] Instance Transaction_eq_dec : EqDecision Transaction.
Proof. solve_decision. Defined.

(** The zero value [Transaction{}], which a map lookup returns for a
    missing key. *)
Definition zeroTransaction : Transaction := mkTransaction [] [] [].

(** Indexing a slice with an [int]: out of range (negative included) is a
    run-time panic, [None] here. *)
Definition index {A} (l : list A) (i : Z) : option A :=
  if i <? 0 then None else l !! Z.to_nat i.

(** [IsCoinbase] *)
Definition IsCoinbase (tx : Transaction) : bool :=
  match Vin tx with
  | [i] => bool_decide (length (Txid i) = 0%nat) && (InVout i =? -1)
  | _ => false
  end.

(** ** blockchain.go: FindUTXO *)

(** [m[k] = append(m[k], x)] *)
Definition map_append {A} (k : string) (x : A) (m : gmap string (list A))
  : gmap string (list A) :=
  <[k := default [] (m !! k) ++ [x]]> m.

(** The inner loop over [spentTXOs[txIDStr]]. *)
Definition is_spent (spentTXOs : gmap string (list Z)) (txIDStr : string) (outIdx : Z) : bool :=
  match spentTXOs !! txIDStr with
  | Some spent => existsb (fun spentOutIdx => spentOutIdx =? outIdx) spent
  | None => false
  end.

Definition owner_matches (pubKeyHash : option (list byte)) (out : TxOutput) : bool :=
  match pubKeyHash with
  | None => true
  | Some h => bytes_eqb (PubKeyHash out) h
  end.

(** [for outIdx, out := range tx.Vout] *)
Fixpoint scan_outputs (pubKeyHash : option (list byte)) (spentTXOs : gmap string (list Z))
    (txIDStr : string) (outIdx : Z) (outs : list TxOutput)
    (UTXOs : gmap string (list TxOutput)) : gmap string (list TxOutput) :=
  match outs with
  | [] => UTXOs
  | out :: rest =>
      let UTXOs' :=
        if is_spent spentTXOs txIDStr outIdx then UTXOs
        else if owner_matches pubKeyHash out then map_append txIDStr out UTXOs
        else UTXOs in
      scan_outputs pubKeyHash spentTXOs txIDStr (outIdx + 1) rest UTXOs'
  end.

(** [for _, in := range tx.Vin] recording the spent outputs. *)
Definition record_inputs (ins : list TxInput) (spentTXOs : gmap string (list Z))
  : gmap string (list Z) :=
  fold_left (fun sp i => map_append (Hex.EncodeToString (Txid i)) (InVout i) sp) ins spentTXOs.

(** One iteration of the loop over the transactions of a block. *)
Definition scan_tx (pubKeyHash : option (list byte))
    (st : gmap string (list Z) * gmap string (list TxOutput)) (tx : Transaction)
  : gmap string (list Z) * gmap string (list TxOutput) :=
  let '(spentTXOs, UTXOs) := st in
  let txIDStr := Hex.EncodeToString (ID tx) in
  let UTXOs' := scan_outputs pubKeyHash spentTXOs txIDStr 0 (Vout tx) UTXOs in
  let spentTXOs' := if IsCoinbase tx then spentTXOs else record_inputs (Vin tx) spentTXOs in
  (spentTXOs', UTXOs').

Definition scan_block (pubKeyHash : option (list byte))
    (st : gmap string (list Z) * gmap string (list TxOutput)) (b : Block) :=
  fold_left (scan_tx pubKeyHash) (Transactions b) st.

Definition scan_chain (pubKeyHash : option (list byte)) (bc : Blockchain)
    (st : gmap string (list Z) * gmap string (list TxOutput)) :=
  fold_left (scan_block pubKeyHash) bc st.

Definition FindUTXO (bc : Blockchain) (pubKeyHash : option (list byte))
  : gmap string (list TxOutput) :=
  snd (scan_chain pubKeyHash bc (∅, ∅)).

(** ** pow.go: IntToHex *)

(** [binary.Write(buf, binary.BigEndian, n)] for an [int64]: the eight
    bytes of the two's complement representation, most significant first. *)
Definition IntToHex (n : Z) : list byte :=
  map (fun i => byte_of_Z ((n mod 2 ^ 64) / 256 ^ Z.of_nat i)) (rev (seq 0 8)).

Definition targetBits : Z := 20.

(** [NewProofOfWork]: [target = 1 << (256 - targetBits)] *)
Definition target : Z := Z.shiftl 1 (256 - targetBits).

(** ** crypto/ecdsa over P-256, executable

    The repository calls [ecdsa.Sign] and [ecdsa.Verify] of the Go standard
    library on the curve [elliptic.P256()]. The model of the repository is
    parametric in these two functions; this module is the instance used to
    run it: the textbook algorithm with the argument checks of the library
    (a signature component outside [1, n-1] and a public key that is not a
    point of the curve are rejected). Field arithmetic runs on [bigZ]. *)

Module P256.

Definition p : Z := 0xffffffff00000001000000000000000000000000ffffffffffffffffffffffff.
Definition n : Z := 0xffffffff00000000ffffffffffffffffbce6faada7179e84f3b9cac2fc632551.
Definition b : Z := 0x5ac635d8aa3a93e7b3ebbd55769886bc651d06b0cc53b0f63bce3c3e27d2604b.
Definition Gx : Z := 0x6b17d1f2e12c4247f8bce6e563a440f277037d812deb33a0f4a13945d898c296.
Definition Gy : Z := 0x4fe342e2fe1a7f9b8ee7eb4a7c0f9e162bce33576b315ececbb6406837bf51f5.

(** [Curve.IsOnCurve]: y^2 = x^3 - 3x + b over the field of p elements. *)
Definition IsOnCurve (x y : Z) : bool :=
  (0 <=? x) && (x <? p) && (0 <=? y) && (y <? p)
  && ((y * y - (x * x * x - 3 * x + b)) mod p =? 0).

Module BZ := BigZ.BigZ.

Definition mulm (m a c : BZ.t) : BZ.t := BZ.modulo (BZ.mul a c) m.

(** Extended Euclid on [(r0, r1)] with the Bezout coefficients
    [(t0, t1)] of the second argument. *)
Fixpoint egcd (fuel : nat) (r0 r1 t0 t1 : BZ.t) : BZ.t :=
  match fuel with
  | O => t0
  | S fuel' =>
      if BZ.eqb r1 BZ.zero then t0
      else
        let q := BZ.div r0 r1 in
        egcd fuel' r1 (BZ.sub r0 (BZ.mul q r1)) t1 (BZ.sub t0 (BZ.mul q t1))
  end.

(** Inverse modulo the prime [m] (at most 1.45 * 256 division steps). *)
Definition invm (m : Z) (a : BZ.t) : BZ.t :=
  let bm := BZ.of_Z m in
  BZ.modulo (egcd 400 bm (BZ.modulo a bm) BZ.zero BZ.one) bm.

Definition inv_mod (m a : Z) : Z := BZ.to_Z (invm m (BZ.of_Z a)).

(** Affine points; [None] is the point at infinity. *)
Definition point : Type := option (BZ.t * BZ.t).

Definition bp : BZ.t := BZ.of_Z p.

Definition chord (l x1 y1 x2 : BZ.t) : point :=
  let x3 := BZ.modulo (BZ.sub (BZ.sub (BZ.mul l l) x1) x2) bp in
  Some (x3, BZ.modulo (BZ.sub (BZ.mul l (BZ.sub x1 x3)) y1) bp).

Definition add (P Q : point) : point :=
  match P, Q with
  | None, _ => Q
  | _, None => P
  | Some (x1, y1), Some (x2, y2) =>
      if BZ.eqb x1 x2 then
        if BZ.eqb (BZ.modulo (BZ.add y1 y2) bp) BZ.zero then None
        else
          let num := BZ.sub (BZ.mul (BZ.of_Z 3) (BZ.mul x1 x1)) (BZ.of_Z 3) in
          chord (mulm bp num (invm p (BZ.mul (BZ.of_Z 2) y1))) x1 y1 x2
      else chord (mulm bp (BZ.sub y2 y1) (invm p (BZ.sub x2 x1))) x1 y1 x2
  end.

Fixpoint mul_pos (k : positive) (P : point) : point :=
  match k with
  | xH => P
  | xO k' => let h := mul_pos k' P in add h h
  | xI k' => let h := mul_pos k' P in add (add h h) P
  end.

Definition mul (k : Z) (P : point) : point :=
  match k with
  | Zpos k' => mul_pos k' P
  | _ => None
  end.

Definition of_affine (x y : Z) : point := Some (BZ.of_Z x, BZ.of_Z y).

Definition to_affine (P : point) : option (Z * Z) :=
  match P with
  | Some (x, y) => Some (BZ.to_Z x, BZ.to_Z y)
  | None => None
  end.

(** [Curve.ScalarBaseMult] *)
Definition ScalarBaseMult (k : Z) : option (Z * Z) :=
  to_affine (mul k (of_affine Gx Gy)).

(** [hashToInt]: the leftmost 256 bits of the digest. *)
Definition hashToInt (hash : list byte) : Z := BigInt.SetBytes (take 32 hash).

(** [ecdsa.Sign] with the per-signature secret [k] drawn by the caller. *)
Definition Sign (k d : Z) (hash : list byte) : option (Z * Z) :=
  if (d <=? 0) || (n <=? d) || (k <=? 0) || (n <=? k) then None
  else
    match ScalarBaseMult k with
    | None => None
    | Some (x, _) =>
        let r := x mod n in
        let s := (inv_mod n k * (hashToInt hash + r * d)) mod n in
        if (r =? 0) || (s =? 0) then None else Some (r, s)
    end.

(** [ecdsa.Verify] *)
Definition Verify (X Y : Z) (hash : list byte) (r s : Z) : bool :=
  if (r <=? 0) || (s <=? 0) then false
  else if negb (IsOnCurve X Y) then false
  else if (n <=? r) || (n <=? s) then false
  else
    let w := inv_mod n s in
    let u1 := (hashToInt hash * w) mod n in
    let u2 := (r * w) mod n in
    match to_affine (add (mul u1 (of_affine Gx Gy)) (mul u2 (of_affine X Y))) with
    | None => false
    | Some (x, _) => x mod n =? r
    end.

End P256.

(** ** Outcomes of Go calls

    A call returns ([Done]), dies in a run-time panic ([Panic]: slice index
    out of range, nil dereference), or is still running when the fuel given
    to its unbounded loop is used up ([OutOfFuel]). *)

Inductive outcome (A : Type) : Type :=
| Done (a : A)
| Panic
| OutOfFuel.

Arguments Done {A} a.
Arguments Panic {A}.
Arguments OutOfFuel {A}.

#[global] Instance outcome_ret : MRet outcome := fun A a => Done a.
#[global] Instance outcome_bind : MBind outcome := fun A B f m =>
  match m with
  | Done a => f a
  | Panic => Panic
  | OutOfFuel => OutOfFuel
  end.

(** A Go [error] value: [None] is [nil]. *)
Definition error : Type := option string.

(** [ecdsa.PrivateKey]: the scalar [D] and the public point. *)
Record PrivateKey := mkPrivateKey {
  D : Z;
  PubX : Z;
  PubY : Z
}.

(** pow.go: [ProofOfWork{block, target}] *)
Record ProofOfWork := mkProofOfWork {
  block : Block;
  pow_target : Z
}.

Definition NewProofOfWork (b : Block) : ProofOfWork := mkProofOfWork b target.

(** utxo.go: [UTXOSet{BC *Blockchain}]; the pointer may be nil. *)
Record UTXOSet := mkUTXOSet {
  BC : option Blockchain
}.

(** wallet.go: [ValidateAddress] *)
Definition ValidateAddress (address : string) : bool :=
  (0 <? Z.of_nat (String.length address)).

(** *** transaction.go: functions that need no library code *)

(** [TrimmedCopy] *)
Definition TrimmedCopy (tx : Transaction) : Transaction :=
  mkTransaction (ID tx)
    (map (fun vin => mkTxInput (Txid vin) (InVout vin) [] []) (Vin tx))
    (map (fun vout => mkTxOutput (Value vout) (PubKeyHash vout)) (Vout tx)).

(** [tx.Vin[inIdx].PubKey = pk] *)
Definition set_PubKey (inIdx : nat) (pk : list byte) (tx : Transaction) : Transaction :=
  mkTransaction (ID tx)
    (alter (fun i => mkTxInput (Txid i) (InVout i) (Signature i) pk) inIdx (Vin tx))
    (Vout tx).

(** [tx.Vin[inIdx].Signature = sig] *)
Definition set_Signature (inIdx : nat) (sig : list byte) (tx : Transaction) : Transaction :=
  mkTransaction (ID tx)
    (alter (fun i => mkTxInput (Txid i) (InVout i) sig (PubKey i)) inIdx (Vin tx))
    (Vout tx).

(** [tx.ID = id] *)
Definition set_ID (id : list byte) (tx : Transaction) : Transaction :=
  mkTransaction id (Vin tx) (Vout tx).

(** *** blockchain.go: FindTransaction *)

Definition FindTransaction (bc : Blockchain) (id : list byte) : Transaction + string :=
  match
    find (fun tx => bool_decide (Hex.EncodeToString (ID tx) = Hex.EncodeToString id))
      (concat (map Transactions bc))
  with
  | Some tx => inl tx
  | None => inr "transaction not found"%string
  end.

(** The loop of [SignTransaction] and [VerifyTransaction] that collects the
    referenced transactions; it stops at the first one that is missing. *)
Fixpoint collect_prevTXs (bc : Blockchain) (ins : list TxInput)
    (prevTXs : gmap string Transaction) : gmap string Transaction + string :=
  match ins with
  | [] => inl prevTXs
  | vin :: rest =>
      match FindTransaction bc (Txid vin) with
      | inr err => inr err
      | inl prevTx =>
          collect_prevTXs bc rest (<[Hex.EncodeToString (Txid vin) := prevTx]> prevTXs)
      end
  end.

(** *** utxo.go *)

(** The visiting order of a [range] over a map: what the runtime picks. *)
Definition map_order : Type := gmap string (list TxOutput) -> list (string * list TxOutput).

(** An order the runtime may pick visits every entry once. *)
Definition fair_order (ord : map_order) : Prop :=
  forall m, Permutation (ord m) (map_to_list m).

(** [Reindex] *)
Definition Reindex (ord : map_order) (u : UTXOSet) : gmap string (list TxOutput) :=
  match BC u with
  | None => ∅
  | Some bc =>
      let unspent := FindUTXO bc None in
      fold_left (fun UTXO '(txID, outs) => <[txID := outs]> UTXO) (ord unspent) ∅
  end.

(** The state of the two loops of [FindSpendableOutputs]; [returned] is set
    by the [return] inside them. *)
Record selection := mkSelection {
  returned : bool;
  accumulated : Z;
  unspentOuts : gmap string (list Z)
}.

(** [for outIdx, out := range outs] *)
Fixpoint select_outs (pubKeyHash : list byte) (amount : Z) (txID : string)
    (outIdx : Z) (outs : list TxOutput) (st : selection) : selection :=
  match outs with
  | [] => st
  | out :: rest =>
      if bytes_eqb (PubKeyHash out) pubKeyHash && (accumulated st <? amount) then
        let acc := wrap64 (accumulated st + Value out) in
        let sel := map_append txID outIdx (unspentOuts st) in
        if amount <=? acc then mkSelection true acc sel
        else select_outs pubKeyHash amount txID (outIdx + 1) rest (mkSelection false acc sel)
      else select_outs pubKeyHash amount txID (outIdx + 1) rest st
  end.

(** [for txID, outs := range UTXO] *)
Fixpoint select_entries (pubKeyHash : list byte) (amount : Z)
    (entries : list (string * list TxOutput)) (st : selection) : selection :=
  match entries with
  | [] => st
  | (txID, outs) :: rest =>
      let st' := select_outs pubKeyHash amount txID 0 outs st in
      if returned st' then st' else select_entries pubKeyHash amount rest st'
  end.

(** [FindSpendableOutputs]. A nil [u.BC] is dereferenced by [FindUTXO]. *)
Definition FindSpendableOutputs (ord : map_order) (u : UTXOSet)
    (pubKeyHash : option (list byte)) (amount : Z) : outcome (Z * gmap string (list Z)) :=
  match BC u with
  | None => Panic
  | Some bc =>
      let UTXO := FindUTXO bc pubKeyHash in
      let st := select_entries (default [] pubKeyHash) amount (ord UTXO)
                  (mkSelection false 0 ∅) in
      Done (accumulated st, unspentOuts st)
  end.

(** [UTXOSet.FindUTXO] *)
Definition UTXOSet_FindUTXO (u : UTXOSet) (pubKeyHash : option (list byte))
  : outcome (gmap string (list TxOutput)) :=
  match BC u with
  | None => Panic
  | Some bc => Done (FindUTXO bc pubKeyHash)
  end.

(** The loop of [Update] that drops the output at position [vout] of
    [outs]. *)
Fixpoint drop_spent (vout : Z) (outIdx : Z) (outs : list TxOutput) : list TxOutput :=
  match outs with
  | [] => []
  | out :: rest =>
      if outIdx =? vout then drop_spent vout (outIdx + 1) rest
      else out :: drop_spent vout (outIdx + 1) rest
  end.

Definition remove_spent (utxo : gmap string (list TxOutput)) (vin : TxInput)
  : gmap string (list TxOutput) :=
  let key := Hex.EncodeToString (Txid vin) in
  let updatedOuts := drop_spent (InVout vin) 0 (default [] (utxo !! key)) in
  if bool_decide (length updatedOuts = 0%nat) then delete key utxo
  else <[key := updatedOuts]> utxo.

Definition update_tx (utxo : gmap string (list TxOutput)) (tx : Transaction)
  : gmap string (list TxOutput) :=
  let utxo' := if IsCoinbase tx then utxo else fold_left remove_spent (Vin tx) utxo in
  <[Hex.EncodeToString (ID tx) := Vout tx]> utxo'.

(** [Update]: the map is changed in place; the new contents are returned. *)
Definition Update (b : Block) (utxo : gmap string (list TxOutput))
  : gmap string (list TxOutput) :=
  fold_left update_tx (Transactions b) utxo.

(** ** handlers.go and db: request, response and row types *)

(** [txRequest] *)
Record txRequest := mkTxRequest {
  From : string;
  To : string;
  Amount : Z;
  PrivKey : string
}.

(** [fundWalletRequest] *)
Record fundWalletRequest := mkFundWalletRequest {
  fund_Address : string;
  fund_Amount : Z
}.

(** [fundWalletResponse] *)
Record fundWalletResponse := mkFundWalletResponse {
  resp_Address : string;
  resp_Amount : Z;
  resp_BlockHash : string
}.

(** db: [TransactionRecord], the row written to the "transactions" table.
    [RawJSON] is [json.Marshal(tx)]; the row keeps the transaction it
    encodes. *)
Record TransactionRecord := mkTransactionRecord {
  TxID : string;
  BlockHash : string;
  Sender : string;
  Receiver : string;
  rec_Amount : Z;
  rec_Timestamp : Z;
  TxType : string;
  RawJSON : Transaction
}.

(** The calls a handler makes on the row store, in order. *)
Inductive db_call :=
| SaveBlock (height : Z) (b : Block)
| SaveTransaction (rec : TransactionRecord)
| LogSystemEvent (level typ message ip : string).

(** What a handler writes to the [http.ResponseWriter]. *)
Inductive response :=
| HttpError (message : string) (code : Z)
| JsonStatus (status : string)
| JsonFund (r : fundWalletResponse).

Definition StatusBadRequest : Z := 400.

(** [Server]: the chain (shared by [s.BC] and [s.UTXO.BC], which point to
    the same [Blockchain]) and whether a row-store client is configured. *)
Record Server := mkServer {
  S_BC : Blockchain;
  S_DB : bool
}.

Definition S_UTXO (s : Server) : UTXOSet := mkUTXOSet (Some (S_BC s)).

(** What a handler run leaves behind. *)
Record handled := mkHandled {
  server : Server;
  reply : response;
  db_calls : list db_call
}.

(** The environment of one handler run: the fuel of the mining loop, the
    clock readings, the map order picked by the runtime, the peer address
    and the result of each row-store call. *)
Record Env := mkEnv {
  fuel : nat;
  now_block : Z;
  now_record : Z;
  ord : map_order;
  RemoteAddr : string;
  db_result : db_call -> error
}.

(** ** The ledger over its libraries *)

Section Ledger.

(** [sha256.Sum256] *)
Variable sha256 : list byte -> list byte.
(** [Transaction.Serialize]: the gob encoding of a transaction. *)
Variable Serialize : Transaction -> list byte.
(** The state of [rand.Reader]. *)
Variable Entropy : Type.
(** [ecdsa.Sign(rand.Reader, &privKey, hash)] *)
Variable ecdsa_Sign : Entropy -> PrivateKey -> list byte -> (string + Z * Z) * Entropy.
(** [ecdsa.Verify(&PublicKey{P256, X, Y}, hash, r, s)] *)
Variable ecdsa_Verify : Z -> Z -> list byte -> Z -> Z -> bool.

(** *** transaction.go *)

(** [SetID] *)
Definition SetID (tx : Transaction) : Transaction :=
  set_ID (sha256 (Serialize tx)) tx.

(** [NewCoinbaseTx] *)
Definition NewCoinbaseTx (to data : string) : Transaction :=
  let data := if bool_decide (data = ""%string) then ("Reward to " +:+ to)%string else data in
  let txin := mkTxInput [] (-1) [] (list_byte_of_string data) in
  let pubKeyHash :=
    if bool_decide (to = ""%string) then []
    else
      let '(decoded, ok) := Hex.DecodeString to in
      if ok then decoded else list_byte_of_string to in
  let txout := mkTxOutput 15000 pubKeyHash in
  SetID (mkTransaction [] [txin] [txout]).

(** [Transaction.Hash]: the digest of the transaction with a blank ID. *)
Definition Transaction_Hash (tx : Transaction) : list byte :=
  sha256 (Serialize (set_ID [] tx)).

(** The digest signed for input [inIdx]: the owner of the referenced
    output is written into the copy, the copy is hashed into its ID, and
    the slot is cleared again. *)
Definition digest_input (inIdx : nat) (owner : list byte) (txCopy : Transaction)
  : Transaction :=
  let txCopy := set_PubKey inIdx owner txCopy in
  let txCopy := set_ID (Transaction_Hash txCopy) txCopy in
  set_PubKey inIdx [] txCopy.

(** The loop of [Sign]. [tx] is the transaction being signed in place,
    [txCopy] the trimmed copy. *)
Fixpoint sign_loop (privKey : PrivateKey) (prevTXs : gmap string Transaction)
    (inIdx : nat) (ins : list TxInput) (tx txCopy : Transaction) (rnd : Entropy)
  : outcome (Transaction * Entropy * error) :=
  match ins with
  | [] => Done (tx, rnd, None)
  | vin :: rest =>
      match prevTXs !! Hex.EncodeToString (Txid vin) with
      | None => Done (tx, rnd, Some "previous transaction not found"%string)
      | Some prevTx =>
          match index (Vout prevTx) (InVout vin) with
          | None => Panic
          | Some out =>
              let txCopy := digest_input inIdx (PubKeyHash out) txCopy in
              match ecdsa_Sign rnd privKey (ID txCopy) with
              | (inl err, rnd') => Done (tx, rnd', Some err)
              | (inr (r, s), rnd') =>
                  let signature := BigInt.Bytes r ++ BigInt.Bytes s in
                  let tx := set_Signature inIdx signature tx in
                  let tx := set_PubKey inIdx
                              (BigInt.Bytes (PubX privKey) ++ BigInt.Bytes (PubY privKey)) tx in
                  sign_loop privKey prevTXs (S inIdx) rest tx txCopy rnd'
              end
          end
      end
  end.

(** [Sign]: the transaction after the call, and the error returned. *)
Definition Sign (tx : Transaction) (privKey : PrivateKey)
    (prevTXs : gmap string Transaction) (rnd : Entropy)
  : outcome (Transaction * Entropy * error) :=
  if IsCoinbase tx then Done (tx, rnd, None)
  else sign_loop privKey prevTXs 0 (Vin tx) tx (TrimmedCopy tx) rnd.

(** The loop of [Verify]. *)
Fixpoint verify_loop (prevTXs : gmap string Transaction)
    (inIdx : nat) (ins : list TxInput) (txCopy : Transaction) : outcome bool :=
  match ins with
  | [] => Done true
  | vin :: rest =>
      let prevTx := default zeroTransaction (prevTXs !! Hex.EncodeToString (Txid vin)) in
      match index (Vout prevTx) (InVout vin) with
      | None => Panic
      | Some out =>
          let txCopy := digest_input inIdx (PubKeyHash out) txCopy in
          let sigLen := length (Signature vin) in
          let r := BigInt.SetBytes (take (sigLen / 2) (Signature vin)) in
          let s := BigInt.SetBytes (drop (sigLen / 2) (Signature vin)) in
          let keyLen := length (PubKey vin) in
          if bool_decide (keyLen = 0%nat) then Done false
          else
            let x := BigInt.SetBytes (take (keyLen / 2) (PubKey vin)) in
            let y := BigInt.SetBytes (drop (keyLen / 2) (PubKey vin)) in
            if negb (ecdsa_Verify x y (ID txCopy) r s) then Done false
            else verify_loop prevTXs (S inIdx) rest txCopy
      end
  end.

(** [Verify] *)
Definition Verify (tx : Transaction) (prevTXs : gmap string Transaction) : outcome bool :=
  if IsCoinbase tx then Done true
  else verify_loop prevTXs 0 (Vin tx) (TrimmedCopy tx).

(** *** wallet.go *)

(** [GetAddress] of a wallet with public key bytes [pubKey]. *)
Definition GetAddress (pubKey : list byte) : string :=
  Hex.EncodeToString (sha256 pubKey).

(** *** block.go and pow.go *)

(** [HashTransactions] *)
Definition HashTransactions (b : Block) : list byte :=
  sha256 (concat (map ID (Transactions b))).

(** [prepareData] *)
Definition prepareData (pow : ProofOfWork) (nonce : Z) : list byte :=
  PrevHash (block pow) ++ HashTransactions (block pow)
    ++ IntToHex (Timestamp (block pow)) ++ IntToHex targetBits ++ IntToHex nonce.

(** The test of both [Run] and [Validate]: [hashInt.Cmp(pow.target) == -1]. *)
Definition meets_target (pow : ProofOfWork) (nonce : Z) : bool :=
  BigInt.SetBytes (sha256 (prepareData pow nonce)) <? pow_target pow.

(** The loop of [Run], entered with the current [nonce]. *)
Fixpoint Run_from (fuel : nat) (pow : ProofOfWork) (nonce : Z) : outcome (Z * list byte) :=
  match fuel with
  | O => OutOfFuel
  | S fuel' =>
      if meets_target pow nonce then Done (nonce, sha256 (prepareData pow nonce))
      else Run_from fuel' pow (wrap64 (nonce + 1))
  end.

(** [Run] *)
Definition Run (fuel : nat) (pow : ProofOfWork) : outcome (Z * list byte) :=
  Run_from fuel pow 0.

(** [Validate] *)
Definition Validate (pow : ProofOfWork) : bool :=
  meets_target pow (Nonce (block pow)).

(** [NewBlock]; [now] is [time.Now().Unix()]. *)
Definition NewBlock (fuel : nat) (now : Z) (transactions : list Transaction)
    (prevHash : list byte) : outcome Block :=
  let block := mkBlock now transactions prevHash [] 0 in
  let pow := NewProofOfWork block in
  '(nonce, hash) ← Run fuel pow;
  mret (mkBlock now transactions prevHash hash nonce).

(** *** blockchain.go *)

(** [NewBlockchain] *)
Definition NewBlockchain (fuel : nat) (now : Z) (address : string) : outcome Blockchain :=
  let coinbase := NewCoinbaseTx address "Genesis Block" in
  genesis ← NewBlock fuel now [coinbase] [];
  mret [genesis].

(** [AddBlock]: the chain after the call and the block returned. Reading
    the tip of an empty chain is an index out of range. *)
Definition AddBlock (fuel : nat) (now : Z) (bc : Blockchain) (txs : list Transaction)
  : outcome (Blockchain * Block) :=
  match last bc with
  | None => Panic
  | Some tip =>
      newBlock ← NewBlock fuel now txs (Hash tip);
      mret (bc ++ [newBlock], newBlock)
  end.

(** [SignTransaction] *)
Definition SignTransaction (bc : Blockchain) (tx : Transaction) (privKey : PrivateKey)
    (rnd : Entropy) : outcome (Transaction * Entropy * error) :=
  match collect_prevTXs bc (Vin tx) ∅ with
  | inr err => Done (tx, rnd, Some err)
  | inl prevTXs => Sign tx privKey prevTXs rnd
  end.

(** [VerifyTransaction] *)
Definition VerifyTransaction (bc : Blockchain) (tx : Transaction) : outcome bool :=
  if IsCoinbase tx then Done true
  else
    match collect_prevTXs bc (Vin tx) ∅ with
    | inr _ => Done false
    | inl prevTXs => Verify tx prevTXs
    end.

(** *** handlers.go *)

(** [blockchain.BigIntToPrivateKey(dBytes, blockchain.GetDefaultCurve())]
  and [blockchain.NewUTXOTransaction]: called by the handlers, defined in
  a file that is not part of the sources at hand. *)
Variable BigIntToPrivateKey : list byte -> PrivateKey.
Variable NewUTXOTransaction :
PrivateKey -> string -> Z -> Blockchain -> gmap string (list Z) -> list byte -> Z ->
Entropy -> outcome (Transaction + string).

(** [balanceForAddress] *)
Definition balanceForAddress (ord : map_order) (s : Server) (address : string)
: Z * list byte + string :=
if negb (ValidateAddress address) then inr "invalid address"%string
else
  let '(pubKeyHash, ok) := Hex.DecodeString address in
  if negb ok then inr "invalid address"%string
  else
    let UTXOs := FindUTXO (S_BC s) (Some pubKeyHash) in
    let balance :=
      fold_left (fun balance '(_, outs) =>
        fold_left (fun balance out =>
          if bytes_eqb (PubKeyHash out) pubKeyHash then wrap64 (balance + Value out)
          else balance) outs balance) (ord UTXOs) 0 in
    inl (balance, pubKeyHash).

(** db: the row [SaveTransaction] inserts. *)
Definition transaction_row (now : Z) (blockHash : string) (tx : Transaction)
  (sender receiver : string) (amount : Z) (txType : string) : TransactionRecord :=
mkTransactionRecord (Hex.EncodeToString (ID tx)) blockHash sender receiver amount now txType tx.

Definition http_error (s : Server) (message : string) : outcome handled :=
mret (mkHandled s (HttpError message StatusBadRequest) []).

(** [SendTransaction]; [body] is the decoded request, [None] when the JSON
  decoder fails. *)
Definition SendTransaction (env : Env) (rnd : Entropy) (s : Server) (body : option txRequest)
: outcome handled :=
match body with
| None => http_error s "invalid request payload"
| Some req =>
    if negb (ValidateAddress (From req)) || negb (ValidateAddress (To req)) then
      http_error s "invalid address"
    else if Amount req <=? 0 then http_error s "amount must be positive"
    else
      let '(dBytes, ok) := Hex.DecodeString (PrivKey req) in
      if negb ok then http_error s "invalid private key"
      else
        let priv := BigIntToPrivateKey dBytes in
        let fromPubKeyHash := fst (Hex.DecodeString (From req)) in
        '(amount, spendable) ←
          FindSpendableOutputs (ord env) (S_UTXO s) (Some fromPubKeyHash) (Amount req);
        if amount <? Amount req then http_error s "insufficient funds"
        else
          created ← NewUTXOTransaction priv (To req) (Amount req) (S_BC s) spendable
                      fromPubKeyHash amount rnd;
          match created with
          | inr _ => http_error s "failed to create transaction"
          | inl tx =>
              valid ← VerifyTransaction (S_BC s) tx;
              if negb valid then http_error s "invalid transaction"
              else
                '(bc, newBlock) ← AddBlock (fuel env) (now_block env) (S_BC s) [tx];
                let height := Z.of_nat (length bc) - 1 in
                let blockHash := Hex.EncodeToString (Hash newBlock) in
                let calls :=
                  if S_DB s then
                    [SaveBlock height newBlock;
                     SaveTransaction (transaction_row (now_record env) blockHash tx
                                        (From req) (To req) (Amount req) "send")]
                  else [] in
                let _ := Reindex (ord env) (mkUTXOSet (Some bc)) in
                mret (mkHandled (mkServer bc (S_DB s)) (JsonStatus "transaction mined") calls)
          end
end.

(** A row-store call followed by the log entry written when it fails. *)
Definition logged (env : Env) (call : db_call) (typ : string) : list db_call :=
match db_result env call with
| Some err => [call; LogSystemEvent "error" typ err (RemoteAddr env)]
| None => [call]
end.

(** [FundWallet] *)
Definition FundWallet (env : Env) (s : Server) (body : option fundWalletRequest)
: outcome handled :=
match body with
| None => http_error s "invalid request body"
| Some req =>
    if bool_decide (fund_Address req = ""%string) || (fund_Amount req <=? 0) then
      http_error s "address and positive amount are required"
    else if negb (ValidateAddress (fund_Address req)) then http_error s "invalid address"
    else
      let cbTx := NewCoinbaseTx (fund_Address req) "admin_faucet_reward" in
      '(bc, newBlock) ← AddBlock (fuel env) (now_block env) (S_BC s) [cbTx];
      let _ := Reindex (ord env) (mkUTXOSet (Some bc)) in
      let blockHashHex := Hex.EncodeToString (Hash newBlock) in
      let calls :=
        if S_DB s then
          logged env (SaveBlock (Z.of_nat (length bc) - 1) newBlock) "faucet_save_block_failed"
          ++ match Transactions newBlock with
             | tx0 :: _ =>
                 logged env
                   (SaveTransaction (transaction_row (now_record env) blockHashHex tx0
                                       "SYSTEM" (fund_Address req) (fund_Amount req) "reward"))
                   "faucet_save_tx_failed"
             | [] => []
             end
          ++ [LogSystemEvent "info" "faucet_fund"
                ("funded " +:+ pretty (fund_Amount req) +:+ " to " +:+ fund_Address req)
                (RemoteAddr env)]
        else [] in
      mret (mkHandled (mkServer bc (S_DB s))
              (JsonFund (mkFundWalletResponse (fund_Address req) (fund_Amount req) blockHashHex))
              calls)
end.

End Ledger.


(** ** Stand-ins for the libraries, to run the model

    The theorems below hold for every digest, encoding and signature
    scheme. To evaluate the model on concrete inputs the parameters are
    instantiated here: a small checksum in place of SHA-256 (its first
    bytes are small, so that the proof-of-work target is met after a few
    nonces), a flat field-by-field encoding in place of gob, and [P256]
    for crypto/ecdsa with the per-signature secrets read from a list. *)

Module Demo.

Definition checksum (data : list byte) : Z :=
  fold_left (fun acc b => (acc * 31 + Z_of_byte b + 1) mod 65521) data 7.

Definition sha256 (data : list byte) : list byte :=
  let c := checksum data in
  byte_of_Z (c mod 3) :: x00 :: byte_of_Z (c mod 16)
    :: map (fun i => byte_of_Z (c * (Z.of_nat i + 3) + Z.of_nat i)) (seq 0 29).

Definition Serialize (tx : Transaction) : list byte :=
  ID tx
    ++ concat (map (fun i => Txid i ++ IntToHex (InVout i) ++ Signature i ++ PubKey i) (Vin tx))
    ++ concat (map (fun o => IntToHex (Value o) ++ PubKeyHash o) (Vout tx)).

Definition Entropy : Type := list Z.

Definition ecdsa_Sign (rnd : Entropy) (privKey : PrivateKey) (hash : list byte)
  : (string + Z * Z) * Entropy :=
  match rnd with
  | [] => (inl "EOF"%string, [])
  | k :: rnd' =>
      match P256.Sign k (D privKey) hash with
      | Some rs => (inr rs, rnd')
      | None => (inl "ecdsa: signing failed"%string, rnd')
      end
  end.

Definition ecdsa_Verify : Z -> Z -> list byte -> Z -> Z -> bool := P256.Verify.

(** The key with scalar [d], as wallet.go's [PrivateKeyFromHex] builds it:
    the public point is [d] times the base point. *)
Definition key_of_scalar (d : Z) : PrivateKey :=
  match P256.ScalarBaseMult d with
  | Some (x, y) => mkPrivateKey d x y
  | None => mkPrivateKey d 0 0
  end.

Definition BigIntToPrivateKey (dBytes : list byte) : PrivateKey :=
  key_of_scalar (BigInt.SetBytes dBytes).

(** [NewWallet]'s public key bytes and [GetAddress] for a key. *)
Definition pubkey_bytes (k : PrivateKey) : list byte :=
  BigInt.Bytes (PubX k) ++ BigInt.Bytes (PubY k).

Definition owner_of (k : PrivateKey) : list byte := sha256 (pubkey_bytes k).

Definition address_of (k : PrivateKey) : string := GetAddress sha256 (pubkey_bytes k).

(** Modelled from the spec: [NewUTXOTransaction] is not in the sources at
    hand. Section 4.2 ([new_transfer]): one unsigned input per selected
    output, one output of [amount] to [to], a change output of the
    remainder back to the spender when the selected value exceeds
    [amount], and an error when it is less; the transaction is then
    signed against the chain. *)
Definition NewUTXOTransaction (privKey : PrivateKey) (to : string) (amount : Z)
    (bc : Blockchain) (spendable : gmap string (list Z)) (fromPubKeyHash : list byte)
    (acc : Z) (rnd : Entropy) : outcome (Transaction + string) :=
  if acc <? amount then Done (inr "not enough funds"%string)
  else
    let inputs :=
      flat_map (fun '(txid, outs) =>
                  map (fun out => mkTxInput (fst (Hex.DecodeString txid)) out [] []) outs)
               (map_to_list spendable) in
    let change := if amount <? acc then [mkTxOutput (acc - amount) fromPubKeyHash] else [] in
    let tx := SetID sha256 Serialize
                (mkTransaction [] inputs
                   (mkTxOutput amount (fst (Hex.DecodeString to)) :: change)) in
    '(tx', _, err) ← SignTransaction sha256 Serialize Entropy ecdsa_Sign bc tx privKey rnd;
    match err with
    | Some e => Done (inr e)
    | None => Done (inl tx')
    end.

End Demo.

(** ** Sample keys, transactions and chains *)

Module Sample.

(** Three keys: scalars 7, 43 and 552 with their public points. The second
    coordinate of [key43] and the first coordinate of [key552] start with
    a zero byte, so [big.Int.Bytes] gives 31 bytes for them. *)
Definition key7 : PrivateKey := Eval vm_compute in Demo.key_of_scalar 7.
Definition key43 : PrivateKey := Eval vm_compute in Demo.key_of_scalar 43.
Definition key552 : PrivateKey := Eval vm_compute in Demo.key_of_scalar 552.

(** The genesis chain of [main.go], paying the reward to the holder of
    [key7]. *)
Definition genesis_tx : Transaction :=
  NewCoinbaseTx Demo.sha256 Demo.Serialize (Demo.address_of key7) "Genesis Block".

Definition genesis_block : Block :=
  Eval vm_compute in
    match NewBlock Demo.sha256 8 1700000000 [genesis_tx] [] with
    | Done b => b
    | _ => mkBlock 0 [] [] [] 0
    end.

Definition genesis_chain : Blockchain := [genesis_block].

(** A transfer of the whole reward (output 0 of the genesis transaction)
    from the holder of [key7] to the holder of [key552], signed with
    [key7], and the chain after it has been mined. *)
Definition spend_unsigned : Transaction :=
  SetID Demo.sha256 Demo.Serialize
    (mkTransaction [] [mkTxInput (ID genesis_tx) 0 [] []]
       [mkTxOutput 15000 (Demo.owner_of key552)]).

Definition spend_tx : Transaction :=
  Eval vm_compute in
    match SignTransaction Demo.sha256 Demo.Serialize Demo.Entropy Demo.ecdsa_Sign
            genesis_chain spend_unsigned key7 [1234567] with
    | Done (tx, _, None) => tx
    | _ => zeroTransaction
    end.

Definition spend_block : Block :=
  Eval vm_compute in
    match NewBlock Demo.sha256 8 1700000060 [spend_tx] (Hash genesis_block) with
    | Done b => b
    | _ => mkBlock 0 [] [] [] 0
    end.

Definition spent_chain : Blockchain := [genesis_block; spend_block].

(** For a key [k]: the genesis reward paid to the address of [k], the
    map of referenced transactions that holds it, and an unsigned transfer
    of its output 0 to the holder of [key7]. *)
Definition reward_to (k : PrivateKey) : Transaction :=
  NewCoinbaseTx Demo.sha256 Demo.Serialize (Demo.address_of k) "Genesis Block".

Definition refs_of (k : PrivateKey) : gmap string Transaction :=
  {[ Hex.EncodeToString (ID (reward_to k)) := reward_to k ]}.

Definition spend_of (k : PrivateKey) : Transaction :=
  SetID Demo.sha256 Demo.Serialize
    (mkTransaction [] [mkTxInput (ID (reward_to k)) 0 [] []]
       [mkTxOutput 15000 (Demo.owner_of key7)]).

End Sample.

(** ** The specification's reading of a well-formed address

    Section 4.1 of the specification: [validate_address] checks that the
    address is "non-empty, correct length/encoding". An address is the
    hex encoding of a SHA-256 digest ([GetAddress]): 32 bytes, 64 digits. *)
Definition well_formed_address (address : string) : Prop :=
  address <> ""%string /\
  exists h, Hex.DecodeString address = (h, true) /\ length h = 32%nat.

(** ** Callers of the UTXO index

    A caller of utxo.go holds a chain and a map obtained from [Reindex]
    and kept up to date with [Update]. *)

Inductive index_call :=
| CallReindex (ord : map_order)
| CallUpdate (b : Block).

Record index_state := mkIndexState {
  ix_set : UTXOSet;
  ix_map : gmap string (list TxOutput)
}.

Definition run_call (st : index_state) (c : index_call) : index_state :=
  match c with
  | CallReindex ord => mkIndexState (ix_set st) (Reindex ord (ix_set st))
  | CallUpdate b => mkIndexState (ix_set st) (Update b (ix_map st))
  end.

Definition run_calls (calls : list index_call) (st : index_state) : index_state :=
  fold_left run_call calls st.





(** Every input of [tx] references a transaction present in [prevTXs] and
    an output index within its outputs. *)
Definition references_resolve (prevTXs : gmap string Transaction) (vin : TxInput) : Prop :=
  exists prevTx out,
    prevTXs !! Hex.EncodeToString (Txid vin) = Some prevTx
    /\ index (Vout prevTx) (InVout vin) = Some out.

Definition refs_in_range (tx : Transaction) (prevTXs : gmap string Transaction) : Prop :=
  Forall (references_resolve prevTXs) (Vin tx).

(** The cut that [Verify] makes at half the length of [a ++ b] falls
    between [a] and [b]: they have the same length, or [b] is one byte
    longer. *)
Definition cut_between (a b : list byte) : Prop :=
  length b = length a \/ length b = S (length a).

(** [m'] lists, under every key, what [m] lists there, possibly followed
    by more. *)
Definition extends (m m' : gmap string (list TxOutput)) : Prop :=
  forall k, exists more, default [] (m' !! k) = default [] (m !! k) ++ more.

(** ** Chains as [NewBlockchain] and [AddBlock] build them

    Every block names the hash of the block before it; the first block
    follows [prevHash]. *)
Fixpoint linked_from (prevHash : list byte) (bc : Blockchain) : Prop :=
  match bc with
  | [] => True
  | b :: rest => PrevHash b = prevHash /\ linked_from (Hash b) rest
  end.

(** The genesis block has the empty [PrevHash]. *)
Definition linked (bc : Blockchain) : Prop := linked_from [] bc.

(** ** What the scan of [FindUTXO] lists, read off the chain

    The transactions of the chain in scan order. *)
Definition chain_transactions (bc : Blockchain) : list Transaction :=
  concat (map Transactions bc).

(** [t] is not a coinbase and one of its inputs names output [i] of the
    transaction with hex id [k]. *)
Definition references (k : string) (i : Z) (t : Transaction) : bool :=
  negb (IsCoinbase t)
  && existsb (fun vin => bool_decide (Hex.EncodeToString (Txid vin) = k) && (InVout vin =? i))
       (Vin t).

(** The outputs among [outs] (numbered from [i]) that pass the owner
    filter and that no transaction of [earlier] references. *)
Fixpoint unreferenced (pubKeyHash : option (list byte)) (earlier : list Transaction)
    (k : string) (i : Z) (outs : list TxOutput) : list TxOutput :=
  match outs with
  | [] => []
  | out :: rest =>
      (if negb (existsb (references k i) earlier) && owner_matches pubKeyHash out
       then [out] else [])
      ++ unreferenced pubKeyHash earlier k (i + 1) rest
  end.

(** For the transactions [txs] that follow [earlier] in the chain: the
    outputs of those with hex id [k] that pass the filter and are not
    referenced by a transaction before their own. *)
Fixpoint listed_under (pubKeyHash : option (list byte)) (k : string)
    (earlier txs : list Transaction) : list TxOutput :=
  match txs with
  | [] => []
  | tx :: rest =>
      (if bool_decide (Hex.EncodeToString (ID tx) = k)
       then unreferenced pubKeyHash earlier k 0 (Vout tx) else [])
      ++ listed_under pubKeyHash k (earlier ++ [tx]) rest
  end.

(** A map entry holding [l]: Go's maps of slices here never hold an empty
    slice under a key, the key is absent instead. *)
Definition entry_of {A} (l : list A) : option (list A) :=
  match l with
  | [] => None
  | _ => Some l
  end.

(** ** query.go *)

Module Summary.

(** [BlockSummary] *)
Record BlockSummary := mkBlockSummary {
  Index : Z;
  Timestamp : Z;
  Hash : string;
  PrevHash : string;
  TxCount : Z
}.

End Summary.

(** The loop of [ListBlocks], entered at index [i]. *)
Fixpoint list_blocks_from (i : Z) (blocks : list Block) : list Summary.BlockSummary :=
  match blocks with
  | [] => []
  | b :: rest =>
      Summary.mkBlockSummary i (Timestamp b) (Hex.EncodeToString (Hash b))
        (Hex.EncodeToString (PrevHash b)) (Z.of_nat (length (Transactions b)))
      :: list_blocks_from (i + 1) rest
  end.

(** [ListBlocks] *)
Definition ListBlocks (bc : Blockchain) : list Summary.BlockSummary :=
  list_blocks_from 0 bc.

(** [GetBlockByIndex]: [None] is the result [(nil, false)]. *)
Definition GetBlockByIndex (bc : Blockchain) (idx : Z) : option Block :=
  if (idx <? 0) || (Z.of_nat (length bc) <=? idx) then None
  else bc !! Z.to_nat idx.

(** The loop over [tx.Vout] of [GetTransactionsForAddress], left at the
    first output that pays [pubKeyHash]. *)
Fixpoint pays_to (pubKeyHash : list byte) (outs : list TxOutput) : bool :=
  match outs with
  | [] => false
  | out :: rest =>
      if bytes_eqb (PubKeyHash out) pubKeyHash then true else pays_to pubKeyHash rest
  end.

(** [GetTransactionsForAddress] *)
Definition GetTransactionsForAddress (bc : Blockchain) (address : string)
  : list Transaction + string :=
  if negb (ValidateAddress address) then inr "invalid address"%string
  else
    let '(pubKeyHash, ok) := Hex.DecodeString address in
    if negb ok then inr "invalid address encoding"%string
    else
      inl (fold_left (fun txs b =>
             fold_left (fun txs tx =>
               if pays_to pubKeyHash (Vout tx) then txs ++ [tx] else txs)
               (Transactions b) txs) bc []).

(** ** wallet.go: private keys as hex strings *)

(** [PrivateKeyToHex] *)
Definition PrivateKeyToHex (priv : PrivateKey) : string :=
  Hex.EncodeToString (BigInt.Bytes (D priv)).

Section Wallet.

(** [elliptic.P256().ScalarBaseMult] *)
Variable ScalarBaseMult : list byte -> Z * Z.

(** [PrivateKeyFromHex]: [None] when the decoder's error is returned
    (wrapped). *)
Definition PrivateKeyFromHex (hexKey : string) : option PrivateKey :=
  let '(dBytes, ok) := Hex.DecodeString hexKey in
  if negb ok then None
  else
    let '(x, y) := ScalarBaseMult dBytes in
    Some (mkPrivateKey (BigInt.SetBytes dBytes) x y).

End Wallet.

(** ** handlers.go: one-time codes *)

(** [otpEntry]; a [time.Time] is its count of nanoseconds. *)
Record otpEntry := mkOtpEntry {
  Code : string;
  Expires : Z
}.

(** [verifyOTPRequest] *)
Record verifyOTPRequest := mkVerifyOTPRequest {
  otp_Email : string;
  otp_OTP : string
}.

(** What the two handlers write: an [http.Error], a [requestOTPResponse],
    or a [verifyOTPResponse] with its status code. *)
Inductive otp_reply :=
| OtpError (message : string) (code : Z)
| OtpIssued (email otp : string)
| OtpVerdict (code : Z) (success : bool) (message : string).

(** [5 * time.Minute] *)
Definition five_minutes : Z := 5 * 60 * 1000000000.

Section Otp.

(** The state of [rand.Reader]. *)
Variable Entropy : Type.
(** [rand.Int(rand.Reader, max)] *)
Variable rand_Int : Entropy -> Z -> (string + Z) * Entropy.

(** The loop of [generateOTP] with [n] rounds to go. *)
Fixpoint generateOTP_loop (n : nat) (result : string) (rnd : Entropy)
  : (string * error) * Entropy :=
  match n with
  | O => ((result, None), rnd)
  | S n' =>
      match rand_Int rnd 10 with
      | (inl err, rnd') => (((""%string), Some err), rnd')
      | (inr d, rnd') => generateOTP_loop n' (result +:+ pretty d) rnd'
      end
  end.

(** [generateOTP] *)
Definition generateOTP (length : Z) (rnd : Entropy) : (string * error) * Entropy :=
  generateOTP_loop (Z.to_nat length) "" rnd.

(** [RequestOTP]: the code table after the call, the reply, the row-store
    calls and the entropy left. [body] is the decoded request ([None] when
    the decoder fails), [now] the clock reading, [db] whether a row-store
    client is configured. *)
Definition RequestOTP (now : Z) (remoteAddr : string) (db : bool) (rnd : Entropy)
    (otps : gmap string otpEntry) (body : option string)
  : gmap string otpEntry * otp_reply * list db_call * Entropy :=
  match body with
  | None => (otps, OtpError "invalid request body" 400, [], rnd)
  | Some email =>
      if bool_decide (email = ""%string) then (otps, OtpError "email is required" 400, [], rnd)
      else
        match generateOTP 6 rnd with
        | ((_, Some _), rnd') => (otps, OtpError "failed to generate otp" 500, [], rnd')
        | ((code, None), rnd') =>
            let otps' := <[email := mkOtpEntry code (now + five_minutes)]> otps in
            let calls :=
              if db then
                [LogSystemEvent "info" "otp_generated"
                   ("otp generated for email=" +:+ email) remoteAddr]
              else [] in
            (otps', OtpIssued email code, calls, rnd')
        end
  end.

End Otp.

(** [VerifyOTP] *)
Definition VerifyOTP (now : Z) (remoteAddr : string) (db : bool)
    (otps : gmap string otpEntry) (body : option verifyOTPRequest)
  : gmap string otpEntry * otp_reply * list db_call :=
  match body with
  | None => (otps, OtpError "invalid request body" 400, [])
  | Some req =>
      if bool_decide (otp_Email req = ""%string) || bool_decide (otp_OTP req = ""%string) then
        (otps, OtpError "email and otp are required" 400, [])
      else
        match otps !! otp_Email req with
        | None =>
            (otps, OtpVerdict 401 false "invalid or expired otp",
             if db then
               [LogSystemEvent "warn" "otp_not_found"
                  ("no otp for email=" +:+ otp_Email req) remoteAddr]
             else [])
        | Some entry =>
            if (Expires entry <? now) || negb (bool_decide (Code entry = otp_OTP req)) then
              (otps, OtpVerdict 401 false "invalid or expired otp",
               if db then
                 [LogSystemEvent "warn" "otp_invalid"
                    ("invalid otp for email=" +:+ otp_Email req) remoteAddr]
               else [])
            else
              (delete (otp_Email req) otps, OtpVerdict 200 true "otp verified",
               if db then
                 [LogSystemEvent "info" "otp_verified"
                    ("otp verified for email=" +:+ otp_Email req) remoteAddr]
               else [])
        end
  end.

(** ** What [Sign] signs and [Verify] checks for one input *)

Section Acceptance.

Variable sha256 : list byte -> list byte.
Variable Serialize : Transaction -> list byte.
Variable ecdsa_Verify : Z -> Z -> list byte -> Z -> Z -> bool.

(** The digest for input [inIdx]: the hash of the trimmed copy of [tx]
    with the owner of the referenced output in the [PubKey] of that input. *)
Definition input_digest (tx : Transaction) (inIdx : nat) (owner : list byte) : list byte :=
  Transaction_Hash sha256 Serialize (set_PubKey inIdx owner (TrimmedCopy tx)).

(** The two halves of the stored key and of the stored signature of [vin]
    pass [ecdsa.Verify] on the digest for input [inIdx] spending [out]. *)
Definition signature_accepted (tx : Transaction) (inIdx : nat) (vin : TxInput)
    (out : TxOutput) : Prop :=
  PubKey vin <> []
  /\ ecdsa_Verify
       (BigInt.SetBytes (take (length (PubKey vin) / 2) (PubKey vin)))
       (BigInt.SetBytes (drop (length (PubKey vin) / 2) (PubKey vin)))
       (input_digest tx inIdx (PubKeyHash out))
       (BigInt.SetBytes (take (length (Signature vin) / 2) (Signature vin)))
       (BigInt.SetBytes (drop (length (Signature vin) / 2) (Signature vin)))
     = true.

End Acceptance.

(** ** handlers.go: RunZakat *)

(** models: the fields of [WalletProfile] that [RunZakat] reads. *)
Record WalletProfile := mkWalletProfile {
  wp_UserID : string;
  WalletAddress : string;
  EncryptedPrivateKey : string
}.

(** models: [ZakatRecord] *)
Record ZakatRecord := mkZakatRecord {
  zr_ID : string;
  zr_UserID : string;
  zr_WalletAddress : string;
  zr_Amount : Z;
  zr_BlockHash : string;
  zr_CreatedAt : Z
}.

(** [zakatRunResponse] *)
Record zakatRunResponse := mkZakatRunResponse {
  TotalWallets : Z;
  Processed : Z;
  TotalZakat : Z;
  BlockHashes : list string
}.

(** The row-store calls of [RunZakat]: those of the other handlers, and
    [SaveZakatRecord]. *)
Inductive zakat_call :=
| ZakatRow (c : db_call)
| SaveZakatRecord (zr : ZakatRecord).

(** What [RunZakat] writes: an [http.Error] or the [zakatRunResponse]. *)
Inductive zakat_reply :=
| ZakatError (message : string) (code : Z)
| ZakatDone (r : zakatRunResponse).

(** [zakatAmount := (balance * 25) / 1000] on Go [int]s: the product wraps
    to 64 bits, the quotient truncates towards zero. *)
Definition zakatAmount (balance : Z) : Z := Z.quot (wrap64 (balance * 25)) 1000.

(** The variables of the loop of [RunZakat], with the chain and the
    row-store calls made so far. *)
Record zakat_state := mkZakatState {
  zs_chain : Blockchain;
  processed : Z;
  totalZakat : Z;
  blockHashes : list string;
  zs_calls : list zakat_call
}.

(** [s.DB.LogSystemEvent(ctx, level, typ, message, r.RemoteAddr)] *)
Definition zakat_log (remoteAddr level typ message : string) : zakat_call :=
  ZakatRow (LogSystemEvent level typ message remoteAddr).

(** A row-store call followed by the log entry written when it fails. *)
Definition zakat_saved (remoteAddr : string) (result : zakat_call -> error)
    (call : zakat_call) (typ : string) : list zakat_call :=
  match result call with
  | Some err => [call; zakat_log remoteAddr "error" typ err]
  | None => [call]
  end.

(** The amounts of the zakat records among [calls]. *)
Definition recorded_zakat (calls : list zakat_call) : list Z :=
  flat_map (fun c => match c with
                     | SaveZakatRecord zr => [zr_Amount zr]
                     | ZakatRow _ => []
                     end) calls.

Section Zakat.

Variable sha256 : list byte -> list byte.
Variable Serialize : Transaction -> list byte.
Variable Entropy : Type.
Variable ecdsa_Verify : Z -> Z -> list byte -> Z -> Z -> bool.
Variable NewUTXOTransaction :
  PrivateKey -> string -> Z -> Blockchain -> gmap string (list Z) -> list byte -> Z ->
  Entropy -> outcome (Transaction + string).
Variable ScalarBaseMult : list byte -> Z * Z.
(** [base64.StdEncoding.DecodeString], read as a string: the decoded text
    or the text of the error. *)
Variable base64_decode : string -> string + string.
(** The text of the error of [hex.DecodeString] on a string it rejects. *)
Variable hex_error : string -> string.

(** What one round of the loop takes from outside: the fuel of the mining
    loop, the clock readings, the orders of the two ranges over the map of
    unspent outputs, the state of [rand.Reader], the fresh uuid and the
    result of each row-store call. *)
Record ZakatRound := mkZakatRound {
  round_fuel : nat;
  round_now_block : Z;
  round_now_record : Z;
  round_now_utc : Z;
  round_ord_balance : map_order;
  round_ord_select : map_order;
  round_rnd : Entropy;
  round_uuid : string;
  round_db_result : zakat_call -> error
}.

(** The body of [for _, wp := range profiles]. *)
Definition zakat_round (remoteAddr zakatAddress : string) (st : zakat_state)
    (wp : WalletProfile) (r : ZakatRound) : outcome zakat_state :=
  let addr := WalletAddress wp in
  let s := mkServer (zs_chain st) true in
  let logged_skip (typ message : string) : outcome zakat_state :=
    Done (mkZakatState (zs_chain st) (processed st) (totalZakat st) (blockHashes st)
            (zs_calls st ++ [zakat_log remoteAddr "error" typ message])) in
  match balanceForAddress (round_ord_balance r) s addr with
  | inr balErr => logged_skip "zakat_balance_failed"%string balErr
  | inl (balance, pubKeyHash) =>
      if balance <=? 0 then Done st
      else if zakatAmount balance <=? 0 then Done st
      else
        match base64_decode (EncryptedPrivateKey wp) with
        | inr decErr => logged_skip "zakat_privkey_decode_failed"%string decErr
        | inl privHex =>
            match PrivateKeyFromHex ScalarBaseMult privHex with
            | None =>
                logged_skip "zakat_privkey_reconstruct_failed"%string
                  ("decode hex private key: " +:+ hex_error privHex)%string
            | Some privKey =>
                '(amount, spendable) ←
                  FindSpendableOutputs (round_ord_select r) (S_UTXO s) (Some pubKeyHash)
                    (zakatAmount balance);
                if amount <? zakatAmount balance then Done st
                else
                  created ← NewUTXOTransaction privKey zakatAddress (zakatAmount balance)
                              (zs_chain st) spendable pubKeyHash amount (round_rnd r);
                  match created with
                  | inr txErr => logged_skip "zakat_tx_create_failed"%string txErr
                  | inl tx =>
                      valid ← VerifyTransaction sha256 Serialize ecdsa_Verify (zs_chain st) tx;
                      if negb valid then
                        logged_skip "zakat_tx_verify_failed"%string "verification failed"%string
                      else
                        '(bc, newBlock) ←
                          AddBlock sha256 (round_fuel r) (round_now_block r) (zs_chain st) [tx];
                        let blockHashHex := Hex.EncodeToString (Hash newBlock) in
                        let _ := Reindex (round_ord_select r) (mkUTXOSet (Some bc)) in
                        let height := Z.of_nat (length bc) - 1 in
                        let zr := mkZakatRecord (round_uuid r) (wp_UserID wp) addr
                                    (zakatAmount balance) blockHashHex (round_now_utc r) in
                        let calls :=
                          zakat_saved remoteAddr (round_db_result r)
                            (ZakatRow (SaveBlock height newBlock)) "zakat_block_save_failed"
                          ++ zakat_saved remoteAddr (round_db_result r)
                               (ZakatRow
                                  (SaveTransaction
                                     (transaction_row (round_now_record r) blockHashHex tx
                                        addr zakatAddress (zakatAmount balance)
                                        "zakat_deduction")))
                               "zakat_tx_save_failed"
                          ++ zakat_saved remoteAddr (round_db_result r) (SaveZakatRecord zr)
                               "zakat_record_save_failed" in
                        Done (mkZakatState bc (wrap64 (processed st + 1))
                                (wrap64 (totalZakat st + zakatAmount balance))
                                (blockHashes st ++ [blockHashHex]) (zs_calls st ++ calls))
                  end
            end
        end
  end.

(** The loop, entered at round [i]. *)
Fixpoint zakat_loop (remoteAddr zakatAddress : string) (rounds : nat -> ZakatRound)
    (i : nat) (profiles : list WalletProfile) (st : zakat_state) : outcome zakat_state :=
  match profiles with
  | [] => Done st
  | wp :: rest =>
      st' ← zakat_round remoteAddr zakatAddress st wp (rounds i);
      zakat_loop remoteAddr zakatAddress rounds (S i) rest st'
  end.

(** [RunZakat]. [zakatAddress] is the environment variable
    ZAKAT_WALLET_ADDRESS, [listed] the result of [ListWalletProfiles]. *)
Definition RunZakat (remoteAddr zakatAddress : string) (listed : list WalletProfile + string)
    (rounds : nat -> ZakatRound) (s : Server)
  : outcome (Server * zakat_reply * list zakat_call) :=
  if negb (S_DB s) then Done (s, ZakatError "database not configured" 500, [])
  else if bool_decide (zakatAddress = ""%string) then
    Done (s, ZakatError "ZAKAT_WALLET_ADDRESS not set" 500, [])
  else
    match listed with
    | inr err =>
        Done (s, ZakatError "failed to list wallet profiles" 500,
              [zakat_log remoteAddr "error" "zakat_list_wallets_failed" err])
    | inl profiles =>
        st ← zakat_loop remoteAddr zakatAddress rounds 0 profiles
               (mkZakatState (S_BC s) 0 0 [] []);
        Done (mkServer (zs_chain st) (S_DB s),
              ZakatDone (mkZakatRunResponse (Z.of_nat (length profiles)) (processed st)
                           (totalZakat st) (blockHashes st)),
              zs_calls st
              ++ [zakat_log remoteAddr "info" "zakat_run"
                    ("zakat run processed=" +:+ pretty (processed st)
                     +:+ " total_zakat=" +:+ pretty (totalZakat st))%string])
    end.

End Zakat.

(** ** Stand-ins for the curve and the random source, to run the wallet
    and the one-time codes *)

Module DemoWallet.

Definition ScalarBaseMult (k : list byte) : Z * Z :=
  match P256.ScalarBaseMult (BigInt.SetBytes k) with
  | Some xy => xy
  | None => (0, 0)
  end.

(** Draws are read from a list and reduced below [max]. *)
Definition rand_Int (rnd : list Z) (max : Z) : (string + Z) * list Z :=
  match rnd with
  | [] => (inl "EOF"%string, [])
  | k :: rest => (inr (k mod max), rest)
  end.

(** Stored keys are kept as they are: the decoder returns its argument. *)
Definition base64_decode (s : string) : string + string := inl s.

Definition hex_error (s : string) : string := "encoding/hex: invalid byte"%string.

(** Every round of [RunZakat] with the same surroundings. *)
Definition round (i : nat) : ZakatRound Demo.Entropy :=
  mkZakatRound Demo.Entropy 8 1700000180 1700000181 1700000182 map_to_list map_to_list
    [1234567] "00000000-0000-4000-8000-000000000000" (fun _ => None).

End DemoWallet.

(** ** A wallet funded twice

    The sample genesis chain after the faucet has paid a second reward to
    the holder of [key7]: two transactions with different ids (the memos
    differ) hold one output each for the same owner. *)
Module Faucet.





End Faucet.

(** * Properties *)

(** Closes an equation between closed terms by evaluating both sides. *)
Ltac by_evaluation :=
  lazymatch goal with
  | |- ?lhs = _ => vm_cast_no_check (@eq_refl _ lhs)
  end.

(** ** encoding/hex and math/big: decoding inverts encoding *)

Lemma Hex_digits_of_byte (b : byte) :
  Hex.fromHexChar (Hex.digit (Z_of_byte b / 16)) = Some (Z_of_byte b / 16)
  /\ Hex.fromHexChar (Hex.digit (Z_of_byte b mod 16)) = Some (Z_of_byte b mod 16)
  /\ byte_of_Z (Z_of_byte b / 16 * 16 + Z_of_byte b mod 16) = b.
Proof. destruct b; vm_compute; repeat split; reflexivity. Qed.

Lemma Hex_decode_encode (bs : list byte) :
  Hex.DecodeString (Hex.EncodeToString bs) = (bs, true).
Proof.
  induction bs as [|b bs IH]; [reflexivity|].
  destruct (Hex_digits_of_byte b) as (Hhi & Hlo & Hb).
  cbn [Hex.EncodeToString Hex.DecodeString].
  rewrite Hhi, Hlo, IH, Hb. reflexivity.
Qed.

Lemma Z_of_byte_range (b : byte) : 0 <= Z_of_byte b < 256.
Proof. destruct b; vm_compute; split; congruence. Qed.

Lemma Z_of_byte_of_Z (z : Z) : Z_of_byte (byte_of_Z z) = z mod 256.
Proof.
  unfold Z_of_byte, byte_of_Z.
  assert (Hr : 0 <= z mod 256 < 256) by (apply Z.mod_pos_bound; lia).
  destruct (Byte.of_N (Z.to_N (z mod 256))) as [b|] eqn:Hb.
  - apply Byte.to_of_N in Hb. rewrite Hb. lia.
  - apply Byte.of_N_None_iff in Hb. lia.
Qed.

Lemma SetBytes_digits (n : Z) (len : nat) (acc : Z) :
  0 <= n ->
  fold_left (fun a b => a * 256 + Z_of_byte b)
    (map (fun i => byte_of_Z (n / 256 ^ Z.of_nat i)) (rev (seq 0 len))) acc
  = acc * 256 ^ Z.of_nat len + n mod 256 ^ Z.of_nat len.
Proof.
  intros Hn. revert acc. induction len as [|len IH]; intros acc.
  - simpl. rewrite Z.mod_1_r. lia.
  - rewrite seq_S, rev_app_distr. simpl rev. simpl app. cbn [map fold_left].
    rewrite IH, Z_of_byte_of_Z.
    replace (Z.of_nat (S len)) with (Z.of_nat len + 1) by lia.
    rewrite Z.pow_add_r by lia. change (256 ^ 1) with 256.
    rewrite (Z.rem_mul_r n (256 ^ Z.of_nat len) 256) by lia.
    ring.
Qed.

Lemma byte_len_bound (n : Z) : 0 <= n -> n < 256 ^ Z.of_nat (BigInt.byte_len n).
Proof.
  intros Hn. unfold BigInt.byte_len. rewrite (Z.abs_eq n) by lia.
  destruct (n =? 0) eqn:H0.
  - apply Z.eqb_eq in H0. subst. simpl. lia.
  - apply Z.eqb_neq in H0.
    assert (Hlog : 0 <= Z.log2 n) by apply Z.log2_nonneg.
    pose proof (Z.mod_pos_bound (Z.log2 n) 8 ltac:(lia)) as Hm.
    pose proof (Z.div_mod (Z.log2 n) 8 ltac:(lia)) as Hd.
    assert (Hk : 0 <= Z.log2 n / 8 + 1) by lia.
    rewrite Z2Nat.id by exact Hk.
    change 256 with (2 ^ 8). rewrite <- Z.pow_mul_r by lia.
    apply Z.log2_lt_pow2; lia.
Qed.

(** [SetBytes] reads back what [Bytes] writes. *)
Lemma SetBytes_Bytes (z : Z) : BigInt.SetBytes (BigInt.Bytes z) = Z.abs z.
Proof.
  unfold BigInt.SetBytes, BigInt.Bytes.
  assert (Hn : 0 <= Z.abs z) by apply Z.abs_nonneg.
  replace (BigInt.byte_len z) with (BigInt.byte_len (Z.abs z))
    by (unfold BigInt.byte_len; rewrite Z.abs_idemp; reflexivity).
  rewrite SetBytes_digits by exact Hn.
  rewrite Z.mod_small by (split; [exact Hn | apply byte_len_bound; exact Hn]).
  lia.
Qed.

(** ** crypto/ecdsa: the argument checks of the P-256 instance *)

Lemma P256_Verify_rejects_nonpositive (x y : Z) (h : list byte) (r s : Z) :
  r <= 0 \/ s <= 0 -> P256.Verify x y h r s = false.
Proof.
  intros H. unfold P256.Verify.
  replace ((r <=? 0) || (s <=? 0)) with true; [reflexivity|].
  symmetry. apply orb_true_iff. rewrite !Z.leb_le. exact H.
Qed.

Lemma P256_Verify_rejects_off_curve (x y : Z) (h : list byte) (r s : Z) :
  P256.IsOnCurve x y = false -> P256.Verify x y h r s = false.
Proof.
  intros H. unfold P256.Verify. rewrite H.
  destruct ((r <=? 0) || (s <=? 0)); reflexivity.
Qed.

(** ** wallet.go *)

Lemma ValidateAddress_nonempty (address : string) :
  ValidateAddress address = true <-> address <> ""%string.
Proof.
  unfold ValidateAddress. destruct address as [|c rest]; simpl.
  - split; [discriminate | congruence].
  - split; [discriminate | intros _; apply Z.ltb_lt; lia].
Qed.

(** C10, as amended: [ValidateAddress] returns true exactly for the
    non-empty strings; neither the length nor the hex encoding of the
    address is inspected, so every non-empty string is accepted, whatever
    it decodes to. *)
Theorem C10_validate_address_nonempty_only :
  (forall address, ValidateAddress address = true <-> address <> ""%string) /\
  (forall c rest, ValidateAddress (String c rest) = true).
Proof.
  split.
  - apply ValidateAddress_nonempty.
  - intros c rest. apply ValidateAddress_nonempty. discriminate.
Qed.

(** C10, counterexample: "zz" is accepted although it is neither hex nor
    of the length of an address; so is the two-digit hex string "ab". *)
Lemma C10_accepts_malformed :
  ValidateAddress "zz" = true /\ ~ well_formed_address "zz" /\
  ValidateAddress "ab" = true /\ ~ well_formed_address "ab".
Proof.
  repeat split; try reflexivity.
  - intros [_ (h & Hd & _)]. vm_compute in Hd. discriminate.
  - intros [_ (h & Hd & Hl)]. vm_compute in Hd. injection Hd as <-. discriminate.
Qed.

Section Properties.

Variable sha256 : list byte -> list byte.
Variable Serialize : Transaction -> list byte.
Variable Entropy : Type.
Variable ecdsa_Sign : Entropy -> PrivateKey -> list byte -> (string + Z * Z) * Entropy.
Variable ecdsa_Verify : Z -> Z -> list byte -> Z -> Z -> bool.
Variable BigIntToPrivateKey : list byte -> PrivateKey.
Variable NewUTXOTransaction :
  PrivateKey -> string -> Z -> Blockchain -> gmap string (list Z) -> list byte -> Z ->
  Entropy -> outcome (Transaction + string).

(** ** transaction.go: coinbase transactions *)

Lemma IsCoinbase_spec (tx : Transaction) :
  IsCoinbase tx = true <->
  exists i, Vin tx = [i] /\ Txid i = [] /\ InVout i = -1.
Proof.
  unfold IsCoinbase. destruct (Vin tx) as [|i [|j rest]].
  - split; [discriminate | intros (i & H & _); discriminate].
  - rewrite andb_true_iff, bool_decide_eq_true, Z.eqb_eq. split.
    + intros [Hlen Hv]. exists i. split; [reflexivity|]. split; [|exact Hv].
      destruct (Txid i); [reflexivity | discriminate].
    + intros (i' & Heq & Ht & Hv). injection Heq as <-. rewrite Ht. split; [reflexivity | exact Hv].
  - split; [discriminate | intros (i' & H & _); discriminate].
Qed.

Lemma NewCoinbaseTx_shape (to data : string) :
  exists id memo owner,
    NewCoinbaseTx sha256 Serialize to data
    = mkTransaction id [mkTxInput [] (-1) [] memo] [mkTxOutput 15000 owner]
    /\ owner = (if bool_decide (to = ""%string) then []
                else if snd (Hex.DecodeString to) then fst (Hex.DecodeString to)
                     else list_byte_of_string to).
Proof.
  unfold NewCoinbaseTx, SetID, set_ID. simpl.
  destruct (Hex.DecodeString to) as [decoded ok]. simpl.
  eexists _, _, _. split; reflexivity.
Qed.

(** The reward of a coinbase built for a hex address, such as the ones
    [GetAddress] returns, is paid to the bytes the address encodes. *)
Lemma NewCoinbaseTx_pays_hex (h : list byte) (data : string) :
  Vout (NewCoinbaseTx sha256 Serialize (Hex.EncodeToString h) data) = [mkTxOutput 15000 h].
Proof.
  destruct (NewCoinbaseTx_shape (Hex.EncodeToString h) data) as (id & memo & owner & Heq & Hown).
  rewrite Heq. simpl. rewrite Hown, Hex_decode_encode. simpl.
  case_bool_decide as Hempty; [|reflexivity].
  destruct h; [reflexivity | discriminate].
Qed.

(** C5: [NewCoinbaseTx] builds one input with an empty [Txid] and
    [Vout = -1] and one output of the constant 15000 paid to the bytes that
    [to] decodes to; [IsCoinbase] holds exactly for the transactions with
    one such input; [Verify] returns true for every coinbase transaction,
    whatever the referenced transactions are. *)
Theorem C5_coinbase (to data : string) :
  (exists id memo owner,
     NewCoinbaseTx sha256 Serialize to data
     = mkTransaction id [mkTxInput [] (-1) [] memo] [mkTxOutput 15000 owner]
     /\ (forall h, Hex.DecodeString to = (h, true) -> owner = h))
  /\ IsCoinbase (NewCoinbaseTx sha256 Serialize to data) = true
  /\ (forall tx, IsCoinbase tx = true <->
                 exists i, Vin tx = [i] /\ Txid i = [] /\ InVout i = -1)
  /\ (forall tx prevTXs, IsCoinbase tx = true ->
                         Verify sha256 Serialize ecdsa_Verify tx prevTXs = Done true).
Proof.
  destruct (NewCoinbaseTx_shape to data) as (id & memo & owner & Heq & Hown).
  split; [|split; [|split]].
  - exists id, memo, owner. split; [exact Heq|].
    intros h Hd. rewrite Hown, Hd. simpl.
    case_bool_decide as Hto; [|reflexivity].
    subst to. simpl in Hd. congruence.
  - rewrite Heq. reflexivity.
  - apply IsCoinbase_spec.
  - intros tx prevTXs Hcb. unfold Verify. rewrite Hcb. reflexivity.
Qed.

(** ** pow.go and block.go: mining *)

Lemma wrap64_succ (n : Z) : 0 <= n < int_max -> wrap64 (n + 1) = n + 1.
Proof.
  unfold wrap64, int_max. intros H.
  rewrite Z.mod_small by lia. lia.
Qed.

(** The first value of a decidable property below a value that has it. *)
Lemma first_below (P : Z -> bool) (k : nat) :
  (exists m, 0 <= m < Z.of_nat k /\ P m = true /\ forall j, 0 <= j < m -> P j = false)
  \/ (forall j, 0 <= j < Z.of_nat k -> P j = false).
Proof.
  induction k as [|k IH].
  - right. intros j Hj. lia.
  - destruct IH as [(m & Hm & HP & Hleast) | Hnone].
    + left. exists m. split; [lia|]. split; assumption.
    + destruct (P (Z.of_nat k)) eqn:HPk.
      * left. exists (Z.of_nat k). split; [lia|]. split; assumption.
      * right. intros j Hj.
        destruct (Z.eq_dec j (Z.of_nat k)) as [->|Hne]; [assumption|].
        apply Hnone. lia.
Qed.

Lemma first_nonce (P : Z -> bool) (n : Z) :
  0 <= n -> P n = true ->
  exists m, 0 <= m <= n /\ P m = true /\ forall j, 0 <= j < m -> P j = false.
Proof.
  intros Hn HP.
  destruct (first_below P (S (Z.to_nat n))) as [(m & Hm & HPm & Hleast) | Hnone].
  - exists m. split; [lia|]. split; assumption.
  - rewrite Hnone in HP by lia. discriminate.
Qed.

(** The loop of [Run] entered at [start] returns after [k] increments when
    [start + k] is the first nonce from [start] on that meets the target. *)
Lemma Run_from_first (pow : ProofOfWork) (k : nat) :
  forall start fuel,
    0 <= start -> start + Z.of_nat k <= int_max ->
    meets_target sha256 pow (start + Z.of_nat k) = true ->
    (forall m, start <= m < start + Z.of_nat k -> meets_target sha256 pow m = false) ->
    (k < fuel)%nat ->
    Run_from sha256 fuel pow start
    = Done (start + Z.of_nat k, sha256 (prepareData sha256 pow (start + Z.of_nat k))).
Proof.
  induction k as [|k IH]; intros start fuel Hs Hmax Hmeet Hnot Hfuel.
  - destruct fuel as [|fuel]; [lia|]. simpl.
    replace (start + Z.of_nat 0) with start in * by lia.
    rewrite Hmeet. reflexivity.
  - destruct fuel as [|fuel]; [lia|]. simpl.
    rewrite (Hnot start) by lia.
    rewrite wrap64_succ by (unfold int_max in *; lia).
    replace (start + Z.of_nat (S k)) with (start + 1 + Z.of_nat k) in * by lia.
    apply IH; try lia; try assumption.
    intros m Hm. apply Hnot. lia.
Qed.

Lemma NewBlock_Done (fuel : nat) (now : Z) (txs : list Transaction) (prevHash : list byte)
    (b : Block) :
  NewBlock sha256 fuel now txs prevHash = Done b ->
  exists nonce,
    Run sha256 fuel (NewProofOfWork (mkBlock now txs prevHash [] 0))
    = Done (nonce, Hash b)
    /\ b = mkBlock now txs prevHash (Hash b) nonce.
Proof.
  unfold NewBlock.
  destruct (Run sha256 fuel _) as [[nonce hash]| |] eqn:HR; simpl; try discriminate.
  intros [= <-]. exists nonce. split; reflexivity.
Qed.

Lemma Run_from_meets (pow : ProofOfWork) (fuel : nat) :
  forall start nonce hash,
    Run_from sha256 fuel pow start = Done (nonce, hash) ->
    meets_target sha256 pow nonce = true /\ hash = sha256 (prepareData sha256 pow nonce).
Proof.
  induction fuel as [|fuel IH]; intros start nonce hash; simpl; [discriminate|].
  destruct (meets_target sha256 pow start) eqn:Hm.
  - intros [= <- <-]. split; [assumption | reflexivity].
  - apply IH.
Qed.

(** [prepareData] and the target test read the previous hash, the
    transactions and the timestamp of the block, not its hash or nonce. *)
Lemma meets_target_block (now : Z) (txs : list Transaction) (prevHash h : list byte)
    (k nonce : Z) :
  meets_target sha256 (NewProofOfWork (mkBlock now txs prevHash h k)) nonce
  = meets_target sha256 (NewProofOfWork (mkBlock now txs prevHash [] 0)) nonce.
Proof. reflexivity. Qed.

Lemma NewBlock_Validate (fuel : nat) (now : Z) (txs : list Transaction)
    (prevHash : list byte) (b : Block) :
  NewBlock sha256 fuel now txs prevHash = Done b ->
  Validate sha256 (NewProofOfWork b) = true.
Proof.
  intros HN. destruct (NewBlock_Done _ _ _ _ _ HN) as (nonce & HR & Hb).
  apply Run_from_meets in HR as [Hmeet _].
  rewrite Hb. unfold Validate. simpl. rewrite meets_target_block. exact Hmeet.
Qed.

(** C4: when some nonce between 0 and the largest [int] gives a digest
    below the target, [Run] returns, once its loop is given more steps
    than that nonce, the least such nonce together with its digest: the
    SHA-256 of previous hash, transaction digest, timestamp, difficulty and
    nonce, read as a big-endian unsigned number and compared with the
    target by [<]. [NewBlock] then returns a block carrying that nonce, and
    every block returned by [NewBlock] passes [Validate]. *)
Theorem C4_run_least_nonce_and_validate (pow : ProofOfWork) (n : Z) :
  0 <= n <= int_max ->
  BigInt.SetBytes (sha256 (prepareData sha256 pow n)) < pow_target pow ->
  exists nonce,
    0 <= nonce <= n
    /\ prepareData sha256 pow nonce
       = PrevHash (block pow) ++ sha256 (concat (map ID (Transactions (block pow))))
           ++ IntToHex (Timestamp (block pow)) ++ IntToHex 20 ++ IntToHex nonce
    /\ BigInt.SetBytes (sha256 (prepareData sha256 pow nonce)) < pow_target pow
    /\ (forall m, 0 <= m < nonce ->
          ~ BigInt.SetBytes (sha256 (prepareData sha256 pow m)) < pow_target pow)
    /\ (forall fuel, (Z.to_nat nonce < fuel)%nat ->
          Run sha256 fuel pow = Done (nonce, sha256 (prepareData sha256 pow nonce)))
    /\ (forall fuel now txs prevHash,
          (Z.to_nat nonce < fuel)%nat ->
          pow = NewProofOfWork (mkBlock now txs prevHash [] 0) ->
          exists b, NewBlock sha256 fuel now txs prevHash = Done b
                    /\ Nonce b = nonce
                    /\ Hash b = sha256 (prepareData sha256 pow nonce)
                    /\ Validate sha256 (NewProofOfWork b) = true)
    /\ (forall fuel now txs prevHash b,
          NewBlock sha256 fuel now txs prevHash = Done b ->
          Validate sha256 (NewProofOfWork b) = true).
Proof.
  intros Hn Hlt.
  destruct (first_nonce (meets_target sha256 pow) n) as (nonce & Hrange & Hmeet & Hleast).
  { lia. }
  { unfold meets_target. apply Z.ltb_lt. exact Hlt. }
  assert (HRun : forall fuel, (Z.to_nat nonce < fuel)%nat ->
            Run sha256 fuel pow = Done (nonce, sha256 (prepareData sha256 pow nonce))).
  { intros fuel Hfuel. unfold Run.
    pose proof (Run_from_first pow (Z.to_nat nonce) 0 fuel) as H.
    rewrite Z2Nat.id in H by lia. simpl in H.
    apply H; try lia; assumption. }
  exists nonce.
  split; [lia|]. split; [reflexivity|]. split; [apply Z.ltb_lt; exact Hmeet|].
  split; [|split; [exact HRun|split]].
  - intros m Hm Hlt'. apply Z.ltb_lt in Hlt'.
    unfold meets_target in Hleast. rewrite (Hleast m Hm) in Hlt'. discriminate.
  - intros fuel now txs prevHash Hfuel ->.
    unfold NewBlock. rewrite (HRun fuel Hfuel). simpl.
    eexists. split; [reflexivity|]. simpl. split; [reflexivity|]. split; [reflexivity|].
    unfold Validate. simpl. rewrite meets_target_block. exact Hmeet.
  - intros fuel now txs prevHash b. apply NewBlock_Validate.
Qed.

(** ** utxo.go: what the reads depend on *)

Lemma run_calls_set (calls : list index_call) (st : index_state) :
  ix_set (run_calls calls st) = ix_set st.
Proof.
  revert st. induction calls as [|c calls IH]; intros st; simpl; [reflexivity|].
  unfold run_calls in IH. rewrite IH. destruct c; reflexivity.
Qed.

(** ** handlers.go: SendTransaction *)

Lemma select_outs_enough (pubKeyHash : list byte) (amount : Z) (txID : string)
    (outs : list TxOutput) :
  forall outIdx st, amount <= accumulated st ->
    select_outs pubKeyHash amount txID outIdx outs st = st.
Proof.
  induction outs as [|out rest IH]; intros outIdx st Hacc; simpl; [reflexivity|].
  replace (accumulated st <? amount) with false by (symmetry; apply Z.ltb_ge; lia).
  rewrite andb_false_r. apply IH. exact Hacc.
Qed.

Lemma select_entries_enough (pubKeyHash : list byte) (amount : Z)
    (entries : list (string * list TxOutput)) :
  forall st, amount <= accumulated st -> returned st = false ->
    select_entries pubKeyHash amount entries st = st.
Proof.
  induction entries as [|[txID outs] rest IH]; intros st Hacc Hret; simpl; [reflexivity|].
  rewrite select_outs_enough by exact Hacc. rewrite Hret. apply IH; assumption.
Qed.

(** A request for a non-positive amount selects nothing. *)
Lemma FindSpendableOutputs_nonpositive (ord : map_order) (bc : Blockchain)
    (pubKeyHash : option (list byte)) (amount : Z) :
  amount <= 0 ->
  FindSpendableOutputs ord (mkUTXOSet (Some bc)) pubKeyHash amount = Done (0, ∅).
Proof.
  intros Hle. unfold FindSpendableOutputs. simpl.
  rewrite select_entries_enough; [reflexivity | exact Hle | reflexivity].
Qed.

(** C6: a send request that reaches the funds lookup (non-empty [from]
    and [to], hex private key; the amount is positive as soon as it
    exceeds what was accumulated) and for which [FindSpendableOutputs]
    accumulates less than the amount is answered with "insufficient
    funds", status 400, and the server is returned as it was: nothing is
    mined, appended or written to the row store, whatever the fuel of the
    mining loop, and the chain keeps its length. A request that one of the
    earlier checks stops is answered with the message of the first of
    them that fails, with the same status and as little effect. *)
Theorem C6_insufficient_funds_no_mutation (env : Env) (rnd : Entropy) (s : Server)
    (req : txRequest) (acc : Z) (sel : gmap string (list Z)) :
  FindSpendableOutputs (ord env) (S_UTXO s)
    (Some (fst (Hex.DecodeString (From req)))) (Amount req) = Done (acc, sel) ->
  acc < Amount req ->
  (ValidateAddress (From req) = true -> ValidateAddress (To req) = true ->
   snd (Hex.DecodeString (PrivKey req)) = true ->
   SendTransaction sha256 Serialize Entropy ecdsa_Verify BigIntToPrivateKey
     NewUTXOTransaction env rnd s (Some req)
   = Done (mkHandled s (HttpError "insufficient funds" StatusBadRequest) []))
  /\ exists h,
       SendTransaction sha256 Serialize Entropy ecdsa_Verify BigIntToPrivateKey
         NewUTXOTransaction env rnd s (Some req) = Done h
       /\ server h = s
       /\ length (S_BC (server h)) = length (S_BC s)
       /\ db_calls h = []
       /\ reply h
          = HttpError
              (if negb (ValidateAddress (From req)) || negb (ValidateAddress (To req))
               then "invalid address"
               else if negb (snd (Hex.DecodeString (PrivKey req)))
                    then "invalid private key"
                    else "insufficient funds")
              StatusBadRequest.
Proof.
  intros Hfind Hlt.
  assert (Hpos : 0 < Amount req).
  { destruct (Z_lt_le_dec 0 (Amount req)) as [|Hle]; [assumption|].
    unfold S_UTXO in Hfind.
    rewrite (FindSpendableOutputs_nonpositive _ _ _ _ Hle) in Hfind.
    injection Hfind as <- _. lia. }
  unfold SendTransaction.
  destruct (negb (ValidateAddress (From req)) || negb (ValidateAddress (To req))) eqn:Haddr.
  { split.
    - intros HF HT _. rewrite HF, HT in Haddr. discriminate Haddr.
    - eexists. split; [reflexivity|]. cbn [server reply db_calls]. repeat split. }
  replace (Amount req <=? 0) with false by (symmetry; apply Z.leb_gt; exact Hpos).
  destruct (Hex.DecodeString (PrivKey req)) as [dBytes ok] eqn:Hkey.
  destruct ok; cbn [negb snd].
  - rewrite Hfind. cbn [mbind outcome_bind].
    replace (acc <? Amount req) with true by (symmetry; apply Z.ltb_lt; exact Hlt).
    split; [intros _ _ _; reflexivity|].
    eexists. split; [reflexivity|]. cbn [server reply db_calls]. repeat split.
  - split; [intros _ _ Hok; discriminate Hok|].
    eexists. split; [reflexivity|]. cbn [server reply db_calls]. repeat split.
Qed.

(** ** handlers.go: FundWallet *)

(** With a nonce that meets the target and enough fuel to reach it,
    [NewBlock] returns. *)
Lemma NewBlock_returns (fuel : nat) (now : Z) (txs : list Transaction)
    (prevHash : list byte) (n : Z) :
  0 <= n <= int_max ->
  meets_target sha256 (NewProofOfWork (mkBlock now txs prevHash [] 0)) n = true ->
  (Z.to_nat n < fuel)%nat ->
  exists hash nonce,
    NewBlock sha256 fuel now txs prevHash = Done (mkBlock now txs prevHash hash nonce).
Proof.
  intros Hn Hmeet Hfuel.
  set (pow := NewProofOfWork (mkBlock now txs prevHash [] 0)) in *.
  destruct (first_nonce (meets_target sha256 pow) n) as (nonce & Hrange & Hm & Hleast);
    [lia | assumption |].
  pose proof (Run_from_first pow (Z.to_nat nonce) 0 fuel) as H.
  rewrite Z2Nat.id in H by lia. simpl in H.
  unfold NewBlock. fold pow. unfold Run. rewrite H; try lia; try assumption.
  simpl. eexists _, _. reflexivity.
Qed.

(** C9: for a faucet request with a non-empty address and a positive
    amount, on a server whose chain has a tip, once the mining loop is
    given enough steps to reach a nonce that meets the target: the block
    appended holds the one coinbase transaction built from the address
    alone, whose single output is the constant 15000 paid to the bytes of
    the address; the response and the row passed to [SaveTransaction] both
    carry the amount of the request. *)
Theorem C9_faucet_mints_fixed_reward (env : Env) (s : Server) (req : fundWalletRequest)
    (tip : Block) (n : Z) :
  let cbTx := NewCoinbaseTx sha256 Serialize (fund_Address req) "admin_faucet_reward" in
  ValidateAddress (fund_Address req) = true ->
  0 < fund_Amount req ->
  last (S_BC s) = Some tip ->
  0 <= n <= int_max ->
  meets_target sha256
    (NewProofOfWork (mkBlock (now_block env) [cbTx] (Hash tip) [] 0)) n = true ->
  (Z.to_nat n < fuel env)%nat ->
  exists h newBlock,
    FundWallet sha256 Serialize env s (Some req) = Done h
    /\ S_BC (server h) = S_BC s ++ [newBlock]
    /\ Transactions newBlock = [cbTx]
    /\ (exists id memo,
          cbTx = mkTransaction id [mkTxInput [] (-1) [] memo]
                   [mkTxOutput 15000
                      (if snd (Hex.DecodeString (fund_Address req))
                       then fst (Hex.DecodeString (fund_Address req))
                       else list_byte_of_string (fund_Address req))])
    /\ reply h = JsonFund (mkFundWalletResponse (fund_Address req) (fund_Amount req)
                             (Hex.EncodeToString (Hash newBlock)))
    /\ (S_DB s = true ->
        In (SaveTransaction
              (mkTransactionRecord (Hex.EncodeToString (ID cbTx))
                 (Hex.EncodeToString (Hash newBlock)) "SYSTEM" (fund_Address req)
                 (fund_Amount req) (now_record env) "reward" cbTx))
           (db_calls h))
    /\ (S_DB s = false -> db_calls h = []).
Proof.
  intros cbTx Hvalid Hpos Htip Hn Hmeet Hfuel.
  apply ValidateAddress_nonempty in Hvalid as Hne.
  destruct (NewBlock_returns (fuel env) (now_block env) [cbTx] (Hash tip) n Hn Hmeet Hfuel)
    as (hash & nonce & HNB).
  unfold FundWallet. fold cbTx.
  rewrite bool_decide_eq_false_2 by exact Hne.
  replace (fund_Amount req <=? 0) with false by (symmetry; apply Z.leb_gt; exact Hpos).
  rewrite Hvalid. cbn [orb negb].
  unfold AddBlock. rewrite Htip, HNB. cbn [mbind outcome_bind mret outcome_ret].
  eexists _, _. split; [reflexivity|]. cbn [server reply db_calls S_BC S_DB Transactions Hash].
  split; [reflexivity|]. split; [reflexivity|]. split.
  - destruct (NewCoinbaseTx_shape (fund_Address req) "admin_faucet_reward")
      as (id & memo & owner & Heq & Hown).
    rewrite bool_decide_eq_false_2 in Hown by exact Hne.
    exists id, memo. unfold cbTx. rewrite Heq, Hown. reflexivity.
  - split; [reflexivity|]. split.
    + intros ->. apply in_or_app. right. apply in_or_app. left.
      unfold logged, transaction_row.
      destruct (db_result env _); simpl; left; reflexivity.
    + intros ->. reflexivity.
Qed.

(** ** transaction.go: Verify on arbitrary signature and key bytes *)

Lemma verify_loop_total (prevTXs : gmap string Transaction) (ins : list TxInput) :
  Forall (references_resolve prevTXs) ins ->
  forall inIdx txCopy,
    exists b, verify_loop sha256 Serialize ecdsa_Verify prevTXs inIdx ins txCopy = Done b.
Proof.
  induction 1 as [|vin rest (prevTx & out & Hprev & Hout) _ IH]; intros inIdx txCopy; simpl.
  - exists true. reflexivity.
  - rewrite Hprev. simpl. rewrite Hout.
    case_bool_decide; [exists false; reflexivity|].
    destruct (ecdsa_Verify _ _ _ _ _); simpl; [apply IH | exists false; reflexivity].
Qed.

(** An input whose check fails makes the loop return false, wherever it
    stands. *)
Lemma verify_loop_rejects (prevTXs : gmap string Transaction) (bad : TxInput -> Prop)
    (ins : list TxInput) :
  (forall vin x y h r s, bad vin -> PubKey vin <> [] ->
     r = BigInt.SetBytes (take (length (Signature vin) / 2) (Signature vin)) ->
     s = BigInt.SetBytes (drop (length (Signature vin) / 2) (Signature vin)) ->
     ecdsa_Verify x y h r s = false) ->
  Forall (references_resolve prevTXs) ins ->
  Exists bad ins ->
  forall inIdx txCopy,
    verify_loop sha256 Serialize ecdsa_Verify prevTXs inIdx ins txCopy = Done false.
Proof.
  intros Hbad Hrefs. induction Hrefs as [|vin rest (prevTx & out & Hprev & Hout) Hrest IH];
    intros Hex inIdx txCopy.
  - inversion Hex.
  - simpl. rewrite Hprev. simpl. rewrite Hout.
    case_bool_decide as Hkey; [reflexivity|].
    destruct (ecdsa_Verify _ _ _ _ _) eqn:Hv; simpl; [|reflexivity].
    apply Exists_cons in Hex as [Hhere | Hlater].
    + rewrite (Hbad vin) in Hv; [discriminate | exact Hhere | | reflexivity | reflexivity].
      intros Hnil. apply Hkey. rewrite Hnil. reflexivity.
    + apply IH. exact Hlater.
Qed.

Lemma verify_loop_empty_key (prevTXs : gmap string Transaction) (ins : list TxInput) :
  Forall (references_resolve prevTXs) ins ->
  Exists (fun vin => PubKey vin = []) ins ->
  forall inIdx txCopy,
    verify_loop sha256 Serialize ecdsa_Verify prevTXs inIdx ins txCopy = Done false.
Proof.
  apply verify_loop_rejects. intros vin x y h r s Hnil Hne. contradiction.
Qed.

(** C7, as amended: on a transaction that is not a coinbase and whose
    inputs all reference a present transaction and an output index in
    range, [Verify] returns a boolean for every content of the signature
    and public-key fields: it does not panic. It returns false when some
    input has an empty public key and, [ecdsa.Verify] rejecting a
    signature component that is not positive, when some input has an empty
    signature. Any other length is cut at half its length rounded down and
    the two parts are handed to [ecdsa.Verify], whose answer is the
    result: for a single input with a non-empty key, [Verify] is exactly
    that check. *)
Theorem C7_verify_total_on_malformed_bytes (tx : Transaction)
    (prevTXs : gmap string Transaction) :
  (forall x y h r s, r <= 0 \/ s <= 0 -> ecdsa_Verify x y h r s = false) ->
  IsCoinbase tx = false ->
  refs_in_range tx prevTXs ->
  (exists b, Verify sha256 Serialize ecdsa_Verify tx prevTXs = Done b)
  /\ ((exists vin, In vin (Vin tx) /\ PubKey vin = []) ->
      Verify sha256 Serialize ecdsa_Verify tx prevTXs = Done false)
  /\ ((exists vin, In vin (Vin tx) /\ Signature vin = []) ->
      Verify sha256 Serialize ecdsa_Verify tx prevTXs = Done false)
  /\ (forall vin prevTx out,
        Vin tx = [vin] -> PubKey vin <> [] ->
        prevTXs !! Hex.EncodeToString (Txid vin) = Some prevTx ->
        index (Vout prevTx) (InVout vin) = Some out ->
        Verify sha256 Serialize ecdsa_Verify tx prevTXs
        = Done (ecdsa_Verify
                  (BigInt.SetBytes (take (length (PubKey vin) / 2) (PubKey vin)))
                  (BigInt.SetBytes (drop (length (PubKey vin) / 2) (PubKey vin)))
                  (ID (digest_input sha256 Serialize 0 (PubKeyHash out) (TrimmedCopy tx)))
                  (BigInt.SetBytes (take (length (Signature vin) / 2) (Signature vin)))
                  (BigInt.SetBytes (drop (length (Signature vin) / 2) (Signature vin))))).
Proof.
  intros Hlib Hcb Hrefs. unfold Verify. rewrite Hcb.
  split; [apply verify_loop_total; exact Hrefs|].
  split; [|split].
  - intros (vin & Hin & Hnil). apply verify_loop_empty_key; [exact Hrefs|].
    apply Exists_exists. exists vin. split; [apply list_elem_of_In|]; assumption.
  - intros (vin & Hin & Hnil).
    apply (verify_loop_rejects prevTXs (fun vin => Signature vin = [])); [|exact Hrefs|].
    + intros v x y h r s Hs _ -> _. apply Hlib. left. rewrite Hs. unfold BigInt.SetBytes. simpl. lia.
    + apply Exists_exists. exists vin. split; [apply list_elem_of_In|]; assumption.
  - intros vin prevTx out HVin Hkey Hprev Hout. rewrite HVin. simpl.
    rewrite Hprev. simpl. rewrite Hout.
    rewrite bool_decide_eq_false_2 by (destruct (PubKey vin); [congruence | discriminate]).
    destruct (ecdsa_Verify _ _ _ _ _); reflexivity.
Qed.

(** ** transaction.go: Sign followed by Verify *)

(** The loop of [Sign] entered at [inIdx] writes inputs [inIdx] and later;
    it leaves the earlier ones and the number of inputs alone. *)
Lemma sign_loop_frame (privKey : PrivateKey) (prevTXs : gmap string Transaction)
    (ins : list TxInput) :
  forall inIdx tx txCopy rnd tx' rnd' err,
    sign_loop sha256 Serialize Entropy ecdsa_Sign privKey prevTXs inIdx ins tx txCopy rnd
    = Done (tx', rnd', err) ->
    length (Vin tx') = length (Vin tx)
    /\ forall j, (j < inIdx)%nat -> Vin tx' !! j = Vin tx !! j.
Proof.
  induction ins as [|vin rest IH]; intros inIdx tx txCopy rnd tx' rnd' err; simpl.
  - intros [= <- _ _]. split; [reflexivity | intros; reflexivity].
  - destruct (prevTXs !! _) as [prevTx|]; [|intros [= <- _ _]; split; [reflexivity | intros; reflexivity]].
    destruct (index _ _) as [out|]; [|discriminate].
    destruct (ecdsa_Sign _ _ _) as [[e|[r sg]] rnd1];
      [intros [= <- _ _]; split; [reflexivity | intros; reflexivity]|].
    intros Hloop. apply IH in Hloop as [Hlen Hframe]. simpl in Hlen, Hframe.
    rewrite !length_alter in Hlen. split; [exact Hlen|].
    intros j Hj. rewrite Hframe by lia.
    rewrite !list_lookup_alter_ne by lia. reflexivity.
Qed.

(** After a successful [Sign], the first input carries the two coordinates
    of the signer's public key, one after the other, and its reference
    resolves. *)
Lemma Sign_first_input (tx : Transaction) (privKey : PrivateKey)
    (prevTXs : gmap string Transaction) (rnd rnd' : Entropy) (tx' : Transaction)
    (vin : TxInput) (rest : list TxInput) :
  IsCoinbase tx = false ->
  Vin tx = vin :: rest ->
  Sign sha256 Serialize Entropy ecdsa_Sign tx privKey prevTXs rnd = Done (tx', rnd', None) ->
  references_resolve prevTXs vin
  /\ length (Vin tx') = length (Vin tx)
  /\ exists sig,
       Vin tx' !! 0%nat
       = Some (mkTxInput (Txid vin) (InVout vin) sig
                 (BigInt.Bytes (PubX privKey) ++ BigInt.Bytes (PubY privKey))).
Proof.
  intros Hcb HVin. unfold Sign. rewrite Hcb, HVin. simpl.
  destruct (prevTXs !! _) as [prevTx|] eqn:Hprev; [|discriminate].
  destruct (index _ _) as [out|] eqn:Hout; [|discriminate].
  destruct (ecdsa_Sign _ _ _) as [[e|[r sg]] rnd1]; [discriminate|].
  intros Hloop. apply sign_loop_frame in Hloop as [Hlen Hframe].
  simpl in Hlen, Hframe. rewrite !length_alter in Hlen.
  split; [exists prevTx, out; split; assumption|].
  split; [rewrite Hlen, HVin; reflexivity|].
  eexists. rewrite Hframe by lia. rewrite HVin. simpl. reflexivity.
Qed.

Lemma half_cut (a b : list byte) :
  cut_between a b ->
  take (length (a ++ b) / 2) (a ++ b) = a /\ drop (length (a ++ b) / 2) (a ++ b) = b.
Proof.
  intros Hcut. rewrite length_app.
  assert (Hhalf : ((length a + length b) / 2)%nat = length a).
  { destruct Hcut as [-> | ->].
    - replace (length a + length a)%nat with (length a * 2)%nat by lia.
      apply Nat.div_mul. lia.
    - replace (length a + S (length a))%nat with (length a * 2 + 1)%nat by lia.
      rewrite Nat.div_add_l by lia. simpl. lia. }
  rewrite Hhalf. split; [apply take_app_length | apply drop_app_length].
Qed.

(** When the cut falls between the two coordinates of the key and between
    the two components of the signature, [Verify] hands [ecdsa.Verify] the
    key, the digest and the signature that [Sign] used: for one input, the
    result of [Verify] after [Sign] is the answer of the library on its own
    signature. The stored key and signature may well have an odd length. *)
Lemma Sign_then_Verify_aligned (tx : Transaction) (vin : TxInput) (privKey : PrivateKey)
    (prevTXs : gmap string Transaction) (rnd rnd' : Entropy) (prevTx : Transaction)
    (out : TxOutput) (r s : Z) :
  let digest := ID (digest_input sha256 Serialize 0 (PubKeyHash out) (TrimmedCopy tx)) in
  IsCoinbase tx = false ->
  Vin tx = [vin] ->
  prevTXs !! Hex.EncodeToString (Txid vin) = Some prevTx ->
  index (Vout prevTx) (InVout vin) = Some out ->
  ecdsa_Sign rnd privKey digest = (inr (r, s), rnd') ->
  0 <= r -> 0 <= s -> 0 <= PubX privKey -> 0 < PubY privKey ->
  cut_between (BigInt.Bytes r) (BigInt.Bytes s) ->
  cut_between (BigInt.Bytes (PubX privKey)) (BigInt.Bytes (PubY privKey)) ->
  exists tx',
    Sign sha256 Serialize Entropy ecdsa_Sign tx privKey prevTXs rnd = Done (tx', rnd', None)
    /\ Verify sha256 Serialize ecdsa_Verify tx' prevTXs
       = Done (ecdsa_Verify (PubX privKey) (PubY privKey) digest r s).
Proof.
  intros digest Hcb HVin Hprev Hout HSign Hr Hs HX HY Hsig Hkey.
  destruct (half_cut _ _ Hsig) as [Hsig1 Hsig2]. destruct (half_cut _ _ Hkey) as [Hkey1 Hkey2].
  assert (Hpub : BigInt.Bytes (PubX privKey) ++ BigInt.Bytes (PubY privKey) <> []).
  { intros Hnil. apply app_eq_nil in Hnil as [_ Hnil].
    pose proof (SetBytes_Bytes (PubY privKey)) as Hback. rewrite Hnil in Hback.
    unfold BigInt.SetBytes in Hback. simpl in Hback. lia. }
  unfold Sign. rewrite Hcb, HVin. cbn [sign_loop]. rewrite Hprev, Hout.
  fold digest. rewrite HSign. cbn [sign_loop].
  eexists. split; [reflexivity|].
  unfold set_PubKey, set_Signature. cbn [Vin ID Vout]. rewrite HVin. cbn [alter list_alter].
  cbn [Txid InVout Signature PubKey].
  assert (Hcb' : forall id sig pub outs,
            IsCoinbase (mkTransaction id [mkTxInput (Txid vin) (InVout vin) sig pub] outs) = false).
  { intros. unfold IsCoinbase in *. rewrite HVin in Hcb. exact Hcb. }
  unfold Verify. rewrite Hcb'. cbn [Vin verify_loop Txid InVout Signature PubKey].
  rewrite Hprev. change (default zeroTransaction (Some prevTx)) with prevTx. rewrite Hout.
  rewrite bool_decide_eq_false_2
    by (intros Hlen; apply Hpub, nil_length_inv; exact Hlen).
  rewrite Hsig1, Hsig2, Hkey1, Hkey2, !SetBytes_Bytes.
  rewrite !Z.abs_eq by lia.
  replace (TrimmedCopy _) with (TrimmedCopy tx)
    by (unfold TrimmedCopy; cbn [Vin ID Vout map Txid InVout]; rewrite HVin; reflexivity).
  fold digest. destruct (ecdsa_Verify _ _ _ _ _); reflexivity.
Qed.

(** C3, at the failing keys: [Sign] stores [X.Bytes()] followed by
    [Y.Bytes()], and [Verify] cuts the stored key at half its length. For a
    key whose two coordinates do not take the same number of bytes the cut
    falls inside a coordinate; when the two numbers read back are not a
    point of the curve, as [ecdsa.Verify] requires of a public key, every
    transaction with at least one input that this key signs without error
    is rejected by [Verify] against the same referenced transactions. *)
Theorem C3_sign_then_verify_fails (tx : Transaction) (privKey : PrivateKey)
    (prevTXs : gmap string Transaction) (rnd rnd' : Entropy) (tx' : Transaction) :
  let pub := BigInt.Bytes (PubX privKey) ++ BigInt.Bytes (PubY privKey) in
  (forall x y h r s, P256.IsOnCurve x y = false -> ecdsa_Verify x y h r s = false) ->
  P256.IsOnCurve (BigInt.SetBytes (take (length pub / 2) pub))
                 (BigInt.SetBytes (drop (length pub / 2) pub)) = false ->
  IsCoinbase tx = false ->
  Vin tx <> [] ->
  Sign sha256 Serialize Entropy ecdsa_Sign tx privKey prevTXs rnd = Done (tx', rnd', None) ->
  Verify sha256 Serialize ecdsa_Verify tx' prevTXs = Done false.
Proof.
  intros pub Hlib Hoff Hcb Hne HSign.
  destruct (Vin tx) as [|vin rest] eqn:HVin; [congruence|].
  destruct (Sign_first_input tx privKey prevTXs rnd rnd' tx' vin rest Hcb HVin HSign)
    as ((prevTx & out & Hprev & Hout) & Hlen & sig & Hfirst).
  fold pub in Hfirst. rewrite HVin in Hlen.
  destruct (Vin tx') as [|vin' rest'] eqn:HVin'; [discriminate|].
  simpl in Hfirst. injection Hfirst as ->.
  assert (Hcb' : IsCoinbase tx' = false).
  { unfold IsCoinbase in *. rewrite HVin in Hcb. rewrite HVin'. simpl in Hlen.
    destruct rest' as [|? ?]; [|reflexivity].
    destruct rest as [|? ?]; [|discriminate]. exact Hcb. }
  unfold Verify. rewrite Hcb', HVin'. simpl.
  rewrite Hprev. simpl. rewrite Hout.
  case_bool_decide; [reflexivity|].
  rewrite Hlib by exact Hoff. reflexivity.
Qed.

(** ** blockchain.go: what the forward scan of FindUTXO keeps

    The scan only ever appends to the entries of its result. *)

Lemma extends_refl (m : gmap string (list TxOutput)) : extends m m.
Proof. intros k. exists []. rewrite app_nil_r. reflexivity. Qed.

Lemma extends_trans (m1 m2 m3 : gmap string (list TxOutput)) :
  extends m1 m2 -> extends m2 m3 -> extends m1 m3.
Proof.
  intros H12 H23 k. destruct (H12 k) as [a Ha]. destruct (H23 k) as [b Hb].
  exists (a ++ b). rewrite Hb, Ha, app_assoc. reflexivity.
Qed.

Lemma map_append_extends (k : string) (out : TxOutput) (m : gmap string (list TxOutput)) :
  extends m (map_append k out m).
Proof.
  intros k'. unfold map_append. destruct (decide (k = k')) as [->|Hne].
  - rewrite lookup_insert_eq. simpl. exists [out]. reflexivity.
  - rewrite lookup_insert_ne by exact Hne. exists []. rewrite app_nil_r. reflexivity.
Qed.

Lemma scan_outputs_extends (pubKeyHash : option (list byte)) (spentTXOs : gmap string (list Z))
    (txIDStr : string) (outs : list TxOutput) :
  forall outIdx UTXOs,
    extends UTXOs (scan_outputs pubKeyHash spentTXOs txIDStr outIdx outs UTXOs).
Proof.
  induction outs as [|out rest IH]; intros outIdx UTXOs; simpl.
  - apply extends_refl.
  - eapply extends_trans; [|apply IH].
    destruct (is_spent _ _ _); [apply extends_refl|].
    destruct (owner_matches _ _); [apply map_append_extends | apply extends_refl].
Qed.

Lemma scan_tx_extends (pubKeyHash : option (list byte)) (st : _ * _) (tx : Transaction) :
  extends (snd st) (snd (scan_tx pubKeyHash st tx)).
Proof. destruct st as [sp U]. simpl. apply scan_outputs_extends. Qed.

Lemma scan_block_extends (pubKeyHash : option (list byte)) (b : Block) (st : _ * _) :
  extends (snd st) (snd (scan_block pubKeyHash st b)).
Proof.
  unfold scan_block. revert st.
  induction (Transactions b) as [|tx txs IH]; intros st; simpl.
  - apply extends_refl.
  - eapply extends_trans; [apply scan_tx_extends | apply IH].
Qed.

(** Appending a block to the chain removes nothing from the result of
    [FindUTXO]: the outputs listed for the shorter chain are still listed,
    whatever the inputs of the new block reference. *)
Lemma FindUTXO_append_only (bc : Blockchain) (b : Block) (pubKeyHash : option (list byte)) :
  extends (FindUTXO bc pubKeyHash) (FindUTXO (bc ++ [b]) pubKeyHash).
Proof.
  unfold FindUTXO, scan_chain. rewrite fold_left_app. simpl.
  apply scan_block_extends.
Qed.

(** C1, at the failing input: on the two-block sample chain, the second
    block holds a transaction that is not a coinbase and whose input
    references output 0 of the genesis transaction; [FindUTXO], with and
    without an owner filter, still lists that output under the id of the
    genesis transaction. On every chain, appending a block leaves every
    output listed so far in the result. *)
Theorem C1_spent_output_still_listed :
  let a := Hex.EncodeToString (ID Sample.genesis_tx) in
  let reward := mkTxOutput 15000 (Demo.owner_of Sample.key7) in
  Sample.spent_chain = [Sample.genesis_block; Sample.spend_block]
  /\ Transactions Sample.genesis_block = [Sample.genesis_tx]
  /\ Vout Sample.genesis_tx = [reward]
  /\ Transactions Sample.spend_block = [Sample.spend_tx]
  /\ IsCoinbase Sample.spend_tx = false
  /\ (exists sig pub, Vin Sample.spend_tx = [mkTxInput (ID Sample.genesis_tx) 0 sig pub])
  /\ FindUTXO Sample.spent_chain None !! a = Some [reward]
  /\ FindUTXO Sample.spent_chain (Some (Demo.owner_of Sample.key7)) !! a = Some [reward]
  /\ (forall bc b pubKeyHash,
        extends (FindUTXO bc pubKeyHash) (FindUTXO (bc ++ [b]) pubKeyHash)).
Proof.
  intros a reward.
  split; [reflexivity|]. split; [reflexivity|].
  split; [by_evaluation|]. split; [reflexivity|].
  split; [by_evaluation|].
  split; [eexists _, _; vm_compute; reflexivity|].
  split; [by_evaluation|]. split; [by_evaluation|].
  apply FindUTXO_append_only.
Qed.

(** ** utxo.go: FindSpendableOutputs after a spend *)

Lemma fair_order_singleton (ord : map_order) (k : string) (outs : list TxOutput) :
  fair_order ord -> ord {[ k := outs ]} = [(k, outs)].
Proof.
  intros Hfair. specialize (Hfair {[ k := outs ]}).
  rewrite map_to_list_singleton in Hfair.
  apply Permutation_sym, Permutation_length_1_inv in Hfair. exact Hfair.
Qed.

(** C2, at the failing input: on the sample chain, whose second block
    spends output 0 of the genesis transaction, and after any sequence of
    [Update] and [Reindex] calls, [FindSpendableOutputs] for the owner of
    that output selects output 0 of the genesis transaction again, for
    every positive amount and every visiting order. *)
Theorem C2_spent_output_selected_again (calls : list index_call)
    (utxo : gmap string (list TxOutput)) (ord : map_order) (amount : Z) :
  fair_order ord ->
  0 < amount ->
  FindSpendableOutputs ord
    (ix_set (run_calls calls (mkIndexState (mkUTXOSet (Some Sample.spent_chain)) utxo)))
    (Some (Demo.owner_of Sample.key7)) amount
  = Done (15000, {[ Hex.EncodeToString (ID Sample.genesis_tx) := [0] ]}).
Proof.
  intros Hfair Hpos. rewrite run_calls_set. unfold FindSpendableOutputs. cbn [ix_set BC].
  assert (Hscan : FindUTXO Sample.spent_chain (Some (Demo.owner_of Sample.key7))
                  = {[ Hex.EncodeToString (ID Sample.genesis_tx)
                       := [mkTxOutput 15000 (Demo.owner_of Sample.key7)] ]}).
  { by_evaluation. }
  rewrite Hscan, (fair_order_singleton ord _ _ Hfair).
  cbn [select_entries select_outs default PubKeyHash Value accumulated unspentOuts].
  unfold bytes_eqb. rewrite bool_decide_eq_true_2 by reflexivity.
  replace (0 <? amount) with true by (symmetry; apply Z.ltb_lt; exact Hpos).
  cbn [andb]. change (wrap64 (0 + 15000)) with 15000.
  destruct (amount <=? 15000); by_evaluation.
Qed.

End Properties.

(** * The theorems at concrete inputs *)

(** C4 on the second block of the sample chain: nonce 4 meets the target,
    and so does nonce 1, the one [Run] returns. *)
Lemma C4_witness :
  let pow := NewProofOfWork
               (mkBlock 1700000060 [Sample.spend_tx] (Hash Sample.genesis_block) [] 0) in
  0 <= 4 <= int_max
  /\ BigInt.SetBytes (Demo.sha256 (prepareData Demo.sha256 pow 4)) < pow_target pow
  /\ meets_target Demo.sha256 pow 0 = false
  /\ Run Demo.sha256 2 pow = Done (1, Hash Sample.spend_block)
  /\ exists nonce,
       0 <= nonce <= 4
       /\ prepareData Demo.sha256 pow nonce
          = PrevHash (block pow) ++ Demo.sha256 (concat (map ID (Transactions (block pow))))
              ++ IntToHex (Timestamp (block pow)) ++ IntToHex 20 ++ IntToHex nonce
       /\ BigInt.SetBytes (Demo.sha256 (prepareData Demo.sha256 pow nonce)) < pow_target pow
       /\ (forall m, 0 <= m < nonce ->
             ~ BigInt.SetBytes (Demo.sha256 (prepareData Demo.sha256 pow m)) < pow_target pow)
       /\ (forall fuel, (Z.to_nat nonce < fuel)%nat ->
             Run Demo.sha256 fuel pow
             = Done (nonce, Demo.sha256 (prepareData Demo.sha256 pow nonce)))
       /\ (forall fuel now txs prevHash,
             (Z.to_nat nonce < fuel)%nat ->
             pow = NewProofOfWork (mkBlock now txs prevHash [] 0) ->
             exists b, NewBlock Demo.sha256 fuel now txs prevHash = Done b
                       /\ Nonce b = nonce
                       /\ Hash b = Demo.sha256 (prepareData Demo.sha256 pow nonce)
                       /\ Validate Demo.sha256 (NewProofOfWork b) = true)
       /\ (forall fuel now txs prevHash b,
             NewBlock Demo.sha256 fuel now txs prevHash = Done b ->
             Validate Demo.sha256 (NewProofOfWork b) = true).
Proof.
  intros pow.
  split; [unfold int_max; lia|].
  split; [apply Z.ltb_lt; by_evaluation|].
  split; [by_evaluation|]. split; [by_evaluation|].
  apply (C4_run_least_nonce_and_validate Demo.sha256 pow 4).
  - unfold int_max. lia.
  - apply Z.ltb_lt. by_evaluation.
Defined.

(** C5 on the genesis transaction of the sample chain. *)
Lemma C5_witness :
  IsCoinbase Sample.genesis_tx = true
  /\ Vout Sample.genesis_tx = [mkTxOutput 15000 (Demo.owner_of Sample.key7)]
  /\ Verify Demo.sha256 Demo.Serialize Demo.ecdsa_Verify Sample.genesis_tx ∅ = Done true.
Proof.
  destruct (C5_coinbase Demo.sha256 Demo.Serialize Demo.ecdsa_Verify
              (Demo.address_of Sample.key7) "Genesis Block")
    as (_ & Hcb & _ & Hverify).
  split; [exact Hcb|]. split; [by_evaluation|].
  apply Hverify. exact Hcb.
Defined.

(** C6 on the sample server: the holder of [key7] owns the reward of
    15000 and asks to send 15001. *)
Lemma C6_witness :
  let s := mkServer Sample.genesis_chain true in
  let env := mkEnv 0 1700000060 1700000061 map_to_list "127.0.0.1:4000" (fun _ => None) in
  let req := mkTxRequest (Demo.address_of Sample.key7) (Demo.address_of Sample.key552)
               15001 "07" in
  FindSpendableOutputs (ord env) (S_UTXO s)
    (Some (fst (Hex.DecodeString (From req)))) (Amount req)
  = Done (15000, {[ Hex.EncodeToString (ID Sample.genesis_tx) := [0] ]})
  /\ 15000 < Amount req
  /\ SendTransaction Demo.sha256 Demo.Serialize Demo.Entropy Demo.ecdsa_Verify
       Demo.BigIntToPrivateKey Demo.NewUTXOTransaction env [] s (Some req)
     = Done (mkHandled s (HttpError "insufficient funds" StatusBadRequest) []).
Proof.
  intros s env req.
  assert (Hfind : FindSpendableOutputs (ord env) (S_UTXO s)
                    (Some (fst (Hex.DecodeString (From req)))) (Amount req)
                  = Done (15000, {[ Hex.EncodeToString (ID Sample.genesis_tx) := [0] ]})).
  { by_evaluation. }
  assert (Hlt : 15000 < Amount req) by (cbn; lia).
  split; [exact Hfind|]. split; [exact Hlt|].
  destruct (C6_insufficient_funds_no_mutation Demo.sha256 Demo.Serialize Demo.Entropy
              Demo.ecdsa_Verify Demo.BigIntToPrivateKey Demo.NewUTXOTransaction
              env [] s req 15000 _ Hfind Hlt)
    as [Hreached _].
  apply Hreached; by_evaluation.
Defined.

(** C7 on a transfer of the sample reward whose input carries neither a
    signature nor a public key. *)
Lemma C7_witness :
  let tx := Sample.spend_of Sample.key7 in
  let prevTXs := Sample.refs_of Sample.key7 in
  IsCoinbase tx = false
  /\ refs_in_range tx prevTXs
  /\ Vin tx = [mkTxInput (ID Sample.genesis_tx) 0 [] []]
  /\ Verify Demo.sha256 Demo.Serialize Demo.ecdsa_Verify tx prevTXs = Done false.
Proof.
  intros tx prevTXs.
  assert (Hcb : IsCoinbase tx = false) by reflexivity.
  assert (Hrefs : refs_in_range tx prevTXs).
  { constructor; [|constructor].
    exists (Sample.reward_to Sample.key7), (mkTxOutput 15000 (Demo.owner_of Sample.key7)).
    split; by_evaluation. }
  split; [exact Hcb|]. split; [exact Hrefs|]. split; [reflexivity|].
  destruct (C7_verify_total_on_malformed_bytes Demo.sha256 Demo.Serialize Demo.ecdsa_Verify
              tx prevTXs P256_Verify_rejects_nonpositive Hcb Hrefs)
    as (_ & Hkey & _).
  apply Hkey. eexists. split; [left; reflexivity | reflexivity].
Defined.

(** C7, counterexample: the holder of [key552], whose first public
    coordinate takes 31 bytes, signs a transfer of a reward with the
    per-signature secret 379, whose [r] takes 31 bytes as well. The stored
    signature and the stored public key are both 63 bytes long, an odd
    length, and [Verify] returns true. *)
Lemma C7_odd_lengths_verify :
  exists tx sig pub,
    Sign Demo.sha256 Demo.Serialize Demo.Entropy Demo.ecdsa_Sign
      (Sample.spend_of Sample.key552) Sample.key552 (Sample.refs_of Sample.key552) [379]
    = Done (tx, [], None)
    /\ Vin tx = [mkTxInput (ID (Sample.reward_to Sample.key552)) 0 sig pub]
    /\ length sig = 63%nat
    /\ length pub = 63%nat
    /\ IsCoinbase tx = false
    /\ refs_in_range tx (Sample.refs_of Sample.key552)
    /\ Verify Demo.sha256 Demo.Serialize Demo.ecdsa_Verify tx (Sample.refs_of Sample.key552)
       = Done true.
Proof.
  eexists _, _, _.
  split; [vm_compute; reflexivity|].
  split; [reflexivity|]. split; [reflexivity|]. split; [reflexivity|].
  split; [reflexivity|]. split.
  - constructor; [|constructor].
    exists (Sample.reward_to Sample.key552), (mkTxOutput 15000 (Demo.owner_of Sample.key552)).
    split; by_evaluation.
  - by_evaluation.
Qed.

(** C3 at the key with scalar 43. Its public point is on the curve; the
    first coordinate takes 32 bytes and the second 31, so the stored key
    has 63 bytes and is cut after byte 31: the numbers read back are not a
    point of the curve. The holder signs a transfer of a reward paid to the
    address of this very key; [Sign] returns no error and [Verify] returns
    false. *)
Lemma C3_witness :
  let k := Sample.key43 in
  let pub := BigInt.Bytes (PubX k) ++ BigInt.Bytes (PubY k) in
  k = Demo.key_of_scalar 43
  /\ P256.IsOnCurve (PubX k) (PubY k) = true
  /\ length (BigInt.Bytes (PubX k)) = 32%nat
  /\ length (BigInt.Bytes (PubY k)) = 31%nat
  /\ P256.IsOnCurve (BigInt.SetBytes (take (length pub / 2) pub))
                    (BigInt.SetBytes (drop (length pub / 2) pub)) = false
  /\ Vout (Sample.reward_to k) = [mkTxOutput 15000 (Demo.sha256 pub)]
  /\ IsCoinbase (Sample.spend_of k) = false
  /\ refs_in_range (Sample.spend_of k) (Sample.refs_of k)
  /\ exists tx,
       Sign Demo.sha256 Demo.Serialize Demo.Entropy Demo.ecdsa_Sign
         (Sample.spend_of k) k (Sample.refs_of k) [1234567] = Done (tx, [], None)
       /\ Verify Demo.sha256 Demo.Serialize Demo.ecdsa_Verify tx (Sample.refs_of k)
          = Done false.
Proof.
  intros k pub.
  assert (Hoff : P256.IsOnCurve (BigInt.SetBytes (take (length pub / 2) pub))
                   (BigInt.SetBytes (drop (length pub / 2) pub)) = false)
    by by_evaluation.
  split; [by_evaluation|]. split; [by_evaluation|].
  split; [by_evaluation|]. split; [by_evaluation|].
  split; [exact Hoff|]. split; [by_evaluation|]. split; [reflexivity|].
  split.
  { constructor; [|constructor].
    exists (Sample.reward_to k), (mkTxOutput 15000 (Demo.owner_of k)).
    split; by_evaluation. }
  eexists. split; [vm_compute; reflexivity|].
  apply (C3_sign_then_verify_fails Demo.sha256 Demo.Serialize Demo.Entropy Demo.ecdsa_Sign
           Demo.ecdsa_Verify (Sample.spend_of k) k (Sample.refs_of k) [1234567] []).
  - exact P256_Verify_rejects_off_curve.
  - exact Hoff.
  - reflexivity.
  - discriminate.
  - by_evaluation.
Defined.

(** C9 on the sample server: the faucet is asked for 500 and mints
    15000. *)
Lemma C9_witness :
  let s := mkServer Sample.genesis_chain true in
  let env := mkEnv 8 1700000120 1700000121 map_to_list "127.0.0.1:4000" (fun _ => None) in
  let req := mkFundWalletRequest (Demo.address_of Sample.key552) 500 in
  let cbTx := NewCoinbaseTx Demo.sha256 Demo.Serialize (fund_Address req)
                "admin_faucet_reward" in
  ValidateAddress (fund_Address req) = true
  /\ 0 < fund_Amount req
  /\ last (S_BC s) = Some Sample.genesis_block
  /\ meets_target Demo.sha256
       (NewProofOfWork (mkBlock (now_block env) [cbTx] (Hash Sample.genesis_block) [] 0)) 1
     = true
  /\ exists h newBlock,
       FundWallet Demo.sha256 Demo.Serialize env s (Some req) = Done h
       /\ S_BC (server h) = S_BC s ++ [newBlock]
       /\ Transactions newBlock = [cbTx]
       /\ Vout cbTx = [mkTxOutput 15000 (Demo.owner_of Sample.key552)]
       /\ reply h = JsonFund (mkFundWalletResponse (fund_Address req) 500
                                (Hex.EncodeToString (Hash newBlock)))
       /\ In (SaveTransaction
                (mkTransactionRecord (Hex.EncodeToString (ID cbTx))
                   (Hex.EncodeToString (Hash newBlock)) "SYSTEM" (fund_Address req)
                   500 1700000121 "reward" cbTx))
             (db_calls h).
Proof.
  intros s env req cbTx.
  assert (Hvalid : ValidateAddress (fund_Address req) = true) by by_evaluation.
  assert (Hpos : 0 < fund_Amount req) by (cbn; lia).
  assert (Htip : last (S_BC s) = Some Sample.genesis_block) by reflexivity.
  assert (Hmeet : meets_target Demo.sha256
            (NewProofOfWork (mkBlock (now_block env) [cbTx] (Hash Sample.genesis_block) [] 0)) 1
          = true) by by_evaluation.
  split; [exact Hvalid|]. split; [exact Hpos|]. split; [exact Htip|]. split; [exact Hmeet|].
  destruct (C9_faucet_mints_fixed_reward Demo.sha256 Demo.Serialize env s req
              Sample.genesis_block 1 Hvalid Hpos Htip)
    as (h & newBlock & Hrun & Hchain & Htxs & _ & Hreply & Hrow & _).
  - unfold int_max. lia.
  - exact Hmeet.
  - cbn. lia.
  - exists h, newBlock.
    split; [exact Hrun|]. split; [exact Hchain|]. split; [exact Htxs|].
    split; [by_evaluation|]. split; [exact Hreply|].
    apply Hrow. reflexivity.
Defined.

(** C2 on the sample chain: the index is updated with the spending block
    and rebuilt, and one unit is asked for. *)
Lemma C2_witness :
  fair_order map_to_list
  /\ 0 < 1
  /\ FindSpendableOutputs map_to_list
       (ix_set (run_calls [CallUpdate Sample.spend_block; CallReindex map_to_list]
                  (mkIndexState (mkUTXOSet (Some Sample.spent_chain))
                     (Reindex map_to_list (mkUTXOSet (Some Sample.genesis_chain))))))
       (Some (Demo.owner_of Sample.key7)) 1
     = Done (15000, {[ Hex.EncodeToString (ID Sample.genesis_tx) := [0] ]}).
Proof.
  assert (Hfair : fair_order map_to_list) by (intros m; apply Permutation_refl).
  split; [exact Hfair|]. split; [lia|].
  apply C2_spent_output_selected_again; [exact Hfair | lia].
Defined.

(** The sample chain is what the constructors of the model build: the
    genesis chain of [NewBlockchain], the transfer signed by
    [SignTransaction], the second block mined by [AddBlock]. *)
Lemma sample_chain_built :
  NewBlockchain Demo.sha256 Demo.Serialize 8 1700000000 (Demo.address_of Sample.key7)
  = Done Sample.genesis_chain
  /\ SignTransaction Demo.sha256 Demo.Serialize Demo.Entropy Demo.ecdsa_Sign
       Sample.genesis_chain Sample.spend_unsigned Sample.key7 [1234567]
     = Done (Sample.spend_tx, [], None)
  /\ AddBlock Demo.sha256 8 1700000060 Sample.genesis_chain [Sample.spend_tx]
     = Done (Sample.spent_chain, Sample.spend_block).
Proof.
  split; [by_evaluation|]. split; by_evaluation.
Qed.

(** The sample transfer, signed with [key7] whose two coordinates take 32
    bytes each, passes [VerifyTransaction] on the sample chain. *)
Lemma sample_spend_verifies :
  length (BigInt.Bytes (PubX Sample.key7)) = 32%nat
  /\ length (BigInt.Bytes (PubY Sample.key7)) = 32%nat
  /\ VerifyTransaction Demo.sha256 Demo.Serialize Demo.ecdsa_Verify
       Sample.genesis_chain Sample.spend_tx = Done true.
Proof.
  split; [by_evaluation|]. split; by_evaluation.
Qed.

(** * Further properties of the code *)

(** ** encoding/hex and math/big *)

Lemma Hex_encode_inj (a b : list byte) :
  Hex.EncodeToString a = Hex.EncodeToString b -> a = b.
Proof.
  intros H. apply (f_equal Hex.DecodeString) in H.
  rewrite !Hex_decode_encode in H. congruence.
Qed.

Lemma SetBytes_fold (l : list byte) (acc : Z) :
  fold_left (fun a b => a * 256 + Z_of_byte b) l acc
  = acc * 256 ^ Z.of_nat (length l) + BigInt.SetBytes l.
Proof.
  unfold BigInt.SetBytes. revert acc. induction l as [|b l IH]; intros acc.
  - simpl. lia.
  - cbn [fold_left length]. rewrite IH, (IH (0 * 256 + Z_of_byte b)).
    rewrite Nat2Z.inj_succ, Z.pow_succ_r by lia. ring.
Qed.

Lemma SetBytes_app (a b : list byte) :
  BigInt.SetBytes (a ++ b)
  = BigInt.SetBytes a * 256 ^ Z.of_nat (length b) + BigInt.SetBytes b.
Proof.
  unfold BigInt.SetBytes at 1. rewrite fold_left_app.
  fold (BigInt.SetBytes a). apply SetBytes_fold.
Qed.

Lemma SetBytes_range (l : list byte) :
  0 <= BigInt.SetBytes l < 256 ^ Z.of_nat (length l).
Proof.
  induction l as [|b l IH] using rev_ind.
  - unfold BigInt.SetBytes. simpl. lia.
  - rewrite SetBytes_app, length_app. cbn [length].
    replace (Z.of_nat (length l + 1)) with (Z.succ (Z.of_nat (length l))) by lia.
    rewrite Z.pow_succ_r by lia.
    assert (Hb : BigInt.SetBytes [b] = Z_of_byte b) by (unfold BigInt.SetBytes; simpl; lia).
    rewrite Hb. pose proof (Z_of_byte_range b). change (256 ^ Z.of_nat 1) with 256. lia.
Qed.

(** ** pow.go: IntToHex *)

Lemma SetBytes_IntToHex (n : Z) : BigInt.SetBytes (IntToHex n) = n mod 2 ^ 64.
Proof.
  unfold IntToHex, BigInt.SetBytes.
  rewrite (SetBytes_digits (n mod 2 ^ 64) 8 0) by (apply Z.mod_pos_bound; lia).
  change (256 ^ Z.of_nat 8) with (2 ^ 64).
  rewrite Z.mod_mod by lia. lia.
Qed.

Lemma IntToHex_inj (n m : Z) :
  - 2 ^ 63 <= n <= int_max -> - 2 ^ 63 <= m <= int_max ->
  IntToHex n = IntToHex m -> n = m.
Proof.
  unfold int_max. intros Hn Hm H.
  apply (f_equal BigInt.SetBytes) in H.
  rewrite !SetBytes_IntToHex in H.
  pose proof (Z.div_mod n (2 ^ 64)) as Dn. pose proof (Z.div_mod m (2 ^ 64)) as Dm.
  change (2 ^ 64) with 18446744073709551616 in *.
  change (2 ^ 63) with 9223372036854775808 in *.
  lia.
Qed.

(** A digest of 32 bytes is below the target [1 << 236] exactly when its
    first twenty bits are zero. *)
Lemma below_target_iff (d : list byte) :
  length d = 32%nat ->
  (BigInt.SetBytes d <? target) = true
  <-> exists b2 rest, d = x00 :: x00 :: b2 :: rest /\ Z_of_byte b2 < 16.
Proof.
  intros Hlen.
  destruct d as [|b0 [|b1 [|b2 rest]]]; try discriminate.
  cbn [length] in Hlen. assert (Hrest : length rest = 29%nat) by lia.
  change (b0 :: b1 :: b2 :: rest) with ([b0; b1; b2] ++ rest).
  rewrite SetBytes_app, Hrest.
  assert (H3 : BigInt.SetBytes [b0; b1; b2]
               = (Z_of_byte b0 * 256 + Z_of_byte b1) * 256 + Z_of_byte b2)
    by (unfold BigInt.SetBytes; simpl; lia).
  rewrite H3. pose proof (SetBytes_range rest) as Hr. rewrite Hrest in Hr.
  pose proof (Z_of_byte_range b0). pose proof (Z_of_byte_range b1).
  pose proof (Z_of_byte_range b2).
  assert (Ht : target = 16 * 256 ^ Z.of_nat 29) by reflexivity.
  rewrite Ht, Z.ltb_lt.
  set (M := 256 ^ Z.of_nat 29) in *.
  assert (HM : 0 < M) by (subst M; lia).
  assert (Hz : forall b, Z_of_byte b = 0 -> b = x00)
    by (intros b; destruct b; cbv; congruence).
  split.
  - intros Hlt.
    assert (B : (Z_of_byte b0 * 256 + Z_of_byte b1) * 256 + Z_of_byte b2 < 16) by nia.
    assert (Z_of_byte b0 = 0) by lia. assert (Z_of_byte b1 = 0) by lia.
    exists b2, rest. rewrite (Hz b0), (Hz b1) by assumption. split; [reflexivity|lia].
  - intros (c2 & rest' & Heq & Hc). simpl in Heq. injection Heq as -> -> -> ->.
    change (Z_of_byte "000") with 0. nia.
Qed.

Section Further.

Variable sha256 : list byte -> list byte.
Variable Serialize : Transaction -> list byte.
Variable Entropy : Type.
Variable ecdsa_Sign : Entropy -> PrivateKey -> list byte -> (string + Z * Z) * Entropy.
Variable ecdsa_Verify : Z -> Z -> list byte -> Z -> Z -> bool.
Variable BigIntToPrivateKey : list byte -> PrivateKey.
Variable NewUTXOTransaction :
  PrivateKey -> string -> Z -> Blockchain -> gmap string (list Z) -> list byte -> Z ->
  Entropy -> outcome (Transaction + string).
Variable ScalarBaseMult : list byte -> Z * Z.
Variable rand_Int : Entropy -> Z -> (string + Z) * Entropy.
Variable base64_decode : string -> string + string.
Variable hex_error : string -> string.

(** ** pow.go: the data hashed and the target *)

(** X1. [IntToHex] writes exactly eight bytes, the big-endian digits of
    the argument taken modulo 2^64 (the two's complement of a negative
    [int64]), so that a non-negative [int64] is read back unchanged; and
    two nonces of the [int64] range give [prepareData] the same bytes only
    if they are equal: every step of the search hashes new data. *)
Theorem IntToHex_big_endian_int64 (n : Z) (pow : ProofOfWork) :
  length (IntToHex n) = 8%nat
  /\ BigInt.SetBytes (IntToHex n) = n mod 2 ^ 64
  /\ (0 <= n <= int_max -> BigInt.SetBytes (IntToHex n) = n)
  /\ forall m,
       - 2 ^ 63 <= n <= int_max -> - 2 ^ 63 <= m <= int_max ->
       prepareData sha256 pow n = prepareData sha256 pow m -> n = m.
Proof.
  split; [|split; [|split]].
  - unfold IntToHex. now rewrite length_map, length_rev, length_seq.
  - apply SetBytes_IntToHex.
  - unfold int_max. intros Hn. rewrite SetBytes_IntToHex. apply Z.mod_small.
    change (2 ^ 64) with 18446744073709551616.
    change (2 ^ 63) with 9223372036854775808 in *. lia.
  - intros m Hn Hm H. unfold prepareData in H.
    repeat apply app_inv_head in H.
    now apply IntToHex_inj.
Qed.

(** X2. With 32-byte digests, a nonce passes the test of [Run] and
    [Validate] exactly when the digest of the block data starts with
    twenty zero bits (two zero bytes and a third byte below 16). *)
Theorem meets_target_leading_zero_bits (b : Block) (nonce : Z) :
  (forall data, length (sha256 data) = 32%nat) ->
  meets_target sha256 (NewProofOfWork b) nonce = true
  <-> exists b2 rest,
        sha256 (prepareData sha256 (NewProofOfWork b) nonce) = x00 :: x00 :: b2 :: rest
        /\ Z_of_byte b2 < 16.
Proof.
  intros Hlen. unfold meets_target. cbn [pow_target NewProofOfWork].
  apply below_target_iff, Hlen.
Qed.

(** ** blockchain.go: FindTransaction *)

Lemma FindTransaction_spec (bc : Blockchain) (id : list byte) :
  match FindTransaction bc id with
  | inl tx =>
      ID tx = id
      /\ exists before after,
           chain_transactions bc = before ++ tx :: after
           /\ Forall (fun t => ID t <> id) before
  | inr err =>
      err = "transaction not found"%string
      /\ Forall (fun t => ID t <> id) (chain_transactions bc)
  end.
Proof.
  unfold FindTransaction, chain_transactions.
  induction (concat (map Transactions bc)) as [|t l IH]; cbn [find].
  - split; [reflexivity|constructor].
  - case_bool_decide as Heq.
    + split; [now apply Hex_encode_inj|].
      exists [], l. split; [reflexivity|constructor].
    + assert (Hne : ID t <> id) by (intros E; apply Heq; now rewrite E).
      destruct (find _ l) as [tx|].
      * destruct IH as (Hid & before & after & Hl & Hall).
        split; [exact Hid|]. exists (t :: before), after. split; [now rewrite Hl|].
        now constructor.
      * destruct IH as (_ & Hall). split; [reflexivity|now constructor].
Qed.

(** X3. [FindTransaction] returns the first transaction of the chain, in
    block and transaction order, whose ID is the requested one; it fails
    with "transaction not found" exactly when no transaction has it. *)
Theorem FindTransaction_first_match (bc : Blockchain) (id : list byte) :
  match FindTransaction bc id with
  | inl tx =>
      ID tx = id
      /\ exists before after,
           chain_transactions bc = before ++ tx :: after
           /\ Forall (fun t => ID t <> id) before
  | inr err =>
      err = "transaction not found"%string
      /\ Forall (fun t => ID t <> id) (chain_transactions bc)
  end.
Proof. apply FindTransaction_spec. Qed.

(** ** blockchain.go: the chain stays linked and mined *)

Lemma linked_from_app (prev : list byte) (bc : Blockchain) (nb : Block) :
  linked_from prev bc ->
  PrevHash nb = default prev (Hash <$> last bc) ->
  linked_from prev (bc ++ [nb]).
Proof.
  revert prev. induction bc as [|b bc IH]; intros prev Hl Hp.
  - simpl in *. auto.
  - destruct Hl as [Hb Hl]. split; [exact Hb|].
    apply IH; [exact Hl|]. rewrite Hp.
    destruct bc as [|b' bc']; [reflexivity|].
    change (last (b :: b' :: bc')) with (last (b' :: bc')).
    destruct (last (b' :: bc')) eqn:E; [reflexivity|].
    now apply last_None in E.
Qed.

(** X4. [AddBlock] on an empty chain dies on the index of the tip. On a
    chain with tip [tip], when some nonce meets the target and the loop is
    given fuel beyond it, [AddBlock] returns: the chain has grown by
    exactly one block at its end, holding the given transactions and the
    clock reading, naming the hash of [tip] and passing [Validate]; a chain
    that was linked, or whose blocks all passed [Validate], still is. *)
Theorem AddBlock_extends_chain (fuel : nat) (now : Z) (bc : Blockchain)
    (txs : list Transaction) (tip : Block) (n : Z) :
  AddBlock sha256 fuel now [] txs = Panic
  /\ (last bc = Some tip ->
      0 <= n <= int_max ->
      meets_target sha256 (NewProofOfWork (mkBlock now txs (Hash tip) [] 0)) n = true ->
      (Z.to_nat n < fuel)%nat ->
      exists nb,
        AddBlock sha256 fuel now bc txs = Done (bc ++ [nb], nb)
        /\ Transactions nb = txs /\ PrevHash nb = Hash tip /\ Timestamp nb = now
        /\ Validate sha256 (NewProofOfWork nb) = true
        /\ (linked bc -> linked (bc ++ [nb]))
        /\ (Forall (fun b => Validate sha256 (NewProofOfWork b) = true) bc ->
            Forall (fun b => Validate sha256 (NewProofOfWork b) = true) (bc ++ [nb]))).
Proof.
  split; [reflexivity|].
  intros Htip Hn Hmeets Hfuel.
  destruct (NewBlock_returns sha256 fuel now txs (Hash tip) n Hn Hmeets Hfuel)
    as (hash & nonce & Hnew).
  pose proof (NewBlock_Validate sha256 _ _ _ _ _ Hnew) as Hvalid.
  exists (mkBlock now txs (Hash tip) hash nonce).
  unfold AddBlock. rewrite Htip. cbn [mbind outcome_bind]. rewrite Hnew.
  split; [reflexivity|]. split; [reflexivity|]. split; [reflexivity|].
  split; [reflexivity|]. split; [exact Hvalid|]. split.
  - intros Hl. apply linked_from_app; [exact Hl|]. now rewrite Htip.
  - intros Hall. apply Forall_app. split; [exact Hall|]. constructor; [exact Hvalid|constructor].
Qed.

(** ** blockchain.go: references to transactions that are not in the chain *)

Lemma collect_prevTXs_missing (bc : Blockchain) (ins : list TxInput) (vin : TxInput) :
  In vin ins ->
  Forall (fun t => ID t <> Txid vin) (chain_transactions bc) ->
  forall prevTXs, collect_prevTXs bc ins prevTXs = inr "transaction not found"%string.
Proof.
  intros Hin Hmiss. induction ins as [|v ins IH]; [destruct Hin|].
  intros prevTXs. cbn [collect_prevTXs].
  pose proof (FindTransaction_spec bc (Txid v)) as Hf.
  destruct (FindTransaction bc (Txid v)) as [prevTx|err].
  - destruct Hin as [->|Hin]; [|now apply IH].
    destruct Hf as (Hid & before & after & Hsplit & _).
    rewrite Hsplit in Hmiss. apply Forall_app in Hmiss as [_ Hm].
    inversion Hm; subst. contradiction.
  - now destruct Hf as [-> _].
Qed.

(** ** pow.go: what Validate reads of a block *)

(** X5. [Validate] reads a block only through its previous hash, its
    timestamp, its nonce and the IDs of its transactions: the stored hash
    and the inputs and outputs of the transactions do not enter the data
    that is hashed, so a block stays valid when they are replaced. *)
Theorem Validate_binds_ids_only (b b' : Block) :
  PrevHash b = PrevHash b' ->
  Timestamp b = Timestamp b' ->
  Nonce b = Nonce b' ->
  map ID (Transactions b) = map ID (Transactions b') ->
  Validate sha256 (NewProofOfWork b) = Validate sha256 (NewProofOfWork b').
Proof.
  intros Hp Ht Hn Hids. unfold Validate, meets_target, prepareData, HashTransactions.
  cbn [block pow_target NewProofOfWork]. now rewrite Hp, Ht, Hn, Hids.
Qed.

Lemma collect_prevTXs_found (bc : Blockchain) (ins : list TxInput) :
  forall prevTXs m,
    (forall k tx, prevTXs !! k = Some tx ->
       exists id, k = Hex.EncodeToString id /\ FindTransaction bc id = inl tx) ->
    collect_prevTXs bc ins prevTXs = inl m ->
    (forall k tx, m !! k = Some tx ->
       exists id, k = Hex.EncodeToString id /\ FindTransaction bc id = inl tx)
    /\ (forall k, is_Some (prevTXs !! k) -> is_Some (m !! k))
    /\ forall vin, In vin ins -> is_Some (m !! Hex.EncodeToString (Txid vin)).
Proof.
  induction ins as [|v ins IH]; intros prevTXs m Hcons Hcol; cbn [collect_prevTXs] in Hcol.
  - injection Hcol as <-. split; [exact Hcons|]. split; [auto|]. intros vin [].
  - destruct (FindTransaction bc (Txid v)) as [prevTx|err] eqn:Hf; [|discriminate].
    apply IH in Hcol as (Hm & Hkeep & Hall).
    + split; [exact Hm|]. split.
      * intros k Hk. apply Hkeep.
        destruct (decide (k = Hex.EncodeToString (Txid v))) as [->|Hne].
        -- rewrite lookup_insert_eq. eauto.
        -- now rewrite lookup_insert_ne by congruence.
      * intros vin [<-|Hin]; [|now apply Hall].
        apply Hkeep. rewrite lookup_insert_eq. eauto.
    + intros k tx. destruct (decide (k = Hex.EncodeToString (Txid v))) as [->|Hne].
      * rewrite lookup_insert_eq. intros [= <-]. now exists (Txid v).
      * rewrite lookup_insert_ne by congruence. apply Hcons.
Qed.

(** The map collected by [SignTransaction] and [VerifyTransaction] holds,
    for every input, the transaction that [FindTransaction] returns for it. *)
Lemma collect_prevTXs_lookup (bc : Blockchain) (ins : list TxInput)
    (m : gmap string Transaction) (vin : TxInput) :
  collect_prevTXs bc ins ∅ = inl m -> In vin ins ->
  exists prevTx,
    FindTransaction bc (Txid vin) = inl prevTx
    /\ m !! Hex.EncodeToString (Txid vin) = Some prevTx.
Proof.
  intros Hcol Hin. apply collect_prevTXs_found in Hcol as (Hm & _ & Hall).
  - destruct (Hall vin Hin) as [prevTx Hl]. exists prevTx. split; [|exact Hl].
    destruct (Hm _ _ Hl) as (id & Hk & Hf). apply Hex_encode_inj in Hk. now subst.
  - intros k tx. rewrite lookup_empty. discriminate.
Qed.

Lemma collect_prevTXs_total (bc : Blockchain) (ins : list TxInput) :
  Forall (fun vin => exists prevTx, FindTransaction bc (Txid vin) = inl prevTx) ins ->
  forall prevTXs, exists m, collect_prevTXs bc ins prevTXs = inl m.
Proof.
  induction 1 as [|v ins [prevTx Hf] _ IH]; intros prevTXs; cbn [collect_prevTXs].
  - eauto.
  - rewrite Hf. apply IH.
Qed.

(** X6. A transaction with an input that names a transaction absent from
    the chain: [SignTransaction] returns the error "transaction not found"
    and leaves the transaction and the entropy untouched (a coinbase
    included: its empty reference is looked up like any other), and
    [VerifyTransaction] returns false for a non-coinbase. *)
Theorem missing_reference_rejected (bc : Blockchain) (tx : Transaction) (vin : TxInput)
    (privKey : PrivateKey) (rnd : Entropy) :
  In vin (Vin tx) ->
  Forall (fun t => ID t <> Txid vin) (chain_transactions bc) ->
  SignTransaction sha256 Serialize Entropy ecdsa_Sign bc tx privKey rnd
  = Done (tx, rnd, Some "transaction not found"%string)
  /\ (IsCoinbase tx = false ->
      VerifyTransaction sha256 Serialize ecdsa_Verify bc tx = Done false).
Proof.
  intros Hin Hmiss.
  pose proof (collect_prevTXs_missing bc (Vin tx) vin Hin Hmiss ∅) as Hcol.
  unfold SignTransaction, VerifyTransaction. rewrite Hcol.
  split; [reflexivity|]. now intros ->.
Qed.

(** ** transaction.go: what Verify checks *)

Lemma alter_PubKey_back (owner : list byte) (l : list TxInput) :
  Forall (fun v => PubKey v = []) l ->
  forall i,
    alter (fun v => mkTxInput (Txid v) (InVout v) (Signature v) []) i
      (alter (fun v => mkTxInput (Txid v) (InVout v) (Signature v) owner) i l) = l.
Proof.
  induction 1 as [|v l Hv _ IH]; intros [|i]; try reflexivity.
  - cbn. destruct v as [t o s p]. cbn in *. now subst.
  - cbn. f_equal. apply IH.
Qed.

Lemma TrimmedCopy_blank (tx : Transaction) :
  Forall (fun v => PubKey v = []) (Vin (TrimmedCopy tx)).
Proof. cbn. apply List.Forall_map. now apply Forall_true. Qed.

(** One round of either loop on a copy that has the inputs and outputs of
    the trimmed copy: the digest does not depend on the rounds before. *)
Lemma digest_input_trimmed (tx txCopy : Transaction) (inIdx : nat) (owner : list byte) :
  Vin txCopy = Vin (TrimmedCopy tx) -> Vout txCopy = Vout (TrimmedCopy tx) ->
  ID (digest_input sha256 Serialize inIdx owner txCopy)
  = input_digest sha256 Serialize tx inIdx owner
  /\ Vin (digest_input sha256 Serialize inIdx owner txCopy) = Vin (TrimmedCopy tx)
  /\ Vout (digest_input sha256 Serialize inIdx owner txCopy) = Vout (TrimmedCopy tx).
Proof.
  intros HVin HVout. unfold digest_input, input_digest, Transaction_Hash, set_ID, set_PubKey.
  cbn [ID Vin Vout]. rewrite HVin, HVout. split; [reflexivity|]. split; [|reflexivity].
  apply alter_PubKey_back, TrimmedCopy_blank.
Qed.

Lemma verify_loop_accepts (tx : Transaction) (prevTXs : gmap string Transaction)
    (ins : list TxInput) :
  forall inIdx txCopy,
    Vin txCopy = Vin (TrimmedCopy tx) -> Vout txCopy = Vout (TrimmedCopy tx) ->
    verify_loop sha256 Serialize ecdsa_Verify prevTXs inIdx ins txCopy = Done true
    <-> forall j vin, ins !! j = Some vin ->
          exists out,
            index (Vout (default zeroTransaction (prevTXs !! Hex.EncodeToString (Txid vin))))
              (InVout vin) = Some out
            /\ signature_accepted sha256 Serialize ecdsa_Verify tx (inIdx + j) vin out.
Proof.
  unfold signature_accepted.
  induction ins as [|v ins IH]; intros inIdx txCopy HVin HVout.
  - cbn. split; [|reflexivity]. intros _ j vin. now rewrite lookup_nil.
  - cbn [verify_loop].
    destruct (index _ (InVout v)) as [out|] eqn:Hidx.
    2:{ split; [discriminate|]. intros H. destruct (H 0%nat v eq_refl) as (out & Ho & _).
        rewrite Hidx in Ho. discriminate. }
    destruct (digest_input_trimmed tx txCopy inIdx (PubKeyHash out) HVin HVout)
      as (Hd & HVin' & HVout').
    case_bool_decide as Hkey.
    { split; [discriminate|]. intros H. destruct (H 0%nat v eq_refl) as (out' & _ & Hk & _).
      exfalso. apply Hk. now apply nil_length_inv. }
    rewrite Hd.
    destruct (ecdsa_Verify _ _ _ _ _) eqn:Hv; cbn [negb].
    2:{ split; [discriminate|]. intros H. destruct (H 0%nat v eq_refl) as (out' & Ho & _ & Hv').
        rewrite Hidx in Ho. injection Ho as <-. rewrite Nat.add_0_r in Hv'. congruence. }
    rewrite (IH (S inIdx) _ HVin' HVout'). split.
    + intros H [|j] vin Hj.
      * injection Hj as <-. exists out. split; [exact Hidx|]. split.
        -- intros E. apply Hkey. now rewrite E.
        -- now rewrite Nat.add_0_r.
      * replace (inIdx + S j)%nat with (S inIdx + j)%nat by lia. now apply H.
    + intros H j vin Hj. replace (S inIdx + j)%nat with (inIdx + S j)%nat by lia.
      now apply H.
Qed.

(** X7. [VerifyTransaction] returns true exactly for a coinbase, or for a
    transaction each of whose inputs names a transaction of the chain and
    an output index within it, carries a non-empty key, and whose key and
    signature halves pass [ecdsa.Verify] on the digest of the trimmed copy
    with the owner of that output in the input's [PubKey]. Nothing else
    is checked: not the ID, not the values, not that the key hashes to the
    owner of the output. *)
Theorem VerifyTransaction_accepts_iff (bc : Blockchain) (tx : Transaction) :
  VerifyTransaction sha256 Serialize ecdsa_Verify bc tx = Done true
  <-> IsCoinbase tx = true
      \/ forall i vin, Vin tx !! i = Some vin ->
           exists prevTx out,
             FindTransaction bc (Txid vin) = inl prevTx
             /\ index (Vout prevTx) (InVout vin) = Some out
             /\ signature_accepted sha256 Serialize ecdsa_Verify tx i vin out.
Proof.
  unfold VerifyTransaction, Verify.
  destruct (IsCoinbase tx) eqn:Hcb; [split; auto|].
  destruct (collect_prevTXs bc (Vin tx) ∅) as [m|err] eqn:Hcol.
  - rewrite (verify_loop_accepts tx m (Vin tx) 0 (TrimmedCopy tx) eq_refl eq_refl).
    split.
    + intros H. right. intros i vin Hi.
      destruct (H i vin Hi) as (out & Hout & Hacc).
      assert (Hin : In vin (Vin tx))
        by (apply list_elem_of_In; eapply list_elem_of_lookup_2; exact Hi).
      destruct (collect_prevTXs_lookup bc _ m vin Hcol Hin) as (prevTx & Hf & Hm).
      rewrite Hm in Hout. exists prevTx, out. auto.
    + intros [Hc|H]; [discriminate|]. intros j vin Hj.
      destruct (H j vin Hj) as (prevTx & out & Hf & Hout & Hacc).
      assert (Hin : In vin (Vin tx))
        by (apply list_elem_of_In; eapply list_elem_of_lookup_2; exact Hj).
      destruct (collect_prevTXs_lookup bc _ m vin Hcol Hin) as (prevTx' & Hf' & Hm).
      rewrite Hm. assert (prevTx' = prevTx) by congruence. subst. exists out. auto.
  - split; [discriminate|]. intros [Hc|H]; [discriminate|]. exfalso.
    destruct (collect_prevTXs_total bc (Vin tx)) with (prevTXs := (∅ : gmap string Transaction))
      as [m Hm]; [|congruence].
    apply Forall_forall. intros vin Hin.
    apply list_elem_of_lookup_1 in Hin as [i Hi].
    destruct (H i vin Hi) as (prevTx & _ & Hf & _). eauto.
Qed.

(** X8. The result of [Verify] and of [VerifyTransaction] does not depend
    on the ID of the transaction: the ID is blanked before every digest is
    taken, so a signed transaction verifies the same under any other ID. *)
Theorem Verify_ignores_ID (tx : Transaction) (id : list byte)
    (prevTXs : gmap string Transaction) (bc : Blockchain) :
  Verify sha256 Serialize ecdsa_Verify (set_ID id tx) prevTXs
  = Verify sha256 Serialize ecdsa_Verify tx prevTXs
  /\ VerifyTransaction sha256 Serialize ecdsa_Verify bc (set_ID id tx)
     = VerifyTransaction sha256 Serialize ecdsa_Verify bc tx.
Proof.
  assert (H : forall prev, Verify sha256 Serialize ecdsa_Verify (set_ID id tx) prev
                           = Verify sha256 Serialize ecdsa_Verify tx prev).
  { intros prev. unfold Verify.
    change (IsCoinbase (set_ID id tx)) with (IsCoinbase tx).
    change (Vin (set_ID id tx)) with (Vin tx).
    destruct (IsCoinbase tx); [reflexivity|].
    destruct (Vin tx) as [|v ins]; reflexivity. }
  split; [apply H|].
  unfold VerifyTransaction.
  change (IsCoinbase (set_ID id tx)) with (IsCoinbase tx).
  change (Vin (set_ID id tx)) with (Vin tx).
  destruct (IsCoinbase tx); [reflexivity|].
  destruct (collect_prevTXs bc (Vin tx) ∅); [apply H|reflexivity].
Qed.

(** X9. [Verify] never compares the stored key with the owner of the
    output being spent. A single-input transaction that spends an output,
    whoever owns it, signed with any key whose signature the library
    accepts (and whose two halves are cut where [Verify] cuts them), is
    signed without error and verifies. *)
Theorem Verify_accepts_foreign_key (tx : Transaction) (vin : TxInput) (privKey : PrivateKey)
    (prevTXs : gmap string Transaction) (rnd rnd' : Entropy) (prevTx : Transaction)
    (out : TxOutput) (r s : Z) :
  let digest := input_digest sha256 Serialize tx 0 (PubKeyHash out) in
  IsCoinbase tx = false ->
  Vin tx = [vin] ->
  prevTXs !! Hex.EncodeToString (Txid vin) = Some prevTx ->
  index (Vout prevTx) (InVout vin) = Some out ->
  ecdsa_Sign rnd privKey digest = (inr (r, s), rnd') ->
  ecdsa_Verify (PubX privKey) (PubY privKey) digest r s = true ->
  0 <= r -> 0 <= s -> 0 <= PubX privKey -> 0 < PubY privKey ->
  cut_between (BigInt.Bytes r) (BigInt.Bytes s) ->
  cut_between (BigInt.Bytes (PubX privKey)) (BigInt.Bytes (PubY privKey)) ->
  exists tx',
    Sign sha256 Serialize Entropy ecdsa_Sign tx privKey prevTXs rnd = Done (tx', rnd', None)
    /\ Verify sha256 Serialize ecdsa_Verify tx' prevTXs = Done true.
Proof.
  intros digest Hcb HVin Hprev Hout Hsign Hverify Hr Hs Hx Hy Hcut Hcutk.
  destruct (Sign_then_Verify_aligned sha256 Serialize Entropy ecdsa_Sign ecdsa_Verify
              tx vin privKey prevTXs rnd rnd' prevTx out r s Hcb HVin Hprev Hout Hsign
              Hr Hs Hx Hy Hcut Hcutk) as (tx' & HS & HV).
  exists tx'. split; [exact HS|]. rewrite HV. f_equal. exact Hverify.
Qed.

(** ** transaction.go: what Sign changes *)

Lemma map_alter_same {A B} (g : A -> B) (f : A -> A) (l : list A) (i : nat) :
  (forall x, g (f x) = g x) -> map g (alter f i l) = map g l.
Proof.
  intros H. revert i. induction l as [|x l IH]; intros [|i]; cbn; try reflexivity.
  - now rewrite H.
  - f_equal. apply IH.
Qed.

Lemma sign_loop_keeps (privKey : PrivateKey) (prevTXs : gmap string Transaction)
    (ins : list TxInput) :
  forall inIdx tx txCopy rnd tx' rnd' err,
    sign_loop sha256 Serialize Entropy ecdsa_Sign privKey prevTXs inIdx ins tx txCopy rnd
    = Done (tx', rnd', err) ->
    ID tx' = ID tx /\ Vout tx' = Vout tx /\ TrimmedCopy tx' = TrimmedCopy tx.
Proof.
  induction ins as [|v ins IH]; intros inIdx tx txCopy rnd tx' rnd' err H; cbn [sign_loop] in H.
  - injection H as <- _ _. auto.
  - destruct (prevTXs !! _) as [prevTx|]; [|injection H as <- _ _; auto].
    destruct (index _ _) as [out|]; [|discriminate].
    destruct (ecdsa_Sign _ _ _) as [[e|[r s]] rnd1]; [injection H as <- _ _; auto|].
    apply IH in H as (HID & HVout & HT).
    split; [exact HID|]. split; [exact HVout|]. rewrite HT.
    unfold TrimmedCopy, set_PubKey, set_Signature. cbn [ID Vin Vout].
    f_equal. now rewrite !map_alter_same.
Qed.

Lemma sign_loop_signed (tx0 : Transaction) (privKey : PrivateKey)
    (prevTXs : gmap string Transaction) (ins : list TxInput) :
  forall inIdx tx txCopy rnd tx' rnd',
    Vin txCopy = Vin (TrimmedCopy tx0) -> Vout txCopy = Vout (TrimmedCopy tx0) ->
    drop inIdx (Vin tx) = ins ->
    sign_loop sha256 Serialize Entropy ecdsa_Sign privKey prevTXs inIdx ins tx txCopy rnd
    = Done (tx', rnd', None) ->
    forall j vin, ins !! j = Some vin ->
      exists prevTx out rnd1 rnd2 r s,
        prevTXs !! Hex.EncodeToString (Txid vin) = Some prevTx
        /\ index (Vout prevTx) (InVout vin) = Some out
        /\ ecdsa_Sign rnd1 privKey (input_digest sha256 Serialize tx0 (inIdx + j) (PubKeyHash out))
           = (inr (r, s), rnd2)
        /\ Vin tx' !! (inIdx + j)%nat
           = Some (mkTxInput (Txid vin) (InVout vin) (BigInt.Bytes r ++ BigInt.Bytes s)
                     (BigInt.Bytes (PubX privKey) ++ BigInt.Bytes (PubY privKey))).
Proof.
  induction ins as [|v ins IH]; intros inIdx tx txCopy rnd tx' rnd' HVin HVout Hdrop H j vin Hj.
  - now rewrite lookup_nil in Hj.
  - cbn [sign_loop] in H.
    destruct (prevTXs !! _) as [prevTx|] eqn:Hprev; [|discriminate].
    destruct (index _ _) as [out|] eqn:Hidx; [|discriminate].
    destruct (digest_input_trimmed tx0 txCopy inIdx (PubKeyHash out) HVin HVout)
      as (Hd & HVin' & HVout').
    rewrite Hd in H.
    destruct (ecdsa_Sign _ _ _) as [[e|[r s]] rnd1] eqn:Hsign; [discriminate|].
    assert (Hat : Vin tx !! inIdx = Some v).
    { pose proof (lookup_drop (Vin tx) inIdx 0) as Hl.
      rewrite Hdrop, Nat.add_0_r in Hl. now rewrite <- Hl. }
    destruct j as [|j].
    + injection Hj as <-. exists prevTx, out, rnd, rnd1, r, s.
      rewrite Nat.add_0_r. split; [exact Hprev|]. split; [exact Hidx|]. split; [exact Hsign|].
      destruct (sign_loop_frame sha256 Serialize Entropy ecdsa_Sign _ _ _ _ _ _ _ _ _ _ H)
        as [_ Hframe].
      rewrite (Hframe inIdx) by lia.
      unfold set_PubKey, set_Signature. cbn [Vin].
      rewrite !list_lookup_alter_eq, Hat. reflexivity.
    + replace (inIdx + S j)%nat with (S inIdx + j)%nat by lia.
      eapply (IH (S inIdx)); [exact HVin'|exact HVout'| |exact H|exact Hj].
      unfold set_PubKey, set_Signature. cbn [Vin].
      rewrite !drop_alter_lt by lia.
      replace (S inIdx) with (inIdx + 1)%nat by lia.
      rewrite <- drop_drop, Hdrop. reflexivity.
Qed.

Lemma sign_loop_returns (privKey : PrivateKey) (prevTXs : gmap string Transaction)
    (ins : list TxInput) :
  Forall (references_resolve prevTXs) ins ->
  forall inIdx tx txCopy rnd,
    exists res,
      sign_loop sha256 Serialize Entropy ecdsa_Sign privKey prevTXs inIdx ins tx txCopy rnd
      = Done res.
Proof.
  induction 1 as [|v ins (prevTx & out & Hprev & Hidx) _ IH]; intros inIdx tx txCopy rnd;
    cbn [sign_loop].
  - eauto.
  - rewrite Hprev, Hidx. destruct (ecdsa_Sign _ _ _) as [[e|[r s]] rnd1]; eauto.
Qed.

(** X10. [Sign] changes nothing but the [Signature] and [PubKey] of the
    inputs: the ID (which is not recomputed), the outputs, the references
    of the inputs and their number stay, so the trimmed copy is the same
    before and after. When it returns no error for a non-coinbase, every
    input holds the key bytes of the signer and the bytes of a signature
    that the library made, for the signer's key, of exactly the digest
    that [Verify] checks for that input. It returns whenever every input
    resolves in the map it is given. *)
Theorem Sign_signs_every_input (tx : Transaction) (privKey : PrivateKey)
    (prevTXs : gmap string Transaction) (rnd : Entropy) :
  (refs_in_range tx prevTXs ->
   exists res, Sign sha256 Serialize Entropy ecdsa_Sign tx privKey prevTXs rnd = Done res)
  /\ forall tx' rnd' err,
       Sign sha256 Serialize Entropy ecdsa_Sign tx privKey prevTXs rnd = Done (tx', rnd', err) ->
       ID tx' = ID tx /\ Vout tx' = Vout tx /\ TrimmedCopy tx' = TrimmedCopy tx
       /\ (err = None -> IsCoinbase tx = false ->
           forall i vin, Vin tx !! i = Some vin ->
             exists prevTx out rnd1 rnd2 r s,
               prevTXs !! Hex.EncodeToString (Txid vin) = Some prevTx
               /\ index (Vout prevTx) (InVout vin) = Some out
               /\ ecdsa_Sign rnd1 privKey
                    (input_digest sha256 Serialize tx i (PubKeyHash out))
                  = (inr (r, s), rnd2)
               /\ Vin tx' !! i
                  = Some (mkTxInput (Txid vin) (InVout vin)
                            (BigInt.Bytes r ++ BigInt.Bytes s)
                            (BigInt.Bytes (PubX privKey) ++ BigInt.Bytes (PubY privKey)))).
Proof.
  unfold Sign. split.
  - intros Hrefs. destruct (IsCoinbase tx); [eauto|]. now apply sign_loop_returns.
  - intros tx' rnd' err H. destruct (IsCoinbase tx) eqn:Hcb.
    + injection H as <- _ _. split; [reflexivity|]. split; [reflexivity|].
      split; [reflexivity|]. discriminate.
    + destruct (sign_loop_keeps _ _ _ _ _ _ _ _ _ _ H) as (HID & HVout & HT).
      split; [exact HID|]. split; [exact HVout|]. split; [exact HT|].
      intros -> _ i vin Hi.
      exact (sign_loop_signed tx privKey prevTXs (Vin tx) 0 tx (TrimmedCopy tx) rnd tx' rnd'
               eq_refl eq_refl eq_refl H i vin Hi).
Qed.

(** ** blockchain.go: what FindUTXO lists *)

Lemma fold_left_concat {A B} (f : A -> B -> A) (ls : list (list B)) (a : A) :
  fold_left (fun a l => fold_left f l a) ls a = fold_left f (concat ls) a.
Proof.
  revert a. induction ls as [|l ls IH]; intros a; [reflexivity|].
  cbn [fold_left concat]. now rewrite fold_left_app, IH.
Qed.

Lemma scan_chain_transactions (pubKeyHash : option (list byte)) (bc : Blockchain)
    (st : gmap string (list Z) * gmap string (list TxOutput)) :
  scan_chain pubKeyHash bc st = fold_left (scan_tx pubKeyHash) (chain_transactions bc) st.
Proof.
  unfold scan_chain, scan_block, chain_transactions.
  rewrite <- fold_left_concat. revert st.
  induction bc as [|b bc IH]; intros st; [reflexivity|]. cbn [fold_left map]. apply IH.
Qed.

Lemma is_spent_map_append (sp : gmap string (list Z)) (k' : string) (v : Z)
    (k : string) (i : Z) :
  is_spent (map_append k' v sp) k i
  = is_spent sp k i || (bool_decide (k' = k) && (v =? i)).
Proof.
  unfold is_spent, map_append. case_bool_decide as Hk.
  - subst k'. rewrite lookup_insert_eq, existsb_app. cbn [existsb andb].
    rewrite orb_false_r. now destruct (sp !! k).
  - rewrite lookup_insert_ne by exact Hk. cbn [andb]. now rewrite orb_false_r.
Qed.

Lemma is_spent_record_inputs (ins : list TxInput) (sp : gmap string (list Z))
    (k : string) (i : Z) :
  is_spent (record_inputs ins sp) k i
  = is_spent sp k i
    || existsb (fun vin => bool_decide (Hex.EncodeToString (Txid vin) = k) && (InVout vin =? i))
         ins.
Proof.
  unfold record_inputs. revert sp. induction ins as [|v ins IH]; intros sp.
  - cbn. now rewrite orb_false_r.
  - cbn [fold_left existsb]. rewrite IH, is_spent_map_append. now rewrite orb_assoc.
Qed.

Lemma entry_of_default {A} (l : list A) : default [] (entry_of l) = l.
Proof. now destruct l. Qed.

Lemma scan_outputs_lookup (pubKeyHash : option (list byte)) (sp : gmap string (list Z))
    (earlier : list Transaction) (k0 : string) (outs : list TxOutput) :
  (forall i, is_spent sp k0 i = existsb (references k0 i) earlier) ->
  forall i UTXOs L k,
    UTXOs !! k = entry_of L ->
    scan_outputs pubKeyHash sp k0 i outs UTXOs !! k
    = entry_of (L ++ if bool_decide (k0 = k)
                     then unreferenced pubKeyHash earlier k0 i outs else []).
Proof.
  intros Hsp. induction outs as [|out outs IH]; intros i UTXOs L k HU.
  - cbn. destruct (bool_decide _); now rewrite app_nil_r.
  - cbn [scan_outputs unreferenced]. rewrite Hsp.
    destruct (existsb (references k0 i) earlier); cbn [negb andb].
    + now apply IH.
    + destruct (owner_matches pubKeyHash out).
      * case_bool_decide as Hk.
        -- subst k0. rewrite (IH _ _ (L ++ [out]) k).
           ++ rewrite bool_decide_eq_true_2 by reflexivity. now rewrite <- app_assoc.
           ++ unfold map_append. rewrite lookup_insert_eq, HU, entry_of_default.
              now destruct L.
        -- rewrite (IH _ _ L k); [now rewrite bool_decide_eq_false_2 by exact Hk|].
           unfold map_append. now rewrite lookup_insert_ne by exact Hk.
      * now apply IH.
Qed.

Lemma existsb_references_snoc (earlier : list Transaction) (tx : Transaction)
    (k : string) (i : Z) :
  existsb (references k i) (earlier ++ [tx])
  = existsb (references k i) earlier || references k i tx.
Proof. rewrite existsb_app. cbn. now rewrite orb_false_r. Qed.

(** The two maps of the scan after the transactions [txs] that follow
    [earlier]. *)
Lemma scan_transactions_lookup (pubKeyHash : option (list byte)) (txs : list Transaction) :
  forall earlier sp UTXOs (L : string -> list TxOutput),
    (forall k i, is_spent sp k i = existsb (references k i) earlier) ->
    (forall k, UTXOs !! k = entry_of (L k)) ->
    let st := fold_left (scan_tx pubKeyHash) txs (sp, UTXOs) in
    (forall k i, is_spent (fst st) k i = existsb (references k i) (earlier ++ txs))
    /\ forall k, snd st !! k = entry_of (L k ++ listed_under pubKeyHash k earlier txs).
Proof.
  induction txs as [|tx txs IH]; intros earlier sp UTXOs L Hsp HU.
  - cbn. rewrite app_nil_r. split; [exact Hsp|]. intros k. now rewrite app_nil_r.
  - cbn [fold_left]. unfold scan_tx at 2.
    specialize (IH (earlier ++ [tx])
      (if IsCoinbase tx then sp else record_inputs (Vin tx) sp)
      (scan_outputs pubKeyHash sp (Hex.EncodeToString (ID tx)) 0 (Vout tx) UTXOs)
      (fun k => L k ++ if bool_decide (Hex.EncodeToString (ID tx) = k)
                       then unreferenced pubKeyHash earlier (Hex.EncodeToString (ID tx)) 0
                              (Vout tx)
                       else [])).
    destruct IH as [IH1 IH2].
    + intros k i. rewrite existsb_references_snoc. unfold references at 2.
      destruct (IsCoinbase tx); cbn [negb andb].
      * now rewrite orb_false_r.
      * now rewrite is_spent_record_inputs, Hsp.
    + intros k. apply scan_outputs_lookup; [intros i; apply Hsp|apply HU].
    + split.
      * intros k i. rewrite IH1, <- app_assoc. reflexivity.
      * intros k. rewrite IH2. cbn [listed_under]. rewrite <- app_assoc.
        do 2 f_equal. f_equal. case_bool_decide as Hk; [now subst k|reflexivity].
Qed.

Lemma FindUTXO_lookup (bc : Blockchain) (pubKeyHash : option (list byte)) (k : string) :
  FindUTXO bc pubKeyHash !! k = entry_of (listed_under pubKeyHash k [] (chain_transactions bc)).
Proof.
  unfold FindUTXO. rewrite scan_chain_transactions.
  apply (scan_transactions_lookup pubKeyHash (chain_transactions bc) [] ∅ ∅ (fun _ => [])).
  - intros k' i. unfold is_spent. now rewrite lookup_empty.
  - intros k'. now rewrite lookup_empty.
Qed.

(** X11. What [FindUTXO] lists under a transaction id: the outputs of the
    transactions with that id, in chain order, that pass the owner filter
    and that no input of a non-coinbase transaction placed EARLIER in the
    chain references; the id is a key of the map only if that list is not
    empty. A reference from a transaction placed later in the chain, the
    normal case of a spend, removes nothing. *)
Theorem FindUTXO_lists_unreferenced_before (bc : Blockchain)
    (pubKeyHash : option (list byte)) (k : string) :
  FindUTXO bc pubKeyHash !! k
  = entry_of (listed_under pubKeyHash k [] (chain_transactions bc)).
Proof. apply FindUTXO_lookup. Qed.

Lemma unreferenced_In (pubKeyHash : option (list byte)) (earlier : list Transaction)
    (k : string) (outs : list TxOutput) (out : TxOutput) :
  forall i, In out (unreferenced pubKeyHash earlier k i outs) ->
    owner_matches pubKeyHash out = true /\ In out outs.
Proof.
  induction outs as [|o outs IH]; intros i Hin; [destruct Hin|].
  cbn [unreferenced] in Hin. apply in_app_or in Hin as [Hin|Hin].
  - destruct (negb _); cbn [andb] in Hin; [|destruct Hin].
    destruct (owner_matches pubKeyHash o) eqn:Ho; [|destruct Hin].
    destruct Hin as [<-|[]]. split; [exact Ho|now left].
  - apply IH in Hin as [Ho Hin]. split; [exact Ho|now right].
Qed.

Lemma listed_under_In (pubKeyHash : option (list byte)) (k : string)
    (txs : list Transaction) (out : TxOutput) :
  forall earlier, In out (listed_under pubKeyHash k earlier txs) ->
    owner_matches pubKeyHash out = true
    /\ exists tx, In tx txs /\ Hex.EncodeToString (ID tx) = k /\ In out (Vout tx).
Proof.
  induction txs as [|tx txs IH]; intros earlier Hin; [destruct Hin|].
  cbn [listed_under] in Hin. apply in_app_or in Hin as [Hin|Hin].
  - case_bool_decide as Hk; [|destruct Hin].
    apply unreferenced_In in Hin as [Ho Hin]. split; [exact Ho|].
    exists tx. split; [now left|auto].
  - apply IH in Hin as (Ho & t & Ht & Hk & Hin). split; [exact Ho|].
    exists t. split; [now right|auto].
Qed.

Lemma unreferenced_keeps (pubKeyHash : option (list byte)) (earlier : list Transaction)
    (k : string) (outs : list TxOutput) (out : TxOutput) :
  forall i (j : nat),
    outs !! j = Some out ->
    owner_matches pubKeyHash out = true ->
    existsb (references k (i + Z.of_nat j)) earlier = false ->
    In out (unreferenced pubKeyHash earlier k i outs).
Proof.
  induction outs as [|o outs IH]; intros i j Hj Ho Hfree; [now rewrite lookup_nil in Hj|].
  cbn [unreferenced]. apply in_or_app. destruct j as [|j].
  - injection Hj as ->. left. rewrite Z.add_0_r in Hfree. rewrite Hfree, Ho. now left.
  - right. apply (IH (i + 1) j); [exact Hj|exact Ho|].
    replace (i + 1 + Z.of_nat j) with (i + Z.of_nat (S j)) by lia. exact Hfree.
Qed.

Lemma listed_under_keeps (pubKeyHash : option (list byte)) (txs : list Transaction)
    (tx : Transaction) (j : nat) (out : TxOutput) :
  forall earlier,
    In tx txs ->
    Vout tx !! j = Some out ->
    owner_matches pubKeyHash out = true ->
    existsb (references (Hex.EncodeToString (ID tx)) (Z.of_nat j)) (earlier ++ txs) = false ->
    In out (listed_under pubKeyHash (Hex.EncodeToString (ID tx)) earlier txs).
Proof.
  induction txs as [|t txs IH]; intros earlier Hin Hj Ho Hfree; [destruct Hin|].
  cbn [listed_under]. apply in_or_app. destruct Hin as [->|Hin].
  - left. rewrite bool_decide_eq_true_2 by reflexivity.
    apply (unreferenced_keeps _ _ _ _ _ 0 j Hj Ho).
    rewrite existsb_app in Hfree. apply orb_false_elim in Hfree as [Hf _]. exact Hf.
  - right. apply IH; [exact Hin|exact Hj|exact Ho|].
    now rewrite <- app_assoc.
Qed.

(** X12. Every output that [FindUTXO] lists under a key passes the owner
    filter and is an output of a transaction of the chain whose hex id is
    that key, and no key holds an empty list. Conversely, an output of a
    chain transaction that passes the filter and that no input of a
    non-coinbase transaction of the chain references is listed under the
    id of its transaction. *)
Theorem FindUTXO_sound_and_keeps_unreferenced (bc : Blockchain)
    (pubKeyHash : option (list byte)) :
  (forall k outs, FindUTXO bc pubKeyHash !! k = Some outs ->
     outs <> []
     /\ forall out, In out outs ->
          owner_matches pubKeyHash out = true
          /\ exists tx, In tx (chain_transactions bc)
                        /\ Hex.EncodeToString (ID tx) = k /\ In out (Vout tx))
  /\ (forall tx (j : nat) out,
        In tx (chain_transactions bc) ->
        Vout tx !! j = Some out ->
        owner_matches pubKeyHash out = true ->
        Forall (fun t => references (Hex.EncodeToString (ID tx)) (Z.of_nat j) t = false)
          (chain_transactions bc) ->
        exists outs,
          FindUTXO bc pubKeyHash !! Hex.EncodeToString (ID tx) = Some outs /\ In out outs).
Proof.
  split.
  - intros k outs H. rewrite FindUTXO_lookup in H.
    destruct (listed_under pubKeyHash k [] (chain_transactions bc)) as [|o l] eqn:Hl;
      [discriminate|].
    injection H as <-. split; [discriminate|].
    intros out Hin. rewrite <- Hl in Hin. now apply listed_under_In in Hin.
  - intros tx j out Hin Hj Ho Hfree. rewrite FindUTXO_lookup.
    assert (Hl : In out (listed_under pubKeyHash (Hex.EncodeToString (ID tx)) []
                           (chain_transactions bc))).
    { apply (listed_under_keeps _ _ tx j); [exact Hin|exact Hj|exact Ho|].
      cbn [app]. apply not_true_is_false. intros He.
      apply existsb_exists in He as (t & Ht & Hr).
      rewrite Forall_forall in Hfree. apply list_elem_of_In in Ht.
      rewrite (Hfree t Ht) in Hr. discriminate. }
    destruct (listed_under _ _ _ _) as [|o l]; [destruct Hl|].
    exists (o :: l). split; [reflexivity|exact Hl].
Qed.

(** ** utxo.go: Reindex *)

Lemma fold_insert_list_to_map (l : list (string * list TxOutput)) :
  NoDup l.*1 ->
  forall (acc : gmap string (list TxOutput)) (k : string),
    fold_left (fun UTXO '(txID, outs) => <[txID := outs]> UTXO) l acc !! k
    = match (list_to_map l : gmap string (list TxOutput)) !! k with
      | Some v => Some v
      | None => acc !! k
      end.
Proof.
  induction l as [|[k0 v0] l IH]; intros Hnd acc k.
  - cbn. now rewrite lookup_empty.
  - cbn [fold_left]. apply NoDup_cons in Hnd as [Hk0 Hnd].
    rewrite (IH Hnd), list_to_map_cons.
    destruct (decide (k = k0)) as [->|Hne].
    + rewrite lookup_insert_eq.
      rewrite (not_elem_of_list_to_map_1 (M := gmap string) l k0 Hk0).
      now rewrite lookup_insert_eq.
    + rewrite !lookup_insert_ne by congruence. reflexivity.
Qed.

Lemma Reindex_FindUTXO (ord : map_order) (bc : Blockchain) :
  fair_order ord -> Reindex ord (mkUTXOSet (Some bc)) = FindUTXO bc None.
Proof.
  intros Hfair. unfold Reindex. cbn [BC].
  set (U := FindUTXO bc None). pose proof (Hfair U) as Hperm.
  assert (Hnd : NoDup (ord U).*1).
  { rewrite Hperm. apply NoDup_fst_map_to_list. }
  apply map_eq. intros k. rewrite (fold_insert_list_to_map _ Hnd).
  rewrite (list_to_map_proper (ord U) (map_to_list U) Hnd Hperm), list_to_map_to_list.
  rewrite lookup_empty. now destruct (U !! k).
Qed.

(** X13. [Reindex] returns exactly the map of [FindUTXO(nil)], whatever
    order the runtime picks for the range over that map, and the empty map
    when the set has no chain. *)
Theorem Reindex_is_FindUTXO (ord : map_order) (bc : Blockchain) :
  fair_order ord ->
  Reindex ord (mkUTXOSet (Some bc)) = FindUTXO bc None
  /\ Reindex ord (mkUTXOSet None) = ∅.
Proof.
  intros Hfair. split; [now apply Reindex_FindUTXO|reflexivity].
Qed.

(** ** utxo.go: FindSpendableOutputs *)

(** [n] consecutive positions from [i] appended under [k]. *)
Lemma select_outs_positions (h : list byte) (amount : Z) (k : string)
    (outs : list TxOutput) :
  Forall (fun o => PubKeyHash o = h) outs ->
  forall i st,
    let st' := select_outs h amount k i outs st in
    exists n : nat,
      (n <= length outs)%nat
      /\ unspentOuts st'
         = (if decide (n = 0%nat) then unspentOuts st
            else <[k := default [] (unspentOuts st !! k) ++ seqZ i (Z.of_nat n)]>
                   (unspentOuts st))
      /\ (accumulated st < amount -> returned st = false ->
          (returned st' = true /\ amount <= accumulated st' /\ (1 <= n)%nat)
          \/ (returned st' = false /\ accumulated st' < amount /\ n = length outs)).
Proof.
  induction 1 as [|out outs Hout _ IH]; intros i st; cbn [select_outs].
  - exists 0%nat. cbn. split; [lia|]. split; [reflexivity|]. intros Hlt Hr. right. auto.
  - unfold bytes_eqb. rewrite bool_decide_eq_true_2 by exact Hout. cbn [andb].
    destruct (accumulated st <? amount) eqn:Hlt.
    + destruct (amount <=? wrap64 (accumulated st + Value out)) eqn:Hle.
      * exists 1%nat. cbn [length]. split; [lia|]. split; [reflexivity|].
        intros _ _. left. cbn. split; [reflexivity|]. split; [now apply Z.leb_le|lia].
      * set (st1 := mkSelection false (wrap64 (accumulated st + Value out))
                      (map_append k i (unspentOuts st))).
        destruct (IH (i + 1) st1) as (n & Hn & Hsel & Hrest).
        exists (S n). cbn [length]. split; [lia|]. split.
        -- rewrite Hsel. subst st1. cbn [unspentOuts]. unfold map_append.
           destruct (decide (S n = 0%nat)) as [|_]; [lia|].
           rewrite (seqZ_cons i (Z.of_nat (S n))) by lia.
           replace (Z.pred (Z.of_nat (S n))) with (Z.of_nat n) by lia.
           replace (Z.succ i) with (i + 1) by lia.
           destruct (decide (n = 0%nat)) as [->|Hn0].
           ++ reflexivity.
           ++ rewrite lookup_insert_eq, insert_insert_eq. cbn [default]. unfold id.
              now rewrite <- app_assoc.
        -- intros _ _. apply Z.leb_gt in Hle.
           destruct (Hrest Hle eq_refl) as [(Hr & Ha & Hn1)|(Hr & Ha & Hn1)].
           ++ left. split; [exact Hr|]. split; [exact Ha|lia].
           ++ right. split; [exact Hr|]. split; [exact Ha|lia].
    + apply Z.ltb_ge in Hlt. rewrite select_outs_enough by exact Hlt.
      exists 0%nat. cbn. split; [lia|]. split; [reflexivity|]. intros Hlt'. lia.
Qed.

Lemma select_entries_positions (h : list byte) (amount : Z)
    (entries : list (string * list TxOutput)) :
  NoDup entries.*1 ->
  Forall (fun e => Forall (fun o => PubKeyHash o = h) e.2) entries ->
  forall st,
    (forall k, k ∈ entries.*1 -> unspentOuts st !! k = None) ->
    let st' := select_entries h amount entries st in
    (forall k,
       unspentOuts st' !! k = unspentOuts st !! k
       \/ exists outs (n : nat),
            (k, outs) ∈ entries /\ (1 <= n <= length outs)%nat
            /\ unspentOuts st' !! k = Some (seqZ 0 (Z.of_nat n)))
    /\ (accumulated st < amount -> returned st = false ->
        (returned st' = true /\ amount <= accumulated st')
        \/ (returned st' = false /\ accumulated st' < amount
            /\ forall k outs, (k, outs) ∈ entries -> outs <> [] ->
                 unspentOuts st' !! k = Some (seqZ 0 (Z.of_nat (length outs))))).
Proof.
  induction entries as [|[k0 outs0] rest IH]; intros Hnd Hall st Hfresh.
  - cbn. split; [auto|]. intros Hlt Hr. right. split; [exact Hr|]. split; [exact Hlt|].
    intros k outs Hin. now apply elem_of_nil in Hin.
  - cbn [select_entries].
    apply NoDup_cons in Hnd as [Hk0 Hnd]. apply Forall_cons in Hall as [Hall0 Hall].
    cbn [snd] in Hall0.
    destruct (select_outs_positions h amount k0 outs0 Hall0 0 st) as (n & Hn & Hsel & Hstep).
    set (st1 := select_outs h amount k0 0 outs0 st) in *.
    assert (Hk0st : unspentOuts st !! k0 = None) by (apply Hfresh; cbn; left).
    rewrite Hk0st in Hsel. cbn [default app] in Hsel.
    assert (Hother : forall k, k <> k0 -> unspentOuts st1 !! k = unspentOuts st !! k).
    { intros k Hk. rewrite Hsel. destruct (decide (n = 0%nat)); [reflexivity|].
      now rewrite lookup_insert_ne by congruence. }
    assert (Hat : n <> 0%nat -> unspentOuts st1 !! k0 = Some (seqZ 0 (Z.of_nat n))).
    { intros Hn0. rewrite Hsel. destruct (decide (n = 0%nat)); [contradiction|].
      now rewrite lookup_insert_eq. }
    assert (Hfirst : forall k,
              unspentOuts st1 !! k = unspentOuts st !! k
              \/ exists outs (m : nat),
                   (k, outs) ∈ (k0, outs0) :: rest /\ (1 <= m <= length outs)%nat
                   /\ unspentOuts st1 !! k = Some (seqZ 0 (Z.of_nat m))).
    { intros k. destruct (decide (k = k0)) as [->|Hk]; [|left; now apply Hother].
      destruct (decide (n = 0%nat)) as [Hn0|Hn0].
      - left. rewrite Hsel. now destruct (decide (n = 0%nat)).
      - right. exists outs0, n. split; [left|]. split; [lia|now apply Hat]. }
    cbv zeta. destruct (returned st1) eqn:Hret; cbv iota.
    + split; [exact Hfirst|]. intros Hlt Hr.
      destruct (Hstep Hlt Hr) as [(_ & Ha & _)|(Hr' & _)]; [left; auto|congruence].
    + destruct (IH Hnd Hall st1) as [IH1 IH2].
      { intros k Hk. rewrite Hother; [apply Hfresh; now right|].
        intros ->. contradiction. }
      split.
      * intros k. destruct (IH1 k) as [Heq|(outs & m & Hin & Hm & Hl)].
        -- rewrite Heq. destruct (Hfirst k) as [?|(outs & m & Hin & Hm & Hl)]; [now left|].
           right. exists outs, m. auto.
        -- right. exists outs, m. split; [now right|auto].
      * intros Hlt Hr.
        destruct (Hstep Hlt Hr) as [(Hr' & _)|(_ & Ha & Hnlen)]; [congruence|].
        destruct (IH2 Ha Hret) as [?|(Hr2 & Ha2 & Hfull)]; [now left|].
        right. split; [exact Hr2|]. split; [exact Ha2|].
        intros k outs Hin Hne. apply elem_of_cons in Hin as [[= -> ->]|Hin].
        -- destruct (IH1 k0) as [Heq|(outs & m & Hin & _)].
           ++ rewrite Heq, <- Hnlen. apply Hat. subst n. now destruct outs0.
           ++ exfalso. apply Hk0. apply list_elem_of_fmap. now exists (k0, outs).
        -- now apply Hfull.
Qed.

Lemma FindUTXO_owner (bc : Blockchain) (h : list byte) (k : string) (outs : list TxOutput) :
  FindUTXO bc (Some h) !! k = Some outs ->
  outs <> [] /\ Forall (fun o => PubKeyHash o = h) outs.
Proof.
  intros H. rewrite FindUTXO_lookup in H.
  destruct (listed_under (Some h) k [] (chain_transactions bc)) as [|o l] eqn:Hl;
    [discriminate|].
  injection H as <-. split; [discriminate|].
  apply List.Forall_forall. intros out Hin. rewrite <- Hl in Hin.
  apply listed_under_In in Hin as [Ho _]. cbn in Ho. unfold bytes_eqb in Ho.
  now apply bool_decide_eq_true in Ho.
Qed.

(** X14. [FindSpendableOutputs] for an owner returns, under each selected
    transaction id, the numbers 0, 1, ..., n-1: positions within the list
    that [FindUTXO] gives for that owner and id (which leaves out the
    outputs of other owners), not output indices of the transaction. For a
    positive amount it stops as soon as the accumulated value reaches the
    amount, and otherwise has selected every listed output. *)
Theorem FindSpendableOutputs_selects_positions (ord : map_order) (bc : Blockchain)
    (h : list byte) (amount : Z) :
  fair_order ord ->
  exists acc sel,
    FindSpendableOutputs ord (mkUTXOSet (Some bc)) (Some h) amount = Done (acc, sel)
    /\ (forall k idxs, sel !! k = Some idxs ->
          exists outs (n : nat),
            FindUTXO bc (Some h) !! k = Some outs
            /\ (1 <= n <= length outs)%nat
            /\ idxs = seqZ 0 (Z.of_nat n))
    /\ (0 < amount ->
        amount <= acc
        \/ forall k outs, FindUTXO bc (Some h) !! k = Some outs ->
             sel !! k = Some (seqZ 0 (Z.of_nat (length outs)))).
Proof.
  intros Hfair. unfold FindSpendableOutputs. cbn [BC].
  change (default [] (Some h)) with h.
  set (U := FindUTXO bc (Some h)). pose proof (Hfair U) as Hperm.
  assert (Hin : forall k outs, (k, outs) ∈ ord U <-> U !! k = Some outs).
  { intros k outs. rewrite Hperm. apply elem_of_map_to_list. }
  assert (Hnd : NoDup (ord U).*1) by (rewrite Hperm; apply NoDup_fst_map_to_list).
  assert (Hall : Forall (fun e => Forall (fun o => PubKeyHash o = h) e.2) (ord U)).
  { apply Forall_forall. intros [k outs] He. apply Hin in He.
    now apply FindUTXO_owner in He as [_ He]. }
  destruct (select_entries_positions h amount (ord U) Hnd Hall (mkSelection false 0 ∅))
    as [H1 H2]; [intros k _; apply lookup_empty|].
  eexists _, _. split; [reflexivity|]. split.
  - intros k idxs Hk. destruct (H1 k) as [Heq|(outs & n & He & Hn & Hl)].
    + cbn [unspentOuts] in Heq. rewrite lookup_empty in Heq. congruence.
    + exists outs, n. split; [now apply Hin|]. split; [exact Hn|congruence].
  - intros Hpos. destruct (H2 Hpos eq_refl) as [[_ Ha]|(_ & _ & Hfull)]; [now left|].
    right. intros k outs Hk. apply Hfull; [now apply Hin|].
    now apply FindUTXO_owner in Hk as [Hne _].
Qed.

(** ** handlers.go: balanceForAddress *)

Lemma wrap64_add_l (a b : Z) : wrap64 (wrap64 a + b) = wrap64 (a + b).
Proof.
  unfold wrap64.
  replace ((a + 2 ^ 63) mod 2 ^ 64 - 2 ^ 63 + b + 2 ^ 63)
    with ((a + 2 ^ 63) mod 2 ^ 64 + b) by lia.
  rewrite Zplus_mod_idemp_l. f_equal. f_equal. lia.
Qed.

Lemma balance_outs (h : list byte) (outs : list TxOutput) :
  Forall (fun o => PubKeyHash o = h) outs ->
  forall t,
    fold_left (fun balance out =>
                 if bytes_eqb (PubKeyHash out) h then wrap64 (balance + Value out)
                 else balance) outs (wrap64 t)
    = wrap64 (t + foldr Z.add 0 (Value <$> outs)).
Proof.
  induction 1 as [|o outs Ho _ IH]; intros t.
  - cbn. f_equal. lia.
  - cbn [fold_left fmap list_fmap foldr]. unfold bytes_eqb at 2.
    rewrite bool_decide_eq_true_2 by exact Ho.
    rewrite wrap64_add_l, IH. f_equal. lia.
Qed.

Lemma balance_entries (h : list byte) (entries : list (string * list TxOutput)) :
  Forall (fun e => Forall (fun o => PubKeyHash o = h) e.2) entries ->
  forall t,
    fold_left (fun balance '(_, outs) =>
      fold_left (fun balance out =>
                   if bytes_eqb (PubKeyHash out) h then wrap64 (balance + Value out)
                   else balance) outs balance) entries (wrap64 t)
    = wrap64 (t + foldr Z.add 0 (Value <$> concat entries.*2)).
Proof.
  induction 1 as [|[k outs] entries Ho _ IH]; intros t.
  - cbn. f_equal. lia.
  - cbn [fold_left]. rewrite (balance_outs h outs Ho), IH. f_equal.
    cbn [fmap list_fmap concat snd]. rewrite fmap_app, foldr_app.
    generalize (foldr Z.add 0 (Value <$> concat entries.*2)). intros z.
    clear. induction outs as [|o outs IH]; cbn; lia.
Qed.

Lemma sum_Permutation (l l' : list Z) :
  Permutation l l' -> foldr Z.add 0 l = foldr Z.add 0 l'.
Proof. induction 1; cbn; lia. Qed.

(** X15. [balanceForAddress] fails with "invalid address" exactly for the
    empty string and for strings that are not hex; otherwise it returns
    the decoded bytes and the sum, wrapped to 64 bits, of the values of
    all the outputs that [FindUTXO] lists for those bytes. The visiting
    order of the map does not matter. *)
Theorem balanceForAddress_sums_listed (ord : map_order) (s : Server) (address : string) :
  fair_order ord ->
  balanceForAddress ord s address
  = if negb (ValidateAddress address) || negb (snd (Hex.DecodeString address))
    then inr "invalid address"%string
    else
      let h := fst (Hex.DecodeString address) in
      inl (wrap64 (foldr Z.add 0
                     (Value <$> concat (map_to_list (FindUTXO (S_BC s) (Some h))).*2)), h).
Proof.
  intros Hfair. unfold balanceForAddress.
  destruct (ValidateAddress address); [|reflexivity]. cbn [negb orb].
  destruct (Hex.DecodeString address) as [h ok]. cbn [fst snd].
  destruct ok; [|reflexivity]. cbn [negb].
  set (U := FindUTXO (S_BC s) (Some h)). pose proof (Hfair U) as Hperm.
  assert (Hall : Forall (fun e => Forall (fun o => PubKeyHash o = h) e.2) (ord U)).
  { apply Forall_forall. intros [k outs] He. rewrite Hperm in He.
    apply elem_of_map_to_list in He. now apply FindUTXO_owner in He as [_ He]. }
  change 0 with (wrap64 0) at 1.
  rewrite (balance_entries h (ord U) Hall 0), Z.add_0_l.
  assert (Hsum : foldr Z.add 0 (Value <$> concat (ord U).*2)
                 = foldr Z.add 0 (Value <$> concat (map_to_list U).*2))
    by (apply sum_Permutation, fmap_Permutation; now rewrite Hperm).
  now rewrite Hsum.
Qed.

(** ** utxo.go: Update *)

Lemma drop_spent_delete (vout : Z) (outs : list TxOutput) :
  forall outIdx,
    drop_spent vout outIdx outs
    = if (outIdx <=? vout) && (vout <? outIdx + Z.of_nat (length outs))
      then delete (Z.to_nat (vout - outIdx)) outs else outs.
Proof.
  induction outs as [|out outs IH]; intros outIdx.
  - cbn. now destruct (_ && _).
  - cbn [drop_spent length]. rewrite IH. destruct (outIdx =? vout) eqn:He.
    + apply Z.eqb_eq in He. subst vout.
      replace (outIdx + 1 <=? outIdx) with false by (symmetry; apply Z.leb_gt; lia).
      replace (outIdx <=? outIdx) with true by (symmetry; apply Z.leb_le; lia).
      replace (outIdx <? outIdx + Z.of_nat (S (length outs))) with true
        by (symmetry; apply Z.ltb_lt; lia).
      cbn [andb]. now rewrite Z.sub_diag.
    + apply Z.eqb_neq in He.
      destruct (outIdx + 1 <=? vout) eqn:Hle.
      * apply Z.leb_le in Hle.
        replace (outIdx <=? vout) with true by (symmetry; apply Z.leb_le; lia).
        replace (outIdx + 1 + Z.of_nat (length outs))
          with (outIdx + Z.of_nat (S (length outs))) by lia.
        cbn [andb]. destruct (vout <? _); [|reflexivity].
        replace (Z.to_nat (vout - outIdx)) with (S (Z.to_nat (vout - (outIdx + 1)))) by lia.
        reflexivity.
      * apply Z.leb_gt in Hle.
        replace (outIdx <=? vout) with false by (symmetry; apply Z.leb_gt; lia).
        reflexivity.
Qed.

Lemma remove_spent_position (utxo : gmap string (list TxOutput)) (vin : TxInput) :
  remove_spent utxo vin
  = match utxo !! Hex.EncodeToString (Txid vin) with
    | None => utxo
    | Some outs =>
        let outs' :=
          if (0 <=? InVout vin) && (InVout vin <? Z.of_nat (length outs))
          then delete (Z.to_nat (InVout vin)) outs else outs in
        match outs' with
        | [] => delete (Hex.EncodeToString (Txid vin)) utxo
        | _ => <[Hex.EncodeToString (Txid vin) := outs']> utxo
        end
    end.
Proof.
  unfold remove_spent. rewrite drop_spent_delete, Z.add_0_l, Z.sub_0_r.
  destruct (utxo !! Hex.EncodeToString (Txid vin)) as [outs|] eqn:Hk; cbn [default].
  - cbv zeta. destruct (if _ && _ then _ else _) as [|o l]; reflexivity.
  - assert (E : (if (0 <=? InVout vin) && (InVout vin <? Z.of_nat (length (@nil TxOutput)))
                 then delete (Z.to_nat (InVout vin)) [] else []) = @nil TxOutput)
      by (destruct (_ && _); reflexivity).
    rewrite E. cbn. now apply delete_id.
Qed.

(** X16. [Update] with a block holding one transaction that has one
    input: the entry named by the input loses the element at POSITION
    [Vout] of its current list (nothing when the key is absent or the
    position is out of range, the whole entry when nothing is left), then
    the outputs of the transaction are stored under its id, replacing
    whatever was there. A coinbase removes nothing. *)
Theorem Update_removes_by_position (b : Block) (tx : Transaction) (vin : TxInput)
    (utxo : gmap string (list TxOutput)) :
  Transactions b = [tx] ->
  Vin tx = [vin] ->
  Update b utxo
  = <[Hex.EncodeToString (ID tx) := Vout tx]>
      (if IsCoinbase tx then utxo
       else
         match utxo !! Hex.EncodeToString (Txid vin) with
         | None => utxo
         | Some outs =>
             let outs' :=
               if (0 <=? InVout vin) && (InVout vin <? Z.of_nat (length outs))
               then delete (Z.to_nat (InVout vin)) outs else outs in
             match outs' with
             | [] => delete (Hex.EncodeToString (Txid vin)) utxo
             | _ => <[Hex.EncodeToString (Txid vin) := outs']> utxo
             end
         end).
Proof.
  intros Hb HVin. unfold Update, update_tx. rewrite Hb. cbn [fold_left].
  rewrite HVin. cbn [fold_left]. now rewrite remove_spent_position.
Qed.

Lemma listed_under_app (pubKeyHash : option (list byte)) (k : string)
    (txs1 txs2 : list Transaction) :
  forall earlier,
    listed_under pubKeyHash k earlier (txs1 ++ txs2)
    = listed_under pubKeyHash k earlier txs1
      ++ listed_under pubKeyHash k (earlier ++ txs1) txs2.
Proof.
  induction txs1 as [|t txs1 IH]; intros earlier.
  - cbn. now rewrite app_nil_r.
  - cbn [app listed_under]. rewrite IH, <- !app_assoc. reflexivity.
Qed.

Lemma chain_transactions_snoc (bc : Blockchain) (b : Block) :
  chain_transactions (bc ++ [b]) = chain_transactions bc ++ Transactions b.
Proof.
  unfold chain_transactions. rewrite map_app, concat_app. cbn. now rewrite app_nil_r.
Qed.

Lemma unreferenced_all (earlier : list Transaction) (k : string) (outs : list TxOutput) :
  (forall i, existsb (references k i) earlier = false) ->
  forall i, unreferenced None earlier k i outs = outs.
Proof.
  intros Hfree. induction outs as [|o outs IH]; intros i; [reflexivity|].
  cbn [unreferenced]. rewrite Hfree, IH. reflexivity.
Qed.

Lemma listed_under_fresh (pubKeyHash : option (list byte)) (id : list byte)
    (txs : list Transaction) :
  Forall (fun t => ID t <> id) txs ->
  forall earlier, listed_under pubKeyHash (Hex.EncodeToString id) earlier txs = [].
Proof.
  induction 1 as [|t txs Ht _ IH]; intros earlier; [reflexivity|].
  cbn [listed_under]. rewrite IH, app_nil_r.
  case_bool_decide as Hk; [|reflexivity]. now apply Hex_encode_inj in Hk.
Qed.

Lemma not_referenced (id : list byte) (txs : list Transaction) :
  Forall (fun t => IsCoinbase t = true \/ Forall (fun vin => Txid vin <> id) (Vin t)) txs ->
  forall i, existsb (references (Hex.EncodeToString id) i) txs = false.
Proof.
  intros Hall i. apply not_true_is_false. intros He.
  apply existsb_exists in He as (t & Ht & Hr).
  rewrite Forall_forall in Hall. apply list_elem_of_In in Ht.
  unfold references in Hr. apply andb_true_iff in Hr as [Hcb Hr].
  destruct (Hall t Ht) as [Hc|Hins]; [rewrite Hc in Hcb; discriminate|].
  apply existsb_exists in Hr as (vin & Hvin & Hr).
  apply andb_true_iff in Hr as [Hk _]. apply bool_decide_eq_true in Hk.
  apply Hex_encode_inj in Hk. rewrite Forall_forall in Hins.
  apply list_elem_of_In in Hvin. now apply (Hins vin Hvin).
Qed.

(** X17. After a block that holds one coinbase transaction (what
    [FundWallet] mines) whose id is new to the chain and not yet named by
    any input, bringing the map up to date with [Update] gives the same
    map as rebuilding it with [Reindex] on the longer chain. *)
Theorem Update_agrees_with_Reindex_on_reward (ord : map_order) (bc : Blockchain)
    (b : Block) (cb : Transaction) :
  fair_order ord ->
  Transactions b = [cb] ->
  IsCoinbase cb = true ->
  Vout cb <> [] ->
  Forall (fun t => ID t <> ID cb) (chain_transactions bc) ->
  Forall (fun t => IsCoinbase t = true \/ Forall (fun vin => Txid vin <> ID cb) (Vin t))
    (chain_transactions bc) ->
  Update b (Reindex ord (mkUTXOSet (Some bc)))
  = Reindex ord (mkUTXOSet (Some (bc ++ [b]))).
Proof.
  intros Hfair Hb Hcb Hne Hfresh Hfree.
  rewrite !Reindex_FindUTXO by exact Hfair.
  unfold Update, update_tx. rewrite Hb. cbn [fold_left]. rewrite Hcb.
  apply map_eq. intros k. rewrite !FindUTXO_lookup, chain_transactions_snoc, Hb.
  rewrite listed_under_app. cbn [app listed_under]. rewrite app_nil_r.
  destruct (decide (k = Hex.EncodeToString (ID cb))) as [->|Hk].
  - rewrite lookup_insert_eq, bool_decide_eq_true_2 by reflexivity.
    rewrite listed_under_fresh by exact Hfresh. cbn [app].
    rewrite unreferenced_all by (apply not_referenced; exact Hfree).
    now destruct (Vout cb).
  - rewrite lookup_insert_ne by congruence. rewrite FindUTXO_lookup.
    rewrite bool_decide_eq_false_2 by congruence. now rewrite app_nil_r.
Qed.

(** X18. After a block whose transaction spends a listed output (one
    input, naming an entry of the rebuilt map and a position within it),
    the two ways of bringing the map up to date disagree on that entry:
    [Update] has removed the output, [Reindex] on the longer chain still
    lists every output it listed before. *)
Theorem Update_disagrees_with_Reindex_on_spend (ord : map_order) (bc : Blockchain)
    (b : Block) (tx : Transaction) (vin : TxInput) (outs : list TxOutput) :
  fair_order ord ->
  Transactions b = [tx] ->
  IsCoinbase tx = false ->
  Vin tx = [vin] ->
  Txid vin <> ID tx ->
  Reindex ord (mkUTXOSet (Some bc)) !! Hex.EncodeToString (Txid vin) = Some outs ->
  0 <= InVout vin < Z.of_nat (length outs) ->
  Update b (Reindex ord (mkUTXOSet (Some bc))) !! Hex.EncodeToString (Txid vin)
  = entry_of (delete (Z.to_nat (InVout vin)) outs)
  /\ Reindex ord (mkUTXOSet (Some (bc ++ [b]))) !! Hex.EncodeToString (Txid vin)
     = Some outs.
Proof.
  intros Hfair Hb Hcb HVin Hid Hlisted Hrange.
  assert (Hkey : Hex.EncodeToString (ID tx) <> Hex.EncodeToString (Txid vin))
    by (intros E; apply Hex_encode_inj in E; congruence).
  split.
  - unfold Update, update_tx. rewrite Hb. cbn [fold_left]. rewrite Hcb, HVin.
    cbn [fold_left]. rewrite lookup_insert_ne by exact Hkey.
    rewrite remove_spent_position, Hlisted. cbv zeta.
    replace ((0 <=? InVout vin) && (InVout vin <? Z.of_nat (length outs))) with true
      by (symmetry; apply andb_true_iff; split; [apply Z.leb_le|apply Z.ltb_lt]; lia).
    destruct (delete (Z.to_nat (InVout vin)) outs) as [|o l].
    + now rewrite lookup_delete_eq.
    + now rewrite lookup_insert_eq.
  - rewrite Reindex_FindUTXO in * by exact Hfair.
    rewrite FindUTXO_lookup in *. rewrite chain_transactions_snoc, Hb, listed_under_app.
    cbn [listed_under]. rewrite bool_decide_eq_false_2 by exact Hkey.
    now rewrite !app_nil_r.
Qed.

(** ** transaction.go: a transaction without inputs *)

(** X19. A transaction without inputs is not a coinbase, yet there is
    nothing for [Verify] to check: it verifies against any map and any
    chain, and [SignTransaction] returns it unchanged without error. Once
    a block holding it is appended, [FindUTXO] lists all its outputs
    (after whatever the chain already listed under its id), provided no
    earlier input names that id. *)
Theorem inputless_transaction_verifies (bc : Blockchain) (tx : Transaction)
    (prevTXs : gmap string Transaction) (privKey : PrivateKey) (rnd : Entropy) (b : Block) :
  Vin tx = [] ->
  IsCoinbase tx = false
  /\ Verify sha256 Serialize ecdsa_Verify tx prevTXs = Done true
  /\ VerifyTransaction sha256 Serialize ecdsa_Verify bc tx = Done true
  /\ SignTransaction sha256 Serialize Entropy ecdsa_Sign bc tx privKey rnd = Done (tx, rnd, None)
  /\ (Transactions b = [tx] ->
      Forall (fun t => IsCoinbase t = true \/ Forall (fun vin => Txid vin <> ID tx) (Vin t))
        (chain_transactions bc) ->
      FindUTXO (bc ++ [b]) None !! Hex.EncodeToString (ID tx)
      = entry_of (default [] (FindUTXO bc None !! Hex.EncodeToString (ID tx)) ++ Vout tx)).
Proof.
  intros HVin.
  assert (Hcb : IsCoinbase tx = false) by (unfold IsCoinbase; now rewrite HVin).
  split; [exact Hcb|].
  unfold VerifyTransaction, SignTransaction, Sign, Verify. rewrite Hcb, HVin. cbn.
  split; [reflexivity|]. split; [reflexivity|]. split; [reflexivity|].
  intros Hb Hfree. rewrite !FindUTXO_lookup, chain_transactions_snoc, Hb, listed_under_app.
  cbn [listed_under app]. rewrite bool_decide_eq_true_2 by reflexivity.
  rewrite app_nil_r, entry_of_default.
  now rewrite unreferenced_all by (apply not_referenced; exact Hfree).
Qed.

(** ** handlers.go and blockchain.go: two rewards for one address *)

(** X20. The ID of a coinbase depends only on the address and the memo, so
    two faucet blocks for the same address hold the same transaction.
    After both, on a chain that did not know that id: [FindUTXO] lists the
    two rewards under the one id, at positions 0 and 1, although the
    transaction has only output 0; the map kept with [Update] holds one
    reward; [FindSpendableOutputs] for the full 30000 of an owner who had
    nothing before selects positions 0 and 1 of that id; and an input
    naming output 1 of it makes [Sign] and [Verify] die on the index. *)
Theorem repeated_reward_shares_key (ord : map_order) (bc : Blockchain) (b1 b2 : Block)
    (h : list byte) (data : string) (privKey : PrivateKey) (rnd : Entropy) :
  let cb := NewCoinbaseTx sha256 Serialize (Hex.EncodeToString h) data in
  let k := Hex.EncodeToString (ID cb) in
  let out := mkTxOutput 15000 h in
  let spend := mkTransaction [] [mkTxInput (ID cb) 1 [] []] [] in
  fair_order ord ->
  Transactions b1 = [cb] ->
  Transactions b2 = [cb] ->
  Forall (fun t => ID t <> ID cb) (chain_transactions bc) ->
  Forall (fun t => IsCoinbase t = true \/ Forall (fun vin => Txid vin <> ID cb) (Vin t))
    (chain_transactions bc) ->
  Vout cb = [out]
  /\ FindUTXO (bc ++ [b1; b2]) None !! k = Some [out; out]
  /\ Update b2 (Update b1 (FindUTXO bc None)) !! k = Some [out]
  /\ (FindUTXO bc (Some h) = ∅ ->
      FindSpendableOutputs ord (mkUTXOSet (Some (bc ++ [b1; b2]))) (Some h) 30000
      = Done (30000, {[ k := [0; 1] ]}))
  /\ Sign sha256 Serialize Entropy ecdsa_Sign spend privKey {[ k := cb ]} rnd = Panic
  /\ Verify sha256 Serialize ecdsa_Verify spend {[ k := cb ]} = Panic.
Proof.
  intros cb k out spend Hfair Hb1 Hb2 Hfresh Hfree.
  assert (Hout : Vout cb = [out]) by apply NewCoinbaseTx_pays_hex.
  assert (Hcb : IsCoinbase cb = true).
  { destruct (NewCoinbaseTx_shape sha256 Serialize (Hex.EncodeToString h) data)
      as (id & memo & owner & Heq & _). fold cb in Heq. now rewrite Heq. }
  assert (Hlisted : forall f, owner_matches f out = true ->
            listed_under f k [] (chain_transactions (bc ++ [b1; b2])) = [out; out]).
  { intros f Hf. change (bc ++ [b1; b2]) with (bc ++ [b1] ++ [b2]).
    rewrite app_assoc, !chain_transactions_snoc, Hb1, Hb2, <- app_assoc.
    rewrite listed_under_app. subst k. rewrite listed_under_fresh by exact Hfresh.
    cbn [app listed_under]. rewrite !bool_decide_eq_true_2 by reflexivity.
    rewrite Hout. cbn [unreferenced]. rewrite !existsb_app.
    rewrite (not_referenced _ _ Hfree). cbn [existsb orb]. unfold references.
    rewrite Hcb, Hf. reflexivity. }
  split; [exact Hout|]. split.
  { rewrite FindUTXO_lookup, Hlisted by reflexivity. reflexivity. }
  split.
  { unfold Update, update_tx. rewrite Hb1, Hb2. cbn [fold_left]. rewrite Hcb, Hout.
    now rewrite lookup_insert_eq. }
  split.
  { intros Hnone.
    assert (Hmap : FindUTXO (bc ++ [b1; b2]) (Some h) = {[ k := [out; out] ]}).
    { apply map_eq. intros k'. destruct (decide (k' = k)) as [->|Hk].
      - rewrite FindUTXO_lookup, Hlisted, lookup_singleton_eq; [reflexivity|].
        cbn. unfold bytes_eqb. now apply bool_decide_eq_true.
      - rewrite lookup_singleton_ne by congruence. rewrite FindUTXO_lookup.
        change (bc ++ [b1; b2]) with (bc ++ [b1] ++ [b2]).
        rewrite app_assoc, !chain_transactions_snoc, Hb1, Hb2, <- app_assoc.
        rewrite listed_under_app. cbn [app listed_under].
        rewrite !bool_decide_eq_false_2 by (intros E; apply Hk; symmetry; exact E).
        rewrite !app_nil_r.
        rewrite <- FindUTXO_lookup, Hnone. apply lookup_empty. }
    unfold FindSpendableOutputs. cbn [BC]. rewrite Hmap.
    rewrite (fair_order_singleton ord k [out; out] Hfair).
    change (default [] (Some h)) with h.
    cbn [select_entries select_outs PubKeyHash Value out accumulated unspentOuts returned].
    unfold bytes_eqb. rewrite !bool_decide_eq_true_2 by reflexivity.
    change (wrap64 (0 + 15000)) with 15000. change (wrap64 (15000 + 15000)) with 30000.
    change (0 <? 30000) with true. change (30000 <=? 15000) with false.
    change (15000 <? 30000) with true. change (30000 <=? 30000) with true.
    cbn [andb returned accumulated unspentOuts].
    unfold map_append. rewrite lookup_empty, lookup_insert_eq, insert_insert_eq.
    cbn [default]. unfold id. rewrite insert_empty. reflexivity. }
  assert (Hidx : index (Vout cb) 1 = None) by (rewrite Hout; reflexivity).
  split.
  - unfold Sign, spend. cbn [IsCoinbase Vin InVout Txid sign_loop andb].
    replace (bool_decide (length (ID cb) = 0%nat) && (1 =? -1)) with false
      by (now rewrite andb_false_r).
    cbn [sign_loop Txid InVout]. fold k. rewrite lookup_singleton_eq. cbv beta iota.
    now rewrite Hidx.
  - unfold Verify, spend. cbn [IsCoinbase Vin InVout Txid andb].
    replace (bool_decide (length (ID cb) = 0%nat) && (1 =? -1)) with false
      by (now rewrite andb_false_r).
    cbn [verify_loop Txid InVout Vin TrimmedCopy]. fold k.
    rewrite lookup_singleton_eq. cbn [default]. unfold id. cbv beta iota. now rewrite Hidx.
Qed.

(** ** wallet.go: keys and addresses as hex strings *)

(** X21. Reading back the hex string that [PrivateKeyToHex] writes never
    fails and restores the absolute value of the scalar, with the public
    point that the curve gives for its bytes; a key whose scalar is not
    negative and whose public point is that point is restored exactly.
    [PrivateKeyFromHex] fails exactly on the strings that
    [hex.DecodeString] rejects. *)
Theorem PrivateKey_hex_round_trip (priv : PrivateKey) :
  PrivateKeyFromHex ScalarBaseMult (PrivateKeyToHex priv)
  = Some (mkPrivateKey (Z.abs (D priv))
            (fst (ScalarBaseMult (BigInt.Bytes (D priv))))
            (snd (ScalarBaseMult (BigInt.Bytes (D priv)))))
  /\ (0 <= D priv ->
      ScalarBaseMult (BigInt.Bytes (D priv)) = (PubX priv, PubY priv) ->
      PrivateKeyFromHex ScalarBaseMult (PrivateKeyToHex priv) = Some priv)
  /\ forall hexKey,
       PrivateKeyFromHex ScalarBaseMult hexKey = None
       <-> snd (Hex.DecodeString hexKey) = false.
Proof.
  assert (H : PrivateKeyFromHex ScalarBaseMult (PrivateKeyToHex priv)
              = Some (mkPrivateKey (Z.abs (D priv))
                        (fst (ScalarBaseMult (BigInt.Bytes (D priv))))
                        (snd (ScalarBaseMult (BigInt.Bytes (D priv)))))).
  { unfold PrivateKeyFromHex, PrivateKeyToHex. rewrite Hex_decode_encode. cbn [negb].
    rewrite SetBytes_Bytes. now destruct (ScalarBaseMult _). }
  split; [exact H|]. split.
  - intros HD Hpub. rewrite H, Hpub, Z.abs_eq by exact HD. now destruct priv.
  - intros hexKey. unfold PrivateKeyFromHex.
    destruct (Hex.DecodeString hexKey) as [dBytes ok]. cbn [snd].
    destruct ok; cbn [negb].
    + destruct (ScalarBaseMult dBytes). split; discriminate.
    + split; reflexivity.
Qed.

Lemma Hex_encode_length (bs : list byte) :
  String.length (Hex.EncodeToString bs) = (2 * length bs)%nat.
Proof. induction bs as [|b bs IH]; [reflexivity|]. cbn [Hex.EncodeToString String.length length]. lia. Qed.

(** X22. The address that [GetAddress] derives from a public key, given
    32-byte digests: it has 64 characters, passes [ValidateAddress],
    decodes without error to the digest of the key, a coinbase built for
    it pays that digest, and [balanceForAddress] accepts it. *)
Theorem GetAddress_is_accepted (pubKey : list byte) (data : string) (ord : map_order)
    (s : Server) :
  length (sha256 pubKey) = 32%nat ->
  let address := GetAddress sha256 pubKey in
  String.length address = 64%nat
  /\ ValidateAddress address = true
  /\ Hex.DecodeString address = (sha256 pubKey, true)
  /\ Vout (NewCoinbaseTx sha256 Serialize address data) = [mkTxOutput 15000 (sha256 pubKey)]
  /\ exists balance, balanceForAddress ord s address = inl (balance, sha256 pubKey).
Proof.
  intros Hlen address. subst address. unfold GetAddress.
  assert (Hl : String.length (Hex.EncodeToString (sha256 pubKey)) = 64%nat)
    by (rewrite Hex_encode_length, Hlen; reflexivity).
  assert (Hv : ValidateAddress (Hex.EncodeToString (sha256 pubKey)) = true)
    by (unfold ValidateAddress; rewrite Hl; reflexivity).
  split; [exact Hl|]. split; [exact Hv|]. split; [apply Hex_decode_encode|].
  split; [apply NewCoinbaseTx_pays_hex|].
  unfold balanceForAddress. rewrite Hv, Hex_decode_encode. cbn [negb]. eauto.
Qed.

(** ** query.go *)

Lemma pays_to_existsb (h : list byte) (outs : list TxOutput) :
  pays_to h outs = existsb (fun out => bytes_eqb (PubKeyHash out) h) outs.
Proof.
  induction outs as [|o outs IH]; [reflexivity|]. cbn [pays_to existsb].
  rewrite IH. now destruct (bytes_eqb _ _).
Qed.

Lemma collect_paying (h : list byte) (bc : Blockchain) :
  forall acc,
    fold_left (fun txs b =>
      fold_left (fun txs tx => if pays_to h (Vout tx) then txs ++ [tx] else txs)
        (Transactions b) txs) bc acc
    = acc ++ List.filter (fun tx => pays_to h (Vout tx)) (chain_transactions bc).
Proof.
  assert (Hin : forall txs acc,
            fold_left (fun txs tx => if pays_to h (Vout tx) then txs ++ [tx] else txs) txs acc
            = acc ++ List.filter (fun tx => pays_to h (Vout tx)) txs).
  { induction txs as [|t txs IH]; intros acc; cbn [fold_left List.filter].
    - now rewrite app_nil_r.
    - rewrite IH. destruct (pays_to h (Vout t)); [|reflexivity].
      now rewrite <- app_assoc. }
  unfold chain_transactions.
  induction bc as [|b bc IH]; intros acc; cbn [fold_left map concat].
  - cbn. now rewrite app_nil_r.
  - rewrite IH, Hin, List.filter_app, <- app_assoc. reflexivity.
Qed.

(** X23. [GetTransactionsForAddress] fails with "invalid address" on the
    empty string and with "invalid address encoding" on a string that is
    not hex; otherwise it returns, in chain order and once for each
    occurrence, exactly the transactions of the chain that have an output
    paying the decoded bytes. *)
Theorem GetTransactionsForAddress_lists_payments (bc : Blockchain) (address : string) :
  match GetTransactionsForAddress bc address with
  | inl txs =>
      address <> ""%string
      /\ snd (Hex.DecodeString address) = true
      /\ txs = List.filter
                 (fun tx => existsb (fun out => bytes_eqb (PubKeyHash out)
                                                  (fst (Hex.DecodeString address)))
                              (Vout tx))
                 (chain_transactions bc)
      /\ forall tx, In tx txs <->
           In tx (chain_transactions bc)
           /\ exists out, In out (Vout tx)
                          /\ PubKeyHash out = fst (Hex.DecodeString address)
  | inr err =>
      (address = ""%string /\ err = "invalid address"%string)
      \/ (address <> ""%string /\ snd (Hex.DecodeString address) = false
          /\ err = "invalid address encoding"%string)
  end.
Proof.
  unfold GetTransactionsForAddress.
  destruct (ValidateAddress address) eqn:Hv; cbn [negb].
  2:{ left. split; [|reflexivity]. destruct address; [reflexivity|discriminate]. }
  assert (Hne : address <> ""%string) by (intros ->; discriminate).
  destruct (Hex.DecodeString address) as [h ok]. cbn [fst snd].
  destruct ok; cbn [negb]; [|right; auto].
  rewrite collect_paying. cbn [app].
  assert (Heq : List.filter (fun tx => pays_to h (Vout tx)) (chain_transactions bc)
                = List.filter (fun tx => existsb (fun out => bytes_eqb (PubKeyHash out) h)
                                       (Vout tx)) (chain_transactions bc)).
  { apply List.filter_ext. intros tx. apply pays_to_existsb. }
  rewrite Heq. split; [exact Hne|]. split; [reflexivity|]. split; [reflexivity|].
  intros tx. rewrite List.filter_In, existsb_exists. split.
  - intros (Hin & out & Hout & Heqb). split; [exact Hin|]. exists out.
    split; [exact Hout|]. now apply bool_decide_eq_true in Heqb.
  - intros (Hin & out & Hout & Hp). split; [exact Hin|]. exists out.
    split; [exact Hout|]. now apply bool_decide_eq_true.
Qed.

Lemma list_blocks_from_lookup (blocks : list Block) :
  forall (i : Z) (j : nat),
    list_blocks_from i blocks !! j
    = (fun b => Summary.mkBlockSummary (i + Z.of_nat j) (Timestamp b)
                  (Hex.EncodeToString (Hash b)) (Hex.EncodeToString (PrevHash b))
                  (Z.of_nat (length (Transactions b)))) <$> blocks !! j.
Proof.
  induction blocks as [|b blocks IH]; intros i j; [now rewrite !lookup_nil|].
  destruct j as [|j]; cbn [list_blocks_from].
  - cbn. now rewrite Z.add_0_r.
  - rewrite !lookup_cons. rewrite IH. replace (i + 1 + Z.of_nat j) with (i + Z.of_nat (S j)) by lia.
    reflexivity.
Qed.

(** X24. [ListBlocks] gives one summary per block, in chain order, the
    summary at position i carrying index i, the hex forms of the two
    hashes and the number of transactions of block i; [GetBlockByIndex]
    returns block i exactly for 0 <= i < len, so the index of every
    summary retrieves the block it summarises. *)
Theorem ListBlocks_indexes_chain (bc : Blockchain) (idx : Z) :
  length (ListBlocks bc) = length bc
  /\ (GetBlockByIndex bc idx = None <-> idx < 0 \/ Z.of_nat (length bc) <= idx)
  /\ forall b, GetBlockByIndex bc idx = Some b ->
       0 <= idx < Z.of_nat (length bc)
       /\ bc !! Z.to_nat idx = Some b
       /\ ListBlocks bc !! Z.to_nat idx
          = Some (Summary.mkBlockSummary idx (Timestamp b)
                    (Hex.EncodeToString (Hash b)) (Hex.EncodeToString (PrevHash b))
                    (Z.of_nat (length (Transactions b)))).
Proof.
  split; [|split].
  - unfold ListBlocks. generalize 0. induction bc as [|b bc IH]; intros i; [reflexivity|].
    cbn [list_blocks_from length]. now rewrite IH.
  - unfold GetBlockByIndex. destruct (idx <? 0) eqn:H0; cbn [orb].
    + apply Z.ltb_lt in H0. split; [auto|reflexivity].
    + apply Z.ltb_ge in H0. destruct (Z.of_nat (length bc) <=? idx) eqn:H1.
      * apply Z.leb_le in H1. split; [auto|reflexivity].
      * apply Z.leb_gt in H1. split; [|lia]. intros Hn.
        apply lookup_ge_None in Hn. lia.
  - intros b Hb. unfold GetBlockByIndex in Hb.
    destruct (idx <? 0) eqn:H0; [discriminate|]. apply Z.ltb_ge in H0.
    destruct (Z.of_nat (length bc) <=? idx) eqn:H1; [discriminate|]. apply Z.leb_gt in H1.
    cbn [orb] in Hb. split; [lia|]. split; [exact Hb|].
    unfold ListBlocks. rewrite list_blocks_from_lookup.
    change (@lookup nat Block (list Block) _ (Z.to_nat idx) bc) with (bc !! Z.to_nat idx).
    rewrite Hb. cbn. rewrite Z2Nat.id by lia. reflexivity.
Qed.

(** ** handlers.go: what a request can leave behind *)

Lemma AddBlock_Done (fuel : nat) (now : Z) (bc bc' : Blockchain) (txs : list Transaction)
    (nb : Block) :
  AddBlock sha256 fuel now bc txs = Done (bc', nb) ->
  exists tip,
    last bc = Some tip /\ bc' = bc ++ [nb]
    /\ Transactions nb = txs /\ PrevHash nb = Hash tip /\ Timestamp nb = now
    /\ Validate sha256 (NewProofOfWork nb) = true.
Proof.
  unfold AddBlock. destruct (last bc) as [tip|]; [|discriminate].
  cbn [mbind outcome_bind].
  destruct (NewBlock sha256 fuel now txs (Hash tip)) as [b| |] eqn:Hnew; try discriminate.
  intros [= <- <-]. exists tip.
  pose proof (NewBlock_Validate sha256 _ _ _ _ _ Hnew) as Hv.
  apply NewBlock_Done in Hnew as (nonce & _ & Hb).
  split; [reflexivity|]. split; [reflexivity|]. rewrite Hb. cbn. rewrite <- Hb. auto.
Qed.

(** X25. Every reply of [FundWallet] is one of three: "invalid request
    body" for an undecodable body, "address and positive amount are
    required" for an empty address or an amount that is not positive
    (both with status 400, the server unchanged and no row-store call), or
    the success record, with exactly one block appended that holds the
    coinbase for the requested address, names the old tip and passes
    [Validate]. The reply "invalid address" is never sent: the check
    before it already rejects the only address that [ValidateAddress]
    rejects. *)
Theorem FundWallet_outcomes (env : Env) (s : Server) (body : option fundWalletRequest)
    (h : handled) :
  FundWallet sha256 Serialize env s body = Done h ->
  match reply h with
  | HttpError msg code =>
      code = 400 /\ server h = s /\ db_calls h = []
      /\ ((body = None /\ msg = "invalid request body"%string)
          \/ (exists req, body = Some req
                /\ (fund_Address req = ""%string \/ fund_Amount req <= 0)
                /\ msg = "address and positive amount are required"%string))
  | JsonFund r =>
      exists req tip newBlock,
        body = Some req /\ fund_Address req <> ""%string /\ 0 < fund_Amount req
        /\ last (S_BC s) = Some tip
        /\ server h = mkServer (S_BC s ++ [newBlock]) (S_DB s)
        /\ Transactions newBlock
           = [NewCoinbaseTx sha256 Serialize (fund_Address req) "admin_faucet_reward"]
        /\ PrevHash newBlock = Hash tip
        /\ Validate sha256 (NewProofOfWork newBlock) = true
        /\ r = mkFundWalletResponse (fund_Address req) (fund_Amount req)
                 (Hex.EncodeToString (Hash newBlock))
        /\ (S_DB s = false -> db_calls h = [])
  | JsonStatus _ => False
  end.
Proof.
  unfold FundWallet, http_error. destruct body as [req|].
  2:{ intros [= <-]. cbn. auto 10. }
  case_bool_decide as Haddr; cbn [orb].
  { intros [= <-]. cbn. split; [reflexivity|]. split; [reflexivity|]. split; [reflexivity|].
    right. exists req. auto. }
  destruct (fund_Amount req <=? 0) eqn:Hamt.
  { intros [= <-]. cbn. apply Z.leb_le in Hamt. split; [reflexivity|].
    split; [reflexivity|]. split; [reflexivity|]. right. exists req. auto. }
  apply Z.leb_gt in Hamt.
  assert (Hv : ValidateAddress (fund_Address req) = true).
  { unfold ValidateAddress. destruct (fund_Address req); [contradiction|reflexivity]. }
  rewrite Hv. cbn [negb].
  destruct (AddBlock sha256 (fuel env) (now_block env) (S_BC s) _) as [[bc nb]| |] eqn:Hadd;
    cbn [mbind outcome_bind]; try discriminate.
  intros [= <-]. cbn [reply server db_calls].
  apply AddBlock_Done in Hadd as (tip & Htip & -> & Htxs & Hprev & _ & Hvalid).
  exists req, tip, nb. split; [reflexivity|]. split; [exact Haddr|]. split; [exact Hamt|].
  split; [exact Htip|]. split; [reflexivity|]. split; [exact Htxs|]. split; [exact Hprev|].
  split; [exact Hvalid|]. split; [reflexivity|]. now intros ->.
Qed.

(** X26. Every reply of [SendTransaction] is either one of seven errors,
    all with status 400, the server unchanged and no row-store call, or
    "transaction mined": then the selected value covers the amount, the
    transaction built for the request passed [VerifyTransaction] on the
    chain as it was, exactly one block holding exactly that transaction
    was appended after the old tip, and the rows written are the block and
    the transaction when a row store is configured. *)
Theorem SendTransaction_outcomes (env : Env) (rnd : Entropy) (s : Server)
    (body : option txRequest) (h : handled) :
  SendTransaction sha256 Serialize Entropy ecdsa_Verify BigIntToPrivateKey NewUTXOTransaction
    env rnd s body = Done h ->
  match reply h with
  | HttpError msg code =>
      code = 400 /\ server h = s /\ db_calls h = []
      /\ In msg ["invalid request payload"; "invalid address"; "amount must be positive";
                 "invalid private key"; "insufficient funds";
                 "failed to create transaction"; "invalid transaction"]%string
  | JsonStatus status =>
      status = "transaction mined"%string
      /\ exists req acc spendable tx tip newBlock,
           body = Some req
           /\ From req <> ""%string /\ To req <> ""%string /\ 0 < Amount req
           /\ snd (Hex.DecodeString (PrivKey req)) = true
           /\ FindSpendableOutputs (ord env) (S_UTXO s)
                (Some (fst (Hex.DecodeString (From req)))) (Amount req)
              = Done (acc, spendable)
           /\ Amount req <= acc
           /\ NewUTXOTransaction (BigIntToPrivateKey (fst (Hex.DecodeString (PrivKey req))))
                (To req) (Amount req) (S_BC s) spendable
                (fst (Hex.DecodeString (From req))) acc rnd
              = Done (inl tx)
           /\ VerifyTransaction sha256 Serialize ecdsa_Verify (S_BC s) tx = Done true
           /\ last (S_BC s) = Some tip
           /\ server h = mkServer (S_BC s ++ [newBlock]) (S_DB s)
           /\ Transactions newBlock = [tx]
           /\ PrevHash newBlock = Hash tip
           /\ Validate sha256 (NewProofOfWork newBlock) = true
           /\ db_calls h
              = if S_DB s then
                  [SaveBlock (Z.of_nat (length (S_BC s))) newBlock;
                   SaveTransaction
                     (transaction_row (now_record env) (Hex.EncodeToString (Hash newBlock)) tx
                        (From req) (To req) (Amount req) "send")]
                else []
  | JsonFund _ => False
  end.
Proof.
  unfold SendTransaction, http_error.
  assert (Herr : forall msg,
            In msg ["invalid request payload"; "invalid address"; "amount must be positive";
                    "invalid private key"; "insufficient funds";
                    "failed to create transaction"; "invalid transaction"]%string ->
            mret (mkHandled s (HttpError msg StatusBadRequest) []) = Done h ->
            match reply h with
            | HttpError msg code =>
                code = 400 /\ server h = s /\ db_calls h = []
                /\ In msg ["invalid request payload"; "invalid address";
                           "amount must be positive"; "invalid private key";
                           "insufficient funds"; "failed to create transaction";
                           "invalid transaction"]%string
            | JsonStatus _ => False
            | JsonFund _ => False
            end).
  { intros msg Hmsg [= <-]. cbn. auto. }
  assert (Hweak : forall P : Prop,
            match reply h with
            | HttpError msg code =>
                code = 400 /\ server h = s /\ db_calls h = []
                /\ In msg ["invalid request payload"; "invalid address";
                           "amount must be positive"; "invalid private key";
                           "insufficient funds"; "failed to create transaction";
                           "invalid transaction"]%string
            | JsonStatus _ => False
            | JsonFund _ => False
            end ->
            match reply h with
            | HttpError msg code =>
                code = 400 /\ server h = s /\ db_calls h = []
                /\ In msg ["invalid request payload"; "invalid address";
                           "amount must be positive"; "invalid private key";
                           "insufficient funds"; "failed to create transaction";
                           "invalid transaction"]%string
            | JsonStatus status => status = "transaction mined"%string /\ P
            | JsonFund _ => False
            end).
  { intros P H. destruct (reply h); [exact H|destruct H|exact H]. }
  destruct body as [req|].
  2:{ intros H. apply Hweak, (Herr "invalid request payload"%string); [cbn; auto|exact H]. }
  destruct (ValidateAddress (From req)) eqn:HvF; cbn [negb orb].
  2:{ intros H. apply Hweak, (Herr "invalid address"%string); [cbn; auto|exact H]. }
  destruct (ValidateAddress (To req)) eqn:HvT; cbn [negb].
  2:{ intros H. apply Hweak, (Herr "invalid address"%string); [cbn; auto|exact H]. }
  destruct (Amount req <=? 0) eqn:Hamt.
  { intros H. apply Hweak, (Herr "amount must be positive"%string); [cbn; auto|exact H]. }
  destruct (Hex.DecodeString (PrivKey req)) as [dBytes ok] eqn:Hpriv.
  destruct ok; cbn [negb].
  2:{ intros H. apply Hweak, (Herr "invalid private key"%string); [cbn; auto|exact H]. }
  destruct (FindSpendableOutputs _ _ _ _) as [[acc spendable]| |] eqn:Hfind;
    cbn [mbind outcome_bind]; try discriminate.
  destruct (acc <? Amount req) eqn:Hacc.
  { intros H. apply Hweak, (Herr "insufficient funds"%string); [cbn; auto 10|exact H]. }
  destruct (NewUTXOTransaction _ _ _ _ _ _ _ _) as [[tx|e]| |] eqn:Hnew;
    cbn [mbind outcome_bind]; try discriminate.
  2:{ intros H. apply Hweak, (Herr "failed to create transaction"%string);
        [cbn; auto 10|exact H]. }
  destruct (VerifyTransaction _ _ _ _ tx) as [valid| |] eqn:Hver;
    cbn [mbind outcome_bind]; try discriminate.
  destruct valid; cbn [negb].
  2:{ intros H. apply Hweak, (Herr "invalid transaction"%string); [cbn; auto 10|exact H]. }
  destruct (AddBlock sha256 (fuel env) (now_block env) (S_BC s) [tx]) as [[bc nb]| |] eqn:Hadd;
    cbn [mbind outcome_bind]; try discriminate.
  intros [= <-]. cbn [reply server db_calls].
  apply AddBlock_Done in Hadd as (tip & Htip & -> & Htxs & Hprev & _ & Hvalid).
  split; [reflexivity|].
  exists req, acc, spendable, tx, tip, nb. rewrite Hpriv. cbn [fst snd].
  split; [reflexivity|].
  split; [intros E; rewrite E in HvF; discriminate|].
  split; [intros E; rewrite E in HvT; discriminate|].
  split; [now apply Z.leb_gt in Hamt|].
  split; [reflexivity|].
  split; [exact Hfind|].
  split; [now apply Z.ltb_ge in Hacc|].
  split; [exact Hnew|]. split; [exact Hver|]. split; [exact Htip|].
  split; [reflexivity|]. split; [exact Htxs|]. split; [exact Hprev|]. split; [exact Hvalid|].
  destruct (S_DB s); [|reflexivity].
  rewrite length_app. cbn [length].
  replace (Z.of_nat (length (S_BC s) + 1) - 1) with (Z.of_nat (length (S_BC s))) by lia.
  reflexivity.
Qed.

(** ** handlers.go: one-time codes *)

Lemma pretty_digit (d : Z) :
  0 <= d < 10 -> pretty d = String (ascii_of_N (Z.to_N (48 + d))) EmptyString.
Proof.
  intros Hd.
  assert (H : d = 0 \/ d = 1 \/ d = 2 \/ d = 3 \/ d = 4 \/ d = 5 \/ d = 6 \/ d = 7
              \/ d = 8 \/ d = 9) by lia.
  repeat (destruct H as [->|H]; [reflexivity|]). subst d. reflexivity.
Qed.

Lemma string_app_nil_r (s : string) : (s +:+ "")%string = s.
Proof.
  induction s as [|c s IH]; [reflexivity|].
  change (String c (s +:+ "") = String c s). now rewrite IH.
Qed.

Lemma string_app_snoc (r : string) (c : ascii) (s : string) :
  ((r +:+ String c "") +:+ s)%string = (r +:+ String c s)%string.
Proof.
  induction r as [|a r IH]; [reflexivity|].
  change (String a ((r +:+ String c "") +:+ s) = String a (r +:+ String c s)).
  now rewrite IH.
Qed.

Lemma string_of_list_ascii_length (l : list ascii) :
  String.length (string_of_list_ascii l) = length l.
Proof.
  induction l as [|c l IH]; [reflexivity|].
  cbn [string_of_list_ascii String.length length]. f_equal. exact IH.
Qed.

Lemma generateOTP_loop_digits (n : nat) :
  (forall rnd d rnd', rand_Int rnd 10 = (inr d, rnd') -> 0 <= d < 10) ->
  forall result rnd code rnd',
    generateOTP_loop Entropy rand_Int n result rnd = ((code, None), rnd') ->
    exists digits,
      code = (result +:+ string_of_list_ascii digits)%string
      /\ length digits = n
      /\ Forall (fun c => (48 <= N_of_ascii c <= 57)%N) digits.
Proof.
  intros Hrand. induction n as [|n IH]; intros result rnd code rnd' H; cbn [generateOTP_loop] in H.
  - injection H as <- _. exists []. cbn [string_of_list_ascii length].
    rewrite string_app_nil_r. auto.
  - destruct (rand_Int rnd 10) as [[e|d] rnd1] eqn:Hr; [discriminate|].
    pose proof (Hrand _ _ _ Hr) as Hd.
    apply IH in H as (digits & -> & Hlen & Hall).
    exists (ascii_of_N (Z.to_N (48 + d)) :: digits). split; [|split].
    + rewrite pretty_digit by exact Hd. cbn [string_of_list_ascii].
      apply string_app_snoc.
    + cbn. now rewrite Hlen.
    + constructor; [|exact Hall]. rewrite N_ascii_embedding by lia. lia.
Qed.

(** X27. When every draw of [rand.Int(rand.Reader, 10)] that succeeds
    lies in [0, 10), a successful [generateOTP(length)] consists of
    exactly [length] decimal digits (none for a length that is not
    positive); when a draw fails the code returned is empty. *)
Theorem generateOTP_decimal_digits (len : Z) (rnd rnd' : Entropy) (code : string)
    (err : error) :
  (forall rnd d rnd', rand_Int rnd 10 = (inr d, rnd') -> 0 <= d < 10) ->
  generateOTP Entropy rand_Int len rnd = ((code, err), rnd') ->
  match err with
  | None =>
      String.length code = Z.to_nat len
      /\ Forall (fun c => (48 <= N_of_ascii c <= 57)%N) (list_ascii_of_string code)
  | Some _ => code = ""%string
  end.
Proof.
  intros Hrand H. unfold generateOTP in H. destruct err as [e|].
  - revert H. generalize ""%string at 1. generalize rnd.
    induction (Z.to_nat len) as [|n IH]; intros rnd0 result H; cbn [generateOTP_loop] in H.
    + discriminate.
    + destruct (rand_Int rnd0 10) as [[e'|d] rnd1]; [now injection H as <- _ _|].
      now apply IH in H.
  - apply (generateOTP_loop_digits _ Hrand) in H as (digits & -> & Hlen & Hall).
    change (("" +:+ string_of_list_ascii digits)%string) with (string_of_list_ascii digits).
    rewrite list_ascii_of_string_of_list_ascii.
    split; [|exact Hall]. now rewrite string_of_list_ascii_length.
Qed.

(** X28. A code issued by [RequestOTP] for an address is stored with an
    expiry five minutes after the clock reading. [VerifyOTP] accepts that
    code for that address at any reading up to the expiry and then
    removes it, so that the same code is refused afterwards; past the
    expiry, or with another code, it answers 401 and leaves the table as
    it is. *)
Theorem otp_accepted_once_until_expiry (now : Z) (remoteAddr : string) (db : bool)
    (rnd rnd' : Entropy) (otps otps1 : gmap string otpEntry) (email code : string)
    (calls : list db_call) :
  (forall rnd d rnd', rand_Int rnd 10 = (inr d, rnd') -> 0 <= d < 10) ->
  RequestOTP Entropy rand_Int now remoteAddr db rnd otps (Some email)
  = (otps1, OtpIssued email code, calls, rnd') ->
  otps1 = <[email := mkOtpEntry code (now + five_minutes)]> otps
  /\ String.length code = 6%nat
  /\ forall now1 remote1 db1,
       (now1 <= now + five_minutes ->
        VerifyOTP now1 remote1 db1 otps1 (Some (mkVerifyOTPRequest email code))
        = (delete email otps1, OtpVerdict 200 true "otp verified",
           if db1 then
             [LogSystemEvent "info" "otp_verified" ("otp verified for email=" +:+ email)
                remote1]
           else [])
        /\ forall now2 remote2 db2,
             VerifyOTP now2 remote2 db2 (delete email otps1)
               (Some (mkVerifyOTPRequest email code))
             = (delete email otps1, OtpVerdict 401 false "invalid or expired otp",
                if db2 then
                  [LogSystemEvent "warn" "otp_not_found" ("no otp for email=" +:+ email)
                     remote2]
                else []))
       /\ (forall otp, now + five_minutes < now1 \/ otp <> code -> otp <> ""%string ->
           VerifyOTP now1 remote1 db1 otps1 (Some (mkVerifyOTPRequest email otp))
           = (otps1, OtpVerdict 401 false "invalid or expired otp",
              if db1 then
                [LogSystemEvent "warn" "otp_invalid" ("invalid otp for email=" +:+ email)
                   remote1]
              else [])).
Proof.
  intros Hrand H. unfold RequestOTP in H.
  case_bool_decide as Hemail; [discriminate|].
  destruct (generateOTP Entropy rand_Int 6 rnd) as [[code0 [e|]] rnd1] eqn:Hgen; [discriminate|].
  injection H as <- <- _ _.
  assert (Hlen : String.length code0 = 6%nat).
  { unfold generateOTP in Hgen.
    apply (generateOTP_loop_digits _ Hrand) in Hgen as (digits & -> & Hlen & _).
    change (("" +:+ string_of_list_ascii digits)%string) with (string_of_list_ascii digits).
    now rewrite string_of_list_ascii_length. }
  assert (Hcode : code0 <> ""%string) by (intros ->; discriminate).
  split; [reflexivity|]. split; [exact Hlen|].
  intros now1 remote1 db1. split.
  - intros Hnow. split.
    + unfold VerifyOTP. cbn [otp_Email otp_OTP].
      rewrite (bool_decide_eq_false_2 _ Hemail), (bool_decide_eq_false_2 _ Hcode).
      cbn [orb]. rewrite lookup_insert_eq. cbn [Expires Code].
      replace (now + five_minutes <? now1) with false by (symmetry; apply Z.ltb_ge; lia).
      rewrite bool_decide_eq_true_2 by reflexivity. cbn [orb negb]. reflexivity.
    + intros now2 remote2 db2. unfold VerifyOTP. cbn [otp_Email otp_OTP].
      rewrite (bool_decide_eq_false_2 _ Hemail), (bool_decide_eq_false_2 _ Hcode).
      cbn [orb]. rewrite lookup_delete_eq. reflexivity.
  - intros otp Hbad Hotp. unfold VerifyOTP. cbn [otp_Email otp_OTP].
    rewrite (bool_decide_eq_false_2 _ Hemail), (bool_decide_eq_false_2 _ Hotp).
    cbn [orb]. rewrite lookup_insert_eq. cbn [Expires Code].
    destruct Hbad as [Hlate|Hne].
    + replace (now + five_minutes <? now1) with true by (symmetry; apply Z.ltb_lt; lia).
      reflexivity.
    + rewrite (bool_decide_eq_false_2 (code0 = otp)) by congruence.
      cbn [negb]. rewrite orb_true_r. reflexivity.
Qed.

(** ** handlers.go: RunZakat *)

Lemma wrap64_small (z : Z) : - 2 ^ 63 <= z <= int_max -> wrap64 z = z.
Proof.
  unfold wrap64, int_max. intros Hz. rewrite Z.mod_small; lia.
Qed.

(** X29. The amount that [RunZakat] deducts from a positive balance
    (whose product with 25 fits an [int]) is the balance divided by 40,
    rounded down: never more than the balance, and nothing at all below
    40. *)
Theorem zakatAmount_is_one_fortieth (balance : Z) :
  0 < balance -> balance * 25 <= int_max ->
  zakatAmount balance = balance / 40
  /\ 0 <= zakatAmount balance <= balance
  /\ (zakatAmount balance <= 0 <-> balance < 40).
Proof.
  intros Hpos Hfit. unfold zakatAmount.
  rewrite wrap64_small by (unfold int_max in *; lia).
  rewrite Z.quot_div_nonneg by lia.
  assert (E : balance * 25 / 1000 = balance / 40).
  { replace 1000 with (40 * 25) by reflexivity. apply Z.div_mul_cancel_r; lia. }
  rewrite E. pose proof (Z.div_pos balance 40 ltac:(lia) ltac:(lia)) as H0.
  assert (H1 : balance / 40 <= balance) by (apply Z.div_le_upper_bound; lia).
  split; [reflexivity|]. split; [lia|]. split.
  - intros Hz. assert (balance / 40 = 0) by lia. apply Z.div_small_iff in H; lia.
  - intros Hlt. rewrite Z.div_small by lia. lia.
Qed.

Lemma recorded_zakat_app (a b : list zakat_call) :
  recorded_zakat (a ++ b) = recorded_zakat a ++ recorded_zakat b.
Proof. unfold recorded_zakat. apply flat_map_app. Qed.

Lemma recorded_zakat_saved_row (remoteAddr : string) (result : zakat_call -> error)
    (c : db_call) (typ : string) :
  recorded_zakat (zakat_saved remoteAddr result (ZakatRow c) typ) = [].
Proof. unfold zakat_saved. now destruct (result _). Qed.

Lemma recorded_zakat_saved_record (remoteAddr : string) (result : zakat_call -> error)
    (zr : ZakatRecord) (typ : string) :
  recorded_zakat (zakat_saved remoteAddr result (SaveZakatRecord zr) typ) = [zr_Amount zr].
Proof. unfold zakat_saved. now destruct (result _). Qed.

(** One round either changes nothing but the log, or appends one block
    holding one verified transaction and records one positive amount. *)
Lemma zakat_round_step (remoteAddr zakatAddress : string) (st st' : zakat_state)
    (wp : WalletProfile) (r : ZakatRound Entropy) :
  zakat_round sha256 Serialize Entropy ecdsa_Verify NewUTXOTransaction ScalarBaseMult
    base64_decode hex_error remoteAddr zakatAddress st wp r = Done st' ->
  exists calls,
    zs_calls st' = zs_calls st ++ calls
    /\ ((zs_chain st' = zs_chain st /\ processed st' = processed st
         /\ totalZakat st' = totalZakat st /\ blockHashes st' = blockHashes st
         /\ recorded_zakat calls = [])
        \/ exists tip nb tx amount,
             last (zs_chain st) = Some tip
             /\ zs_chain st' = zs_chain st ++ [nb]
             /\ Transactions nb = [tx] /\ PrevHash nb = Hash tip
             /\ Validate sha256 (NewProofOfWork nb) = true
             /\ VerifyTransaction sha256 Serialize ecdsa_Verify (zs_chain st) tx = Done true
             /\ 0 < amount
             /\ processed st' = wrap64 (processed st + 1)
             /\ totalZakat st' = wrap64 (totalZakat st + amount)
             /\ blockHashes st' = blockHashes st ++ [Hex.EncodeToString (Hash nb)]
             /\ recorded_zakat calls = [amount]).
Proof.
  unfold zakat_round.
  assert (Hskip : forall typ message,
            Done (mkZakatState (zs_chain st) (processed st) (totalZakat st) (blockHashes st)
                    (zs_calls st ++ [zakat_log remoteAddr "error" typ message])) = Done st' ->
            exists calls,
              zs_calls st' = zs_calls st ++ calls
              /\ ((zs_chain st' = zs_chain st /\ processed st' = processed st
                   /\ totalZakat st' = totalZakat st /\ blockHashes st' = blockHashes st
                   /\ recorded_zakat calls = [])
                  \/ exists tip nb tx amount,
                       last (zs_chain st) = Some tip
                       /\ zs_chain st' = zs_chain st ++ [nb]
                       /\ Transactions nb = [tx] /\ PrevHash nb = Hash tip
                       /\ Validate sha256 (NewProofOfWork nb) = true
                       /\ VerifyTransaction sha256 Serialize ecdsa_Verify (zs_chain st) tx
                          = Done true
                       /\ 0 < amount
                       /\ processed st' = wrap64 (processed st + 1)
                       /\ totalZakat st' = wrap64 (totalZakat st + amount)
                       /\ blockHashes st' = blockHashes st ++ [Hex.EncodeToString (Hash nb)]
                       /\ recorded_zakat calls = [amount])).
  { intros typ message [= <-]. eexists. split; [reflexivity|]. left. cbn. auto. }
  assert (Hsame : Done st = Done st' ->
            exists calls,
              zs_calls st' = zs_calls st ++ calls
              /\ ((zs_chain st' = zs_chain st /\ processed st' = processed st
                   /\ totalZakat st' = totalZakat st /\ blockHashes st' = blockHashes st
                   /\ recorded_zakat calls = [])
                  \/ exists tip nb tx amount,
                       last (zs_chain st) = Some tip
                       /\ zs_chain st' = zs_chain st ++ [nb]
                       /\ Transactions nb = [tx] /\ PrevHash nb = Hash tip
                       /\ Validate sha256 (NewProofOfWork nb) = true
                       /\ VerifyTransaction sha256 Serialize ecdsa_Verify (zs_chain st) tx
                          = Done true
                       /\ 0 < amount
                       /\ processed st' = wrap64 (processed st + 1)
                       /\ totalZakat st' = wrap64 (totalZakat st + amount)
                       /\ blockHashes st' = blockHashes st ++ [Hex.EncodeToString (Hash nb)]
                       /\ recorded_zakat calls = [amount])).
  { intros [= <-]. exists []. rewrite app_nil_r. split; [reflexivity|]. left. auto. }
  destruct (balanceForAddress _ _ _) as [[balance pubKeyHash]|balErr]; [|apply Hskip].
  destruct (balance <=? 0); [exact Hsame|].
  destruct (zakatAmount balance <=? 0) eqn:Hamt; [exact Hsame|]. apply Z.leb_gt in Hamt.
  destruct (base64_decode _) as [privHex|decErr]; [|apply Hskip].
  destruct (PrivateKeyFromHex ScalarBaseMult privHex) as [privKey|]; [|apply Hskip].
  destruct (FindSpendableOutputs _ _ _ _) as [[amount spendable]| |];
    cbn [mbind outcome_bind]; try discriminate.
  destruct (amount <? zakatAmount balance); [exact Hsame|].
  destruct (NewUTXOTransaction _ _ _ _ _ _ _ _) as [[tx|txErr]| |];
    cbn [mbind outcome_bind]; try discriminate; [|apply Hskip].
  destruct (VerifyTransaction _ _ _ _ tx) as [valid| |] eqn:Hver;
    cbn [mbind outcome_bind]; try discriminate.
  destruct valid; cbn [negb]; [|apply Hskip].
  destruct (AddBlock sha256 _ _ _ [tx]) as [[bc nb]| |] eqn:Hadd;
    cbn [mbind outcome_bind]; try discriminate.
  intros [= <-]. cbn [zs_chain processed totalZakat blockHashes zs_calls].
  apply AddBlock_Done in Hadd as (tip & Htip & -> & Htxs & Hprev & _ & Hvalid).
  eexists. split; [reflexivity|]. right.
  exists tip, nb, tx, (zakatAmount balance).
  split; [exact Htip|]. split; [reflexivity|]. split; [exact Htxs|]. split; [exact Hprev|].
  split; [exact Hvalid|]. split; [exact Hver|]. split; [exact Hamt|].
  split; [reflexivity|]. split; [reflexivity|]. split; [reflexivity|].
  rewrite !recorded_zakat_app, !recorded_zakat_saved_row, recorded_zakat_saved_record.
  reflexivity.
Qed.

Lemma zakat_loop_extends (remoteAddr zakatAddress : string)
    (rounds : nat -> ZakatRound Entropy) (profiles : list WalletProfile) :
  forall i st st' p t prev,
    zakat_loop sha256 Serialize Entropy ecdsa_Verify NewUTXOTransaction ScalarBaseMult
      base64_decode hex_error remoteAddr zakatAddress rounds i profiles st = Done st' ->
    processed st = wrap64 p -> totalZakat st = wrap64 t ->
    exists blocks calls,
      zs_chain st' = zs_chain st ++ blocks
      /\ zs_calls st' = zs_calls st ++ calls
      /\ (length blocks <= length profiles)%nat
      /\ processed st' = wrap64 (p + Z.of_nat (length blocks))
      /\ totalZakat st' = wrap64 (t + foldr Z.add 0 (recorded_zakat calls))
      /\ Forall (fun a => 0 < a) (recorded_zakat calls)
      /\ length (recorded_zakat calls) = length blocks
      /\ blockHashes st'
         = blockHashes st ++ map (fun b => Hex.EncodeToString (Hash b)) blocks
      /\ (forall (j : nat) b, blocks !! j = Some b ->
            exists tx,
              Transactions b = [tx]
              /\ Validate sha256 (NewProofOfWork b) = true
              /\ VerifyTransaction sha256 Serialize ecdsa_Verify
                   (zs_chain st ++ take j blocks) tx = Done true)
      /\ (linked_from prev (zs_chain st) -> linked_from prev (zs_chain st ++ blocks)).
Proof.
  induction profiles as [|wp profiles IH]; intros i st st' p t prev H Hp Ht.
  - cbn in H. injection H as <-. exists [], []. rewrite !app_nil_r, Z.add_0_r.
    cbn. rewrite Z.add_0_r. split; [reflexivity|]. split; [reflexivity|]. split; [lia|].
    split; [exact Hp|]. split; [exact Ht|]. split; [constructor|]. split; [reflexivity|].
    split; [reflexivity|]. split; [|auto]. intros j b Hj. now rewrite lookup_nil in Hj.
  - cbn [zakat_loop] in H.
    destruct (zakat_round _ _ _ _ _ _ _ _ _ _ st wp (rounds i)) as [st1| |] eqn:Hround;
      cbn [mbind outcome_bind] in H; try discriminate.
    apply zakat_round_step in Hround as (calls1 & Hcalls1 & Hstep).
    destruct Hstep as [(Hc & Hpr & Htz & Hbh & Hrec)
                      |(tip & nb & tx & amount & Htip & Hc & Htxs & Hprev & Hvalid & Hver
                        & Hpos & Hpr & Htz & Hbh & Hrec)].
    + destruct (IH (S i) st1 st' p t prev H) as (blocks & calls & H1 & H2 & H3 & H4 & H5 & H6
                                                  & H7 & H8 & H9 & H10);
        [congruence|congruence|].
      exists blocks, (calls1 ++ calls).
      rewrite recorded_zakat_app, Hrec. cbn [app].
      rewrite H1, H2, Hc, Hcalls1, H8, Hbh, <- app_assoc. cbn [length].
      split; [reflexivity|]. split; [reflexivity|]. split; [lia|]. split; [exact H4|].
      split; [exact H5|]. split; [exact H6|]. split; [exact H7|]. split; [reflexivity|].
      split; [|now rewrite <- Hc].
      intros j b Hj. destruct (H9 j b Hj) as (tx & ? & ? & Hv). exists tx.
      rewrite <- Hc. auto.
    + destruct (IH (S i) st1 st' (p + 1) (t + amount) prev H)
        as (blocks & calls & H1 & H2 & H3 & H4 & H5 & H6 & H7 & H8 & H9 & H10).
      { rewrite Hpr, Hp. apply wrap64_add_l. }
      { rewrite Htz, Ht. apply wrap64_add_l. }
      exists (nb :: blocks), (calls1 ++ calls).
      rewrite recorded_zakat_app, Hrec. cbn [app foldr length map].
      rewrite H1, H2, Hc, Hcalls1, H8, Hbh, <- !app_assoc. cbn [app].
      split; [reflexivity|]. split; [reflexivity|]. split; [lia|].
      split; [rewrite H4; f_equal; lia|]. split; [rewrite H5; f_equal; lia|].
      split; [constructor; assumption|]. split; [now rewrite H7|]. split; [reflexivity|].
      split.
      * intros [|j] b Hj.
        -- injection Hj as <-. exists tx. cbn [take]. rewrite app_nil_r. auto.
        -- destruct (H9 j b Hj) as (tx' & ? & ? & Hv). exists tx'.
           split; [assumption|]. split; [assumption|].
           cbn [take]. rewrite Hc, <- app_assoc in Hv. exact Hv.
      * intros Hl. rewrite Hc, <- app_assoc in H10. apply H10.
        apply linked_from_app; [exact Hl|]. now rewrite Htip.
Qed.

(** X30. Every run of [RunZakat] that answers: with status 500 and the
    chain untouched when no row store is configured, the pool address is
    not set or the wallets cannot be listed; otherwise with the count of
    all wallets and, for the wallets it charged, one block each appended
    to the chain in order. [processed] counts those blocks,
    [block_hashes] names them, each holds exactly one transaction, which
    passed [VerifyTransaction] on the chain as it stood before the block,
    each passes [Validate], a linked chain stays linked, and
    [total_zakat] is the (wrapped) sum of the amounts of the zakat records
    written, one positive amount per block. *)
Theorem RunZakat_outcomes (remoteAddr zakatAddress : string)
    (listed : list WalletProfile + string) (rounds : nat -> ZakatRound Entropy)
    (s s' : Server) (reply : zakat_reply) (calls : list zakat_call) :
  RunZakat sha256 Serialize Entropy ecdsa_Verify NewUTXOTransaction ScalarBaseMult
    base64_decode hex_error remoteAddr zakatAddress listed rounds s
  = Done (s', reply, calls) ->
  match reply with
  | ZakatError msg code =>
      code = 500 /\ s' = s
      /\ (S_DB s = false \/ zakatAddress = ""%string \/ exists err, listed = inr err)
  | ZakatDone r =>
      exists profiles blocks,
        S_DB s = true /\ zakatAddress <> ""%string /\ listed = inl profiles
        /\ s' = mkServer (S_BC s ++ blocks) (S_DB s)
        /\ TotalWallets r = Z.of_nat (length profiles)
        /\ (length blocks <= length profiles)%nat
        /\ Processed r = wrap64 (Z.of_nat (length blocks))
        /\ BlockHashes r = map (fun b => Hex.EncodeToString (Hash b)) blocks
        /\ TotalZakat r = wrap64 (foldr Z.add 0 (recorded_zakat calls))
        /\ Forall (fun a => 0 < a) (recorded_zakat calls)
        /\ length (recorded_zakat calls) = length blocks
        /\ (forall (j : nat) b, blocks !! j = Some b ->
              exists tx,
                Transactions b = [tx]
                /\ Validate sha256 (NewProofOfWork b) = true
                /\ VerifyTransaction sha256 Serialize ecdsa_Verify
                     (S_BC s ++ take j blocks) tx = Done true)
        /\ (linked (S_BC s) -> linked (S_BC s ++ blocks))
  end.
Proof.
  unfold RunZakat. destruct (S_DB s) eqn:HDB; cbn [negb].
  2:{ intros [= <- <- _]. auto. }
  case_bool_decide as Haddr.
  { intros [= <- <- _]. auto. }
  destruct listed as [profiles|err].
  2:{ intros [= <- <- _]. split; [reflexivity|]. split; [reflexivity|]. right. right. eauto. }
  destruct (zakat_loop _ _ _ _ _ _ _ _ _ _ _ _ _ _) as [st| |] eqn:Hloop;
    cbn [mbind outcome_bind]; try discriminate.
  intros [= <- <- <-].
  destruct (zakat_loop_extends _ _ _ _ _ _ _ 0 0 [] Hloop eq_refl eq_refl)
    as (blocks & calls & H1 & H2 & H3 & H4 & H5 & H6 & H7 & H8 & H9 & H10).
  cbn [zs_chain zs_calls blockHashes app] in *.
  exists profiles, blocks. cbn [TotalWallets Processed TotalZakat BlockHashes].
  rewrite H2, recorded_zakat_app. cbn [recorded_zakat flat_map zakat_log]. rewrite app_nil_r.
  split; [reflexivity|]. split; [exact Haddr|]. split; [reflexivity|].
  split; [now rewrite H1|]. split; [reflexivity|]. split; [exact H3|].
  split; [exact H4|]. split; [exact H8|]. split; [exact H5|]. split; [exact H6|].
  split; [exact H7|]. split; [exact H9|]. exact H10.
Qed.

(** ** utxo.go and handlers.go: callers that mine and keep an index *)






End Further.

(** * The further properties at concrete inputs *)

Lemma Demo_sha256_length (data : list byte) : length (Demo.sha256 data) = 32%nat.
Proof. unfold Demo.sha256. cbn [length]. now rewrite length_map, length_seq. Qed.

Lemma singleton_of_lookup {A} (l : list A) (x : A) :
  length l = 1%nat -> l !! 0%nat = Some x -> l = [x].
Proof. destruct l as [|y [|z l]]; try discriminate. now intros _ [= ->]. Qed.

Lemma fair_map_to_list : fair_order map_to_list.
Proof. intros m. reflexivity. Qed.

Lemma rand_Int_in_range (rnd : list Z) (d : Z) (rnd' : list Z) :
  DemoWallet.rand_Int rnd 10 = (inr d, rnd') -> 0 <= d < 10.
Proof.
  destruct rnd as [|k rest]; [discriminate|]. cbn. intros [= <- _].
  apply Z.mod_pos_bound. lia.
Qed.

Lemma IntToHex_big_endian_int64_witness :
  let pow := NewProofOfWork Sample.genesis_block in
  0 <= 1700000060 <= int_max
  /\ IntToHex 1700000060 = [x00; x00; x00; x00; x65; x53; xf1; x3c]
  /\ length (IntToHex 1700000060) = 8%nat
  /\ BigInt.SetBytes (IntToHex 1700000060) = 1700000060
  /\ forall m, - 2 ^ 63 <= m <= int_max ->
       prepareData Demo.sha256 pow 1700000060 = prepareData Demo.sha256 pow m ->
       1700000060 = m.
Proof.
  intros pow.
  assert (Hr : 0 <= 1700000060 <= int_max) by (unfold int_max; lia).
  destruct (IntToHex_big_endian_int64 Demo.sha256 1700000060 pow)
    as (Hlen & _ & Hback & Hinj).
  split; [exact Hr|]. split; [by_evaluation|]. split; [exact Hlen|].
  split; [exact (Hback Hr)|].
  intros m Hm. apply Hinj; [unfold int_max in *; lia|exact Hm].
Defined.

Lemma meets_target_leading_zero_bits_witness :
  let b := Sample.spend_block in
  (forall data, length (Demo.sha256 data) = 32%nat)
  /\ meets_target Demo.sha256 (NewProofOfWork b) (Nonce b) = true
  /\ exists b2 rest,
       Demo.sha256 (prepareData Demo.sha256 (NewProofOfWork b) (Nonce b))
       = x00 :: x00 :: b2 :: rest
       /\ Z_of_byte b2 < 16.
Proof.
  intros b.
  assert (Hm : meets_target Demo.sha256 (NewProofOfWork b) (Nonce b) = true) by by_evaluation.
  split; [exact Demo_sha256_length|]. split; [exact Hm|].
  exact (proj1 (meets_target_leading_zero_bits Demo.sha256 b (Nonce b) Demo_sha256_length) Hm).
Defined.

Lemma AddBlock_extends_chain_witness :
  let bc := Sample.genesis_chain in
  let txs := [Sample.spend_tx] in
  last bc = Some Sample.genesis_block
  /\ meets_target Demo.sha256
       (NewProofOfWork (mkBlock 1700000060 txs (Hash Sample.genesis_block) [] 0)) 1 = true
  /\ exists nb,
       AddBlock Demo.sha256 8 1700000060 bc txs = Done (bc ++ [nb], nb)
       /\ Transactions nb = txs
       /\ PrevHash nb = Hash Sample.genesis_block
       /\ Validate Demo.sha256 (NewProofOfWork nb) = true
       /\ linked (bc ++ [nb]).
Proof.
  intros bc txs.
  assert (Htip : last bc = Some Sample.genesis_block) by reflexivity.
  assert (Hm : meets_target Demo.sha256
                 (NewProofOfWork (mkBlock 1700000060 txs (Hash Sample.genesis_block) [] 0)) 1
               = true) by by_evaluation.
  split; [exact Htip|]. split; [exact Hm|].
  destruct (AddBlock_extends_chain Demo.sha256 8 1700000060 bc txs Sample.genesis_block 1)
    as [_ H].
  destruct H as (nb & Hadd & Htxs & Hprev & _ & Hvalid & Hlinked & _).
  - exact Htip.
  - unfold int_max. lia.
  - exact Hm.
  - cbn. lia.
  - exists nb. split; [exact Hadd|]. split; [exact Htxs|]. split; [exact Hprev|].
    split; [exact Hvalid|]. apply Hlinked. split; [reflexivity|exact I].
Defined.

Lemma missing_reference_rejected_witness :
  let tx := Sample.spend_of Sample.key552 in
  let vin := mkTxInput (ID (Sample.reward_to Sample.key552)) 0 [] [] in
  In vin (Vin tx)
  /\ Forall (fun t => ID t <> Txid vin) (chain_transactions Sample.genesis_chain)
  /\ SignTransaction Demo.sha256 Demo.Serialize Demo.Entropy Demo.ecdsa_Sign
       Sample.genesis_chain tx Sample.key552 [1234567]
     = Done (tx, [1234567], Some "transaction not found"%string)
  /\ VerifyTransaction Demo.sha256 Demo.Serialize Demo.ecdsa_Verify Sample.genesis_chain tx
     = Done false.
Proof.
  intros tx vin.
  assert (Hin : In vin (Vin tx)) by (left; reflexivity).
  assert (Hmiss : Forall (fun t => ID t <> Txid vin) (chain_transactions Sample.genesis_chain)).
  { constructor; [|constructor]. intros E. vm_compute in E. discriminate E. }
  split; [exact Hin|]. split; [exact Hmiss|].
  destruct (missing_reference_rejected Demo.sha256 Demo.Serialize Demo.Entropy Demo.ecdsa_Sign
              Demo.ecdsa_Verify Sample.genesis_chain tx vin Sample.key552 [1234567] Hin Hmiss)
    as [HS HV].
  split; [exact HS|]. apply HV. reflexivity.
Defined.

Lemma Verify_accepts_foreign_key_witness :
  let thief := Sample.key7 in
  let tx := Sample.spend_of Sample.key552 in
  let prevTXs := Sample.refs_of Sample.key552 in
  Vout (Sample.reward_to Sample.key552) = [mkTxOutput 15000 (Demo.owner_of Sample.key552)]
  /\ Demo.owner_of Sample.key552 <> Demo.owner_of thief
  /\ exists tx',
       Sign Demo.sha256 Demo.Serialize Demo.Entropy Demo.ecdsa_Sign tx thief prevTXs [1234567]
       = Done (tx', [], None)
       /\ Verify Demo.sha256 Demo.Serialize Demo.ecdsa_Verify tx' prevTXs = Done true.
Proof.
  intros thief tx prevTXs.
  assert (Hne : Demo.owner_of Sample.key552 <> Demo.owner_of thief)
    by (intros E; vm_compute in E; discriminate E).
  split; [by_evaluation|]. split; [exact Hne|].
  set (vin := mkTxInput (ID (Sample.reward_to Sample.key552)) 0 [] []).
  set (out := mkTxOutput 15000 (Demo.owner_of Sample.key552)).
  set (digest := input_digest Demo.sha256 Demo.Serialize tx 0 (PubKeyHash out)).
  destruct (P256.Sign 1234567 (D thief) digest) as [[r s]|] eqn:Hsig.
  2:{ exfalso. vm_compute in Hsig. discriminate Hsig. }
  assert (Hrs : (r, s) = match P256.Sign 1234567 (D thief) digest with
                         | Some rs => rs
                         | None => (0, 0)
                         end) by (now rewrite Hsig).
  vm_compute in Hrs. injection Hrs as -> ->.
  eapply (Verify_accepts_foreign_key Demo.sha256 Demo.Serialize Demo.Entropy Demo.ecdsa_Sign
            Demo.ecdsa_Verify tx vin thief prevTXs [1234567] [] (Sample.reward_to Sample.key552)
            out).
  - reflexivity.
  - reflexivity.
  - by_evaluation.
  - by_evaluation.
  - unfold Demo.ecdsa_Sign. fold digest. now rewrite Hsig.
  - by_evaluation.
  - lia.
  - lia.
  - cbn. lia.
  - cbn. lia.
  - left. by_evaluation.
  - left. by_evaluation.
Defined.

Lemma Sign_signs_every_input_witness :
  let tx := Sample.spend_unsigned in
  let prevTXs : gmap string Transaction :=
    {[ Hex.EncodeToString (ID Sample.genesis_tx) := Sample.genesis_tx ]} in
  refs_in_range tx prevTXs
  /\ Sign Demo.sha256 Demo.Serialize Demo.Entropy Demo.ecdsa_Sign tx Sample.key7 prevTXs
       [1234567] = Done (Sample.spend_tx, [], None)
  /\ ID Sample.spend_tx = ID tx
  /\ Vout Sample.spend_tx = Vout tx
  /\ TrimmedCopy Sample.spend_tx = TrimmedCopy tx
  /\ exists sig,
       Vin Sample.spend_tx
       = [mkTxInput (ID Sample.genesis_tx) 0 sig
            (BigInt.Bytes (PubX Sample.key7) ++ BigInt.Bytes (PubY Sample.key7))].
Proof.
  intros tx prevTXs.
  assert (Hrefs : refs_in_range tx prevTXs).
  { constructor; [|constructor].
    exists Sample.genesis_tx, (mkTxOutput 15000 (Demo.owner_of Sample.key7)).
    split; by_evaluation. }
  assert (Hsign : Sign Demo.sha256 Demo.Serialize Demo.Entropy Demo.ecdsa_Sign tx Sample.key7
                    prevTXs [1234567] = Done (Sample.spend_tx, [], None)) by by_evaluation.
  assert (Hcb : IsCoinbase tx = false) by by_evaluation.
  assert (Hvin : Vin tx !! 0%nat = Some (mkTxInput (ID Sample.genesis_tx) 0 [] []))
    by by_evaluation.
  assert (Hlen : length (Vin Sample.spend_tx) = 1%nat) by by_evaluation.
  split; [exact Hrefs|]. split; [exact Hsign|].
  destruct (Sign_signs_every_input Demo.sha256 Demo.Serialize Demo.Entropy Demo.ecdsa_Sign
              tx Sample.key7 prevTXs [1234567]) as [_ H].
  destruct (H _ _ _ Hsign) as (HID & HVout & HT & Hins).
  split; [exact HID|]. split; [exact HVout|]. split; [exact HT|].
  destruct (Hins eq_refl Hcb 0%nat _ Hvin)
    as (prevTx & out & rnd1 & rnd2 & r & s & _ & _ & _ & Hat).
  exists (BigInt.Bytes r ++ BigInt.Bytes s).
  exact (singleton_of_lookup _ _ Hlen Hat).
Defined.

Lemma FindUTXO_sound_and_keeps_unreferenced_witness :
  let bc := Sample.spent_chain in
  let k := Hex.EncodeToString (ID Sample.spend_tx) in
  let out := mkTxOutput 15000 (Demo.owner_of Sample.key552) in
  FindUTXO bc (Some (Demo.owner_of Sample.key552)) !! k = Some [out]
  /\ In Sample.spend_tx (chain_transactions bc)
  /\ Vout Sample.spend_tx !! 0%nat = Some out
  /\ Forall (fun t => references k (Z.of_nat 0) t = false) (chain_transactions bc)
  /\ owner_matches (Some (Demo.owner_of Sample.key552)) out = true
  /\ exists outs,
       FindUTXO bc (Some (Demo.owner_of Sample.key552)) !! k = Some outs /\ In out outs.
Proof.
  intros bc k out.
  assert (Hl : FindUTXO bc (Some (Demo.owner_of Sample.key552)) !! k = Some [out])
    by by_evaluation.
  assert (Hin : In Sample.spend_tx (chain_transactions bc)) by (right; left; reflexivity).
  assert (Hout : Vout Sample.spend_tx !! 0%nat = Some out) by by_evaluation.
  assert (Hfree : Forall (fun t => references k (Z.of_nat 0) t = false)
                    (chain_transactions bc)).
  { constructor; [by_evaluation|]. constructor; [by_evaluation|constructor]. }
  destruct (FindUTXO_sound_and_keeps_unreferenced bc (Some (Demo.owner_of Sample.key552)))
    as [Hsound Hkeep].
  destruct (Hsound k [out] Hl) as [_ Hall].
  destruct (Hall out (or_introl eq_refl)) as [Ho _].
  split; [exact Hl|]. split; [exact Hin|]. split; [exact Hout|]. split; [exact Hfree|].
  split; [exact Ho|].
  exact (Hkeep Sample.spend_tx 0%nat out Hin Hout Ho Hfree).
Defined.

Lemma Reindex_is_FindUTXO_witness :
  fair_order map_to_list
  /\ Reindex map_to_list (mkUTXOSet (Some Sample.spent_chain))
     = FindUTXO Sample.spent_chain None
  /\ Reindex map_to_list (mkUTXOSet None) = ∅.
Proof.
  split; [exact fair_map_to_list|].
  exact (Reindex_is_FindUTXO map_to_list Sample.spent_chain fair_map_to_list).
Defined.

Lemma FindSpendableOutputs_selects_positions_witness :
  let h := Demo.owner_of Sample.key7 in
  fair_order map_to_list
  /\ exists acc sel,
       FindSpendableOutputs map_to_list (mkUTXOSet (Some Sample.genesis_chain)) (Some h) 100
       = Done (acc, sel)
       /\ sel !! Hex.EncodeToString (ID Sample.genesis_tx) = Some [0]
       /\ (forall k idxs, sel !! k = Some idxs ->
             exists outs (n : nat),
               FindUTXO Sample.genesis_chain (Some h) !! k = Some outs
               /\ (1 <= n <= length outs)%nat
               /\ idxs = seqZ 0 (Z.of_nat n)).
Proof.
  intros h. split; [exact fair_map_to_list|].
  destruct (FindSpendableOutputs_selects_positions map_to_list Sample.genesis_chain h 100
              fair_map_to_list) as (acc & sel & Hfind & Hshape & _).
  exists acc, sel. split; [exact Hfind|]. split; [|exact Hshape].
  assert (Hrun : FindSpendableOutputs map_to_list (mkUTXOSet (Some Sample.genesis_chain))
                   (Some h) 100
                 = Done (15000, {[ Hex.EncodeToString (ID Sample.genesis_tx) := [0] ]}))
    by by_evaluation.
  rewrite Hrun in Hfind.
  apply (f_equal (fun o => match o with
                           | Done (_, m) => m !! Hex.EncodeToString (ID Sample.genesis_tx)
                           | _ => None
                           end)) in Hfind.
  cbv beta iota in Hfind. rewrite <- Hfind. by_evaluation.
Defined.

Lemma balanceForAddress_sums_listed_witness :
  let s := mkServer Sample.spent_chain false in
  fair_order map_to_list
  /\ balanceForAddress map_to_list s (Demo.address_of Sample.key552)
     = inl (15000, Demo.owner_of Sample.key552)
  /\ balanceForAddress map_to_list s "xyz" = inr "invalid address"%string.
Proof.
  intros s. split; [exact fair_map_to_list|]. split.
  - rewrite (balanceForAddress_sums_listed map_to_list s _ fair_map_to_list). by_evaluation.
  - rewrite (balanceForAddress_sums_listed map_to_list s _ fair_map_to_list). reflexivity.
Defined.

Lemma Update_removes_by_position_witness :
  let utxo := FindUTXO Sample.genesis_chain None in
  let vin := default (mkTxInput [] 0 [] []) (Vin Sample.spend_tx !! 0%nat) in
  utxo !! Hex.EncodeToString (ID Sample.genesis_tx)
  = Some [mkTxOutput 15000 (Demo.owner_of Sample.key7)]
  /\ Transactions Sample.spend_block = [Sample.spend_tx]
  /\ Vin Sample.spend_tx = [vin]
  /\ Txid vin = ID Sample.genesis_tx /\ InVout vin = 0
  /\ Update Sample.spend_block utxo
     = {[ Hex.EncodeToString (ID Sample.spend_tx)
          := [mkTxOutput 15000 (Demo.owner_of Sample.key552)] ]}.
Proof.
  intros utxo vin.
  assert (Hb : Transactions Sample.spend_block = [Sample.spend_tx]) by reflexivity.
  assert (HVin : Vin Sample.spend_tx = [vin]) by by_evaluation.
  split; [by_evaluation|]. split; [exact Hb|]. split; [exact HVin|].
  split; [by_evaluation|]. split; [by_evaluation|].
  rewrite (Update_removes_by_position Sample.spend_block Sample.spend_tx vin utxo Hb HVin).
  by_evaluation.
Defined.

Lemma Update_agrees_with_Reindex_on_reward_witness :
  let bc := Sample.genesis_chain in
  let cb := Sample.reward_to Sample.key552 in
  let b := mkBlock 1700000120 [cb] (Hash Sample.genesis_block) [] 0 in
  fair_order map_to_list
  /\ IsCoinbase cb = true
  /\ Vout cb <> []
  /\ Forall (fun t => ID t <> ID cb) (chain_transactions bc)
  /\ Forall (fun t => IsCoinbase t = true \/ Forall (fun vin => Txid vin <> ID cb) (Vin t))
       (chain_transactions bc)
  /\ Update b (Reindex map_to_list (mkUTXOSet (Some bc)))
     = Reindex map_to_list (mkUTXOSet (Some (bc ++ [b]))).
Proof.
  intros bc cb b.
  assert (Hcb : IsCoinbase cb = true) by by_evaluation.
  assert (Hne : Vout cb <> []) by (intros E; vm_compute in E; discriminate E).
  assert (Hfresh : Forall (fun t => ID t <> ID cb) (chain_transactions bc)).
  { constructor; [|constructor]. intros E. vm_compute in E. discriminate E. }
  assert (Hfree : Forall (fun t => IsCoinbase t = true
                                   \/ Forall (fun vin => Txid vin <> ID cb) (Vin t))
                    (chain_transactions bc)).
  { constructor; [|constructor]. left. by_evaluation. }
  split; [exact fair_map_to_list|]. split; [exact Hcb|]. split; [exact Hne|].
  split; [exact Hfresh|]. split; [exact Hfree|].
  exact (Update_agrees_with_Reindex_on_reward map_to_list bc b cb fair_map_to_list eq_refl
           Hcb Hne Hfresh Hfree).
Defined.

Lemma Update_disagrees_with_Reindex_on_spend_witness :
  let bc := Sample.genesis_chain in
  let b := Sample.spend_block in
  let vin := default (mkTxInput [] 0 [] []) (Vin Sample.spend_tx !! 0%nat) in
  let k := Hex.EncodeToString (Txid vin) in
  let outs := [mkTxOutput 15000 (Demo.owner_of Sample.key7)] in
  fair_order map_to_list
  /\ IsCoinbase Sample.spend_tx = false
  /\ Vin Sample.spend_tx = [vin]
  /\ Txid vin <> ID Sample.spend_tx
  /\ Reindex map_to_list (mkUTXOSet (Some bc)) !! k = Some outs
  /\ 0 <= InVout vin < Z.of_nat (length outs)
  /\ Update b (Reindex map_to_list (mkUTXOSet (Some bc))) !! k = None
  /\ Reindex map_to_list (mkUTXOSet (Some (bc ++ [b]))) !! k = Some outs.
Proof.
  intros bc b vin k outs.
  assert (Hcb : IsCoinbase Sample.spend_tx = false) by by_evaluation.
  assert (HVin : Vin Sample.spend_tx = [vin]) by by_evaluation.
  assert (Hid : Txid vin <> ID Sample.spend_tx) by (intros E; vm_compute in E; discriminate E).
  assert (Hl : Reindex map_to_list (mkUTXOSet (Some bc)) !! k = Some outs) by by_evaluation.
  assert (Hv : InVout vin = 0) by by_evaluation.
  assert (Hr : 0 <= InVout vin < Z.of_nat (length outs)) by (rewrite Hv; cbn; lia).
  split; [exact fair_map_to_list|]. split; [exact Hcb|]. split; [exact HVin|].
  split; [exact Hid|]. split; [exact Hl|]. split; [exact Hr|].
  destruct (Update_disagrees_with_Reindex_on_spend map_to_list bc b Sample.spend_tx vin outs
              fair_map_to_list eq_refl Hcb HVin Hid Hl Hr) as [HU HR].
  split; [|exact HR]. unfold k. rewrite HU, Hv. reflexivity.
Defined.

Lemma PrivateKey_hex_round_trip_witness :
  let priv := Sample.key7 in
  PrivateKeyToHex priv = "07"%string
  /\ 0 <= D priv
  /\ DemoWallet.ScalarBaseMult (BigInt.Bytes (D priv)) = (PubX priv, PubY priv)
  /\ PrivateKeyFromHex DemoWallet.ScalarBaseMult (PrivateKeyToHex priv) = Some priv
  /\ PrivateKeyFromHex DemoWallet.ScalarBaseMult "7" = None.
Proof.
  intros priv.
  assert (HD : 0 <= D priv) by (cbn; lia).
  assert (Hpub : DemoWallet.ScalarBaseMult (BigInt.Bytes (D priv)) = (PubX priv, PubY priv))
    by by_evaluation.
  destruct (PrivateKey_hex_round_trip DemoWallet.ScalarBaseMult priv) as (_ & Hback & Hfail).
  split; [by_evaluation|]. split; [exact HD|]. split; [exact Hpub|].
  split; [exact (Hback HD Hpub)|]. apply Hfail. reflexivity.
Defined.

Lemma GetAddress_is_accepted_witness :
  let pubKey := Demo.pubkey_bytes Sample.key7 in
  let address := GetAddress Demo.sha256 pubKey in
  let s := mkServer Sample.genesis_chain false in
  length (Demo.sha256 pubKey) = 32%nat
  /\ String.length address = 64%nat
  /\ ValidateAddress address = true
  /\ Hex.DecodeString address = (Demo.sha256 pubKey, true)
  /\ Vout (NewCoinbaseTx Demo.sha256 Demo.Serialize address "Genesis Block")
     = [mkTxOutput 15000 (Demo.sha256 pubKey)]
  /\ exists balance,
       balanceForAddress map_to_list s address = inl (balance, Demo.sha256 pubKey).
Proof.
  intros pubKey address s.
  split; [apply Demo_sha256_length|].
  exact (GetAddress_is_accepted Demo.sha256 Demo.Serialize pubKey "Genesis Block" map_to_list s
           (Demo_sha256_length pubKey)).
Defined.

Lemma ListBlocks_indexes_chain_witness :
  let bc := Sample.spent_chain in
  GetBlockByIndex bc 1 = Some Sample.spend_block
  /\ GetBlockByIndex bc 2 = None
  /\ length (ListBlocks bc) = 2%nat
  /\ ListBlocks bc !! 1%nat
     = Some (Summary.mkBlockSummary 1 1700000060
               (Hex.EncodeToString (Hash Sample.spend_block))
               (Hex.EncodeToString (Hash Sample.genesis_block)) 1).
Proof.
  intros bc.
  assert (H1 : GetBlockByIndex bc 1 = Some Sample.spend_block) by reflexivity.
  destruct (ListBlocks_indexes_chain bc 1) as (Hlen & _ & Hget).
  destruct (ListBlocks_indexes_chain bc 2) as (_ & Hnone & _).
  destruct (Hget _ H1) as (_ & _ & Hsum).
  split; [exact H1|]. split; [apply Hnone; right; cbn; lia|]. split; [exact Hlen|].
  exact Hsum.
Defined.

Lemma FundWallet_outcomes_witness :
  let s := mkServer Sample.genesis_chain true in
  let env := mkEnv 8 1700000120 1700000121 map_to_list "127.0.0.1:4000" (fun _ => None) in
  let req := mkFundWalletRequest (Demo.address_of Sample.key552) 500 in
  let h := match FundWallet Demo.sha256 Demo.Serialize env s (Some req) with
           | Done h => h
           | _ => mkHandled s (JsonStatus "") []
           end in
  FundWallet Demo.sha256 Demo.Serialize env s (Some req) = Done h
  /\ exists newBlock,
       reply h = JsonFund (mkFundWalletResponse (fund_Address req) 500
                             (Hex.EncodeToString (Hash newBlock)))
       /\ server h = mkServer (Sample.genesis_chain ++ [newBlock]) true
       /\ PrevHash newBlock = Hash Sample.genesis_block
       /\ Validate Demo.sha256 (NewProofOfWork newBlock) = true.
Proof.
  intros s env req h.
  assert (Hrun : FundWallet Demo.sha256 Demo.Serialize env s (Some req) = Done h)
    by by_evaluation.
  split; [exact Hrun|].
  pose proof (FundWallet_outcomes Demo.sha256 Demo.Serialize env s (Some req) h Hrun) as H.
  destruct (reply h) as [msg code|status|r] eqn:Hreply.
  - exfalso. assert (E : reply h = JsonFund (match reply h with
                                             | JsonFund r => r
                                             | _ => mkFundWalletResponse "" 0 ""
                                             end)) by by_evaluation.
    rewrite Hreply in E. discriminate E.
  - destruct H.
  - destruct H as (req' & tip & newBlock & Hbody & _ & _ & Htip & Hserver & _ & Hprev
                   & Hvalid & Hr & _).
    injection Hbody as <-. assert (tip = Sample.genesis_block) by (cbn in Htip; congruence).
    subst tip. exists newBlock. rewrite Hr. auto.
Defined.

Lemma SendTransaction_outcomes_witness :
  let s := mkServer Sample.genesis_chain true in
  let env := mkEnv 8 1700000060 1700000061 map_to_list "127.0.0.1:4000" (fun _ => None) in
  let req := mkTxRequest (Demo.address_of Sample.key7) (Demo.address_of Sample.key552)
               15000 "07" in
  let h := match SendTransaction Demo.sha256 Demo.Serialize Demo.Entropy Demo.ecdsa_Verify
                   Demo.BigIntToPrivateKey Demo.NewUTXOTransaction env [1234567] s (Some req)
           with
           | Done h => h
           | _ => mkHandled s (JsonStatus "") []
           end in
  SendTransaction Demo.sha256 Demo.Serialize Demo.Entropy Demo.ecdsa_Verify
    Demo.BigIntToPrivateKey Demo.NewUTXOTransaction env [1234567] s (Some req) = Done h
  /\ reply h = JsonStatus "transaction mined"
  /\ exists tx newBlock,
       VerifyTransaction Demo.sha256 Demo.Serialize Demo.ecdsa_Verify (S_BC s) tx = Done true
       /\ server h = mkServer (Sample.genesis_chain ++ [newBlock]) true
       /\ Transactions newBlock = [tx]
       /\ db_calls h
          = [SaveBlock 1 newBlock;
             SaveTransaction
               (transaction_row 1700000061 (Hex.EncodeToString (Hash newBlock)) tx
                  (From req) (To req) 15000 "send")].
Proof.
  intros s env req h.
  assert (Hrun : SendTransaction Demo.sha256 Demo.Serialize Demo.Entropy Demo.ecdsa_Verify
                   Demo.BigIntToPrivateKey Demo.NewUTXOTransaction env [1234567] s (Some req)
                 = Done h) by by_evaluation.
  assert (Hreply : reply h = JsonStatus "transaction mined") by by_evaluation.
  split; [exact Hrun|]. split; [exact Hreply|].
  pose proof (SendTransaction_outcomes Demo.sha256 Demo.Serialize Demo.Entropy
                Demo.ecdsa_Verify Demo.BigIntToPrivateKey Demo.NewUTXOTransaction
                env [1234567] s (Some req) h Hrun) as H.
  rewrite Hreply in H.
  destruct H as (_ & req' & acc & spendable & tx & tip & newBlock & Hbody & _ & _ & _ & _ & _
                 & _ & _ & Hver & _ & Hserver & Htxs & _ & _ & Hcalls).
  injection Hbody as <-. exists tx, newBlock.
  split; [exact Hver|]. split; [exact Hserver|]. split; [exact Htxs|]. exact Hcalls.
Defined.

Lemma generateOTP_decimal_digits_witness :
  (forall rnd d rnd', DemoWallet.rand_Int rnd 10 = (inr d, rnd') -> 0 <= d < 10)
  /\ generateOTP (list Z) DemoWallet.rand_Int 6 [3; 14; 15; 92; 65; 35; 89]
     = (("345255"%string, None), [89])
  /\ String.length "345255" = Z.to_nat 6
  /\ Forall (fun c => (48 <= N_of_ascii c <= 57)%N) (list_ascii_of_string "345255")
  /\ generateOTP (list Z) DemoWallet.rand_Int 6 [3; 14] = ((""%string, Some "EOF"%string), []).
Proof.
  assert (Hgen : generateOTP (list Z) DemoWallet.rand_Int 6 [3; 14; 15; 92; 65; 35; 89]
                 = (("345255"%string, None), [89])) by by_evaluation.
  pose proof (generateOTP_decimal_digits (list Z) DemoWallet.rand_Int 6 _ _ _ _
                rand_Int_in_range Hgen) as [Hlen Hdigits].
  split; [exact rand_Int_in_range|]. split; [exact Hgen|]. split; [exact Hlen|].
  split; [exact Hdigits|]. by_evaluation.
Defined.

Lemma otp_accepted_once_until_expiry_witness :
  let now := 1700000000000000000 in
  let email := "a@b.c"%string in
  let otps1 : gmap string otpEntry := {[ email := mkOtpEntry "345255" (now + five_minutes) ]} in
  RequestOTP (list Z) DemoWallet.rand_Int now "127.0.0.1:4000" false
    [3; 14; 15; 92; 65; 35; 89] ∅ (Some email)
  = (otps1, OtpIssued email "345255", [], [89])
  /\ VerifyOTP (now + 1000) "127.0.0.1:4000" false otps1
       (Some (mkVerifyOTPRequest email "345255"))
     = (delete email otps1, OtpVerdict 200 true "otp verified", [])
  /\ VerifyOTP (now + 2000) "127.0.0.1:4000" false (delete email otps1)
       (Some (mkVerifyOTPRequest email "345255"))
     = (delete email otps1, OtpVerdict 401 false "invalid or expired otp", [])
  /\ VerifyOTP (now + five_minutes + 1) "127.0.0.1:4000" false otps1
       (Some (mkVerifyOTPRequest email "345255"))
     = (otps1, OtpVerdict 401 false "invalid or expired otp", []).
Proof.
  intros now email otps1.
  assert (Hreq : RequestOTP (list Z) DemoWallet.rand_Int now "127.0.0.1:4000" false
                   [3; 14; 15; 92; 65; 35; 89] ∅ (Some email)
                 = (otps1, OtpIssued email "345255", [], [89])) by by_evaluation.
  destruct (otp_accepted_once_until_expiry (list Z) DemoWallet.rand_Int now "127.0.0.1:4000"
              false _ _ _ _ _ _ _ rand_Int_in_range Hreq) as (_ & _ & Huse).
  split; [exact Hreq|].
  destruct (Huse (now + 1000) "127.0.0.1:4000"%string false) as [Hok _].
  destruct Hok as (Hv1 & Hagain); [unfold five_minutes; lia|].
  destruct (Huse (now + five_minutes + 1) "127.0.0.1:4000"%string false) as [_ Hbad].
  split; [exact Hv1|].
  split; [exact (Hagain (now + 2000) "127.0.0.1:4000"%string false)|].
  apply (Hbad "345255"%string); [left; lia|discriminate].
Defined.

Lemma Validate_binds_ids_only_witness :
  let b := Sample.genesis_block in
  let forged :=
    mkBlock (Timestamp b)
      [mkTransaction (ID Sample.genesis_tx) []
         [mkTxOutput 1000000 (Demo.owner_of Sample.key552)]]
      (PrevHash b) [] (Nonce b) in
  map ID (Transactions b) = map ID (Transactions forged)
  /\ Validate Demo.sha256 (NewProofOfWork b) = true
  /\ Validate Demo.sha256 (NewProofOfWork forged) = true.
Proof.
  intros b forged.
  assert (Hids : map ID (Transactions b) = map ID (Transactions forged)) by reflexivity.
  assert (Hv : Validate Demo.sha256 (NewProofOfWork b) = true) by by_evaluation.
  split; [exact Hids|]. split; [exact Hv|].
  rewrite <- (Validate_binds_ids_only Demo.sha256 b forged eq_refl eq_refl eq_refl Hids).
  exact Hv.
Defined.

Lemma inputless_transaction_verifies_witness :
  let tx := mkTransaction [xff] [] [mkTxOutput 1000000 (Demo.owner_of Sample.key552)] in
  let b := mkBlock 1700000240 [tx] (Hash Sample.genesis_block) [] 0 in
  Vin tx = []
  /\ VerifyTransaction Demo.sha256 Demo.Serialize Demo.ecdsa_Verify Sample.genesis_chain tx
     = Done true
  /\ FindUTXO (Sample.genesis_chain ++ [b]) None !! Hex.EncodeToString (ID tx)
     = Some [mkTxOutput 1000000 (Demo.owner_of Sample.key552)].
Proof.
  intros tx b.
  destruct (inputless_transaction_verifies Demo.sha256 Demo.Serialize Demo.Entropy
              Demo.ecdsa_Sign Demo.ecdsa_Verify Sample.genesis_chain tx ∅ Sample.key7 [] b
              eq_refl) as (_ & _ & Hver & _ & Hlist).
  split; [reflexivity|]. split; [exact Hver|].
  rewrite Hlist.
  - by_evaluation.
  - reflexivity.
  - constructor; [|constructor]. left. by_evaluation.
Defined.

Lemma repeated_reward_shares_key_witness :
  let h := Demo.owner_of Sample.key552 in
  let cb := NewCoinbaseTx Demo.sha256 Demo.Serialize (Hex.EncodeToString h)
              "admin_faucet_reward" in
  let k := Hex.EncodeToString (ID cb) in
  let b1 := mkBlock 1700000120 [cb] (Hash Sample.genesis_block) [] 0 in
  let b2 := mkBlock 1700000180 [cb] [] [] 0 in
  fair_order map_to_list
  /\ FindUTXO Sample.genesis_chain (Some h) = ∅
  /\ FindUTXO (Sample.genesis_chain ++ [b1; b2]) None !! k
     = Some [mkTxOutput 15000 h; mkTxOutput 15000 h]
  /\ Update b2 (Update b1 (FindUTXO Sample.genesis_chain None)) !! k
     = Some [mkTxOutput 15000 h]
  /\ FindSpendableOutputs map_to_list (mkUTXOSet (Some (Sample.genesis_chain ++ [b1; b2])))
       (Some h) 30000 = Done (30000, {[ k := [0; 1] ]})
  /\ Verify Demo.sha256 Demo.Serialize Demo.ecdsa_Verify
       (mkTransaction [] [mkTxInput (ID cb) 1 [] []] []) {[ k := cb ]} = Panic.
Proof.
  intros h cb k b1 b2.
  assert (Hnone : FindUTXO Sample.genesis_chain (Some h) = ∅) by by_evaluation.
  assert (Hfresh : Forall (fun t => ID t <> ID cb) (chain_transactions Sample.genesis_chain)).
  { constructor; [|constructor]. intros E. vm_compute in E. discriminate E. }
  assert (Hfree : Forall (fun t => IsCoinbase t = true
                                   \/ Forall (fun vin => Txid vin <> ID cb) (Vin t))
                    (chain_transactions Sample.genesis_chain)).
  { constructor; [|constructor]. left. by_evaluation. }
  destruct (repeated_reward_shares_key Demo.sha256 Demo.Serialize Demo.Entropy Demo.ecdsa_Sign
              Demo.ecdsa_Verify map_to_list Sample.genesis_chain b1 b2 h "admin_faucet_reward"
              Sample.key552 [] fair_map_to_list eq_refl eq_refl Hfresh Hfree)
    as (_ & Hlist & Hupd & Hsel & _ & Hver).
  split; [exact fair_map_to_list|]. split; [exact Hnone|]. split; [exact Hlist|].
  split; [exact Hupd|]. split; [exact (Hsel Hnone)|]. exact Hver.
Defined.

Lemma zakatAmount_is_one_fortieth_witness :
  0 < 15000 /\ 15000 * 25 <= int_max
  /\ zakatAmount 15000 = 375 /\ zakatAmount 39 = 0.
Proof.
  assert (H1 : 0 < 15000) by lia.
  assert (H2 : 15000 * 25 <= int_max) by (unfold int_max; lia).
  destruct (zakatAmount_is_one_fortieth 15000 H1 H2) as (Heq & _ & _).
  split; [exact H1|]. split; [exact H2|]. split; [rewrite Heq; reflexivity|reflexivity].
Defined.

Lemma RunZakat_outcomes_witness :
  let s := mkServer Sample.genesis_chain true in
  let pool := Demo.address_of Sample.key552 in
  let profiles :=
    [mkWalletProfile "user-7" (Demo.address_of Sample.key7) "07";
     mkWalletProfile "user-43" (Demo.address_of Sample.key43) "2b"] in
  let run :=
    RunZakat Demo.sha256 Demo.Serialize Demo.Entropy Demo.ecdsa_Verify
      Demo.NewUTXOTransaction DemoWallet.ScalarBaseMult DemoWallet.base64_decode
      DemoWallet.hex_error "127.0.0.1:4000" pool (inl profiles) DemoWallet.round s in
  let result := match run with
                | Done x => x
                | _ => (s, ZakatError "" 0, [])
                end in
  run = Done result
  /\ exists r blocks,
       result.1.2 = ZakatDone r
       /\ TotalWallets r = 2 /\ Processed r = 1 /\ TotalZakat r = 375
       /\ length blocks = 1%nat
       /\ result.1.1 = mkServer (Sample.genesis_chain ++ blocks) true
       /\ BlockHashes r = map (fun b => Hex.EncodeToString (Hash b)) blocks
       /\ recorded_zakat result.2 = [375].
Proof.
  intros s pool profiles run result.
  assert (Hrun : run = Done result) by by_evaluation.
  assert (Hrec : recorded_zakat result.2 = [375]) by by_evaluation.
  set (r := match result.1.2 with
            | ZakatDone r => r
            | _ => mkZakatRunResponse 0 0 0 []
            end).
  assert (Hreply : result.1.2 = ZakatDone r) by by_evaluation.
  split; [exact Hrun|].
  assert (Hrun' : run = Done (result.1.1, result.1.2, result.2)).
  { rewrite Hrun. now destruct result as [[s' reply] calls]. }
  pose proof (RunZakat_outcomes Demo.sha256 Demo.Serialize Demo.Entropy Demo.ecdsa_Verify
                Demo.NewUTXOTransaction DemoWallet.ScalarBaseMult DemoWallet.base64_decode
                DemoWallet.hex_error "127.0.0.1:4000" pool (inl profiles) DemoWallet.round
                s result.1.1 result.1.2 result.2 Hrun') as H.
  rewrite Hreply in H.
  destruct H as (profiles' & blocks & _ & _ & Hlisted & Hs & Htotal & _ & Hproc & Hhashes
                 & Hz & _ & Hlen & _).
  injection Hlisted as <-.
  rewrite Hrec in Hlen, Hz. cbn [length] in Hlen.
  exists r, blocks. split; [exact Hreply|].
  split; [rewrite Htotal; reflexivity|].
  split; [rewrite Hproc, <- Hlen; reflexivity|].
  split; [rewrite Hz; reflexivity|]. split; [now rewrite <- Hlen|].
  split; [exact Hs|]. split; [exact Hhashes|exact Hrec].
Defined.

(** ** The reads under two visiting orders *)



